(** * Graf: MLS/ABAC query engine — a shallow embedding of the policy
    evaluator, the in-memory data store, the query pipeline and the
    graph-view reconciler, with the properties of the specification
    stated and settled against them.

    Source files embedded here:
    - [lib/policy.ts]      → [Module Policy]
    - [lib/types.ts]       → [Module Types]
    - [lib/dataStore.ts]   → [Module DataStore]
    - [lib/queryEngine.ts] → [Module QueryEngine]

    Conventions.  JavaScript values stored in attribute bags are the
    JSON values of [Js.JsValue]; a number is an IEEE-754 double
    ([PrimFloat.float]).  Integer counters (budgets, result counts) and
    instants (milliseconds since the epoch) are in [Z].  What the code
    asks of its platform (the clock, [Math.random], [Date], Unicode case
    mapping, the regular-expression engine, the members objects inherit
    from [Object.prototype]) is the interface [Host]. *)

From Stdlib Require Import ZArith Floats Uint63 Ascii String List Bool Lia Permutation.
From stdpp Require Import base option list gmap strings.

Local Open Scope string_scope.
Local Open Scope Z_scope.

#[local] Set Warnings "-register-all".

(* ================================================================== *)
(** * Part I — definitions                                              *)
(* ================================================================== *)

(** ** JavaScript values *)

Module Js.

(** The values an attribute bag ([Record<string, any>]) holds: the JSON
    values, and [undefined], which is what reading an absent key yields
    and which, like a number that is not finite, a bag may hold until it
    is cloned. *)
Inductive JsValue : Type :=
| JsUndefined
| JsNull
| JsBool (b : bool)
| JsNumber (x : float)
| JsString (s : string)
| JsArray (items : list JsValue)
| JsObject (fields : list (string * JsValue)).

Definition is_nan (x : float) : bool := negb (PrimFloat.eqb x x).

(** ToBoolean: [undefined], [null], [false], [0], [-0], [NaN] and the
    empty string are falsy; everything else (every array and object
    included) is truthy. *)
Definition truthy (v : JsValue) : bool :=
  match v with
  | JsUndefined | JsNull => false
  | JsBool b => b
  | JsNumber x => negb (PrimFloat.eqb x 0%float || is_nan x)
  | JsString s => negb (String.eqb s "")
  | JsArray _ | JsObject _ => true
  end.

(** [a === b].  Primitives compare by value ([NaN] differs from itself,
    [0 === -0]).  Arrays and objects compare by reference: the operands
    met here always come from two separately cloned records (a user and
    a node or edge), so two arrays or objects are never the same
    reference. *)
Definition strict_eq (a b : JsValue) : bool :=
  match a, b with
  | JsUndefined, JsUndefined => true
  | JsNull, JsNull => true
  | JsBool x, JsBool y => Bool.eqb x y
  | JsNumber x, JsNumber y => PrimFloat.eqb x y
  | JsString s, JsString t => String.eqb s t
  | _, _ => false
  end.

(** [a || b] on values. *)
Definition or_else (a b : JsValue) : JsValue := if truthy a then a else b.

(** [bag?.[key]]: the value under [key], [undefined] when absent. *)
Definition get (bag : gmap string JsValue) (key : string) : JsValue :=
  default JsUndefined (bag !! key).

(** [JSON.parse(JSON.stringify(v))] of a value inside an object or an
    array: a number that is not finite becomes [null], [-0] becomes [0],
    [undefined] becomes [null] in an array and drops its key in an
    object. *)
Fixpoint clone_value (v : JsValue) : JsValue :=
  match v with
  | JsNumber x =>
      if PrimFloat.is_finite x
      then (if PrimFloat.is_zero x then JsNumber 0%float else JsNumber x)
      else JsNull
  | JsArray items =>
      JsArray
        (List.map
           (fun item =>
              match item with
              | JsUndefined => JsNull
              | _ => clone_value item
              end)
           items)
  | JsObject fields =>
      JsObject
        ((fix clone_fields (fields : list (string * JsValue)) :=
            match fields with
            | [] => []
            | (_, JsUndefined) :: rest => clone_fields rest
            | (key, value) :: rest => (key, clone_value value) :: clone_fields rest
            end)
           fields)
  | JsUndefined | JsNull | JsBool _ | JsString _ => v
  end.

Definition clone_bag (bag : gmap string JsValue) : gmap string JsValue :=
  omap (fun v => match v with
                 | JsUndefined => None
                 | _ => Some (clone_value v)
                 end)
       bag.

(** [a ?? b] *)
Definition nullish_else (a b : JsValue) : JsValue :=
  match a with
  | JsUndefined | JsNull => b
  | _ => a
  end.

(** What reading a key of a table of numbers yields when the table is
    an object literal ([const TABLE = { KEY: 0, ... }; TABLE[key]]): the
    number under an own key; for a name the literal does not define, the
    member every object inherits from [Object.prototype] under that name
    (a function such as [constructor] or [toString], the prototype
    itself under [__proto__]); [undefined] for any other name.  Of an
    inherited member the code uses only how it converts: it is truthy,
    it is not nullish, and ToPrimitive gives a text, the source text of
    a built-in function or ["[object Object]"], which is not a numeral
    (ToNumber gives [NaN]). *)
Inductive TableValue : Type :=
| TableNumber (n : Z)
| Inherited (text : string)
| NoEntry.

(** ToBoolean *)
Definition table_truthy (v : TableValue) : bool :=
  match v with
  | TableNumber n => negb (Z.eqb n 0)
  | Inherited _ => true
  | NoEntry => false
  end.

(** [v || 0] *)
Definition or_zero (v : TableValue) : TableValue :=
  if table_truthy v then v else TableNumber 0.

(** [v ?? 0] *)
Definition nullish_zero (v : TableValue) : TableValue :=
  match v with
  | NoEntry => TableNumber 0
  | _ => v
  end.

(** [a < b] and [a <= b].  Two numbers compare as numbers; two inherited
    members compare as the texts ToPrimitive gives (by code unit); in
    every other case one operand converts to [NaN] and the comparison is
    false.  [a > b] is [b < a] and [a >= b] is [b <= a]. *)
Definition less (a b : TableValue) : bool :=
  match a, b with
  | TableNumber x, TableNumber y => Z.ltb x y
  | Inherited s, Inherited t => String.ltb s t
  | _, _ => false
  end.

Definition less_eq (a b : TableValue) : bool :=
  match a, b with
  | TableNumber x, TableNumber y => Z.leb x y
  | Inherited s, Inherited t => String.leb s t
  | _, _ => false
  end.

Definition greater (a b : TableValue) : bool := less b a.
Definition greater_eq (a b : TableValue) : bool := less_eq b a.

(** [text.includes(needle)].  Texts are UTF-8 byte strings; a well-formed
    needle occurs in a well-formed text only at character boundaries. *)
Fixpoint str_includes (needle text : string) : bool :=
  String.prefix needle text
  || match text with
     | String _ rest => str_includes needle rest
     | EmptyString => false
     end.

(** [text.replace(',', '.')]: the first comma only. *)
Fixpoint replace_first_comma (text : string) : string :=
  match text with
  | String c rest =>
      if Ascii.eqb c ","%char then String "."%char rest
      else String c (replace_first_comma rest)
  | EmptyString => EmptyString
  end.

(** [text.split(':')] *)
Fixpoint split_colon (text : string) : list string :=
  match text with
  | EmptyString => [EmptyString]
  | String c rest =>
      if Ascii.eqb c ":"%char then EmptyString :: split_colon rest
      else match split_colon rest with
           | part :: parts => String c part :: parts
           | [] => [String c EmptyString]
           end
  end.

(** [items.join(separator)] *)
Fixpoint join (separator : string) (items : list string) : string :=
  match items with
  | [] => ""
  | [item] => item
  | item :: rest => item ++ separator ++ join separator rest
  end.

(** [text.trim()]: the code points of WhiteSpace and LineTerminator
    (TAB, LF, VT, FF, CR, SP, U+00A0, U+1680, U+2000 to U+200A, U+2028,
    U+2029, U+202F, U+205F, U+3000, U+FEFF) are removed from both ends.
    A text is its UTF-8 bytes, so each code point is its byte sequence. *)
Definition bytes (codes : list nat) : string :=
  string_of_list_ascii (List.map ascii_of_nat codes).

Definition WHITE_SPACE : list string :=
  (List.map (fun code => bytes [code]) [9; 10; 11; 12; 13; 32]
   ++ [bytes [194; 160]; bytes [225; 154; 128]]
   ++ List.map (fun low => bytes [226; 128; low]) (seq 128 11)
   ++ [bytes [226; 128; 168]; bytes [226; 128; 169]; bytes [226; 128; 175];
       bytes [226; 129; 159]; bytes [227; 128; 128]; bytes [239; 187; 191]])%nat%list.

Definition reversed (text : string) : string :=
  string_of_list_ascii (List.rev (list_ascii_of_string text)).

(** Removes the leading occurrences of [tokens]; [fuel] bounds their
    number. *)
Fixpoint strip_leading (tokens : list string) (fuel : nat) (text : string) : string :=
  match fuel with
  | O => text
  | S fuel' =>
      match List.find (fun token => String.prefix token text) tokens with
      | Some token =>
          strip_leading tokens fuel'
            (String.substring (String.length token)
                              (String.length text - String.length token) text)
      | None => text
      end
  end.

Definition trim (text : string) : string :=
  let start := strip_leading WHITE_SPACE (String.length text) text in
  reversed
    (strip_leading (List.map reversed WHITE_SPACE) (String.length start)
                   (reversed start)).

End Js.

Export Js.

(** ** lib/types.ts *)

Module Types.

Record User : Type := mkUser {
  user_id : string;
  username : string;
  clearance_level : string;
  user_attributes : gmap string JsValue;
  query_budget : Z;
  budget_reset_at : string
}.

Record GraphNode : Type := mkNode {
  node_id : string;
  node_logical_id : string;
  node_classification_level : string;
  entity_type : string;
  name : string;
  node_attributes : gmap string JsValue;
  node_created_at : string;
  node_updated_at : string
}.

Record GraphEdge : Type := mkEdge {
  edge_id : string;
  edge_logical_id : string;
  edge_classification_level : string;
  source_node_id : string;
  target_node_id : string;
  relation_type : string;
  edge_attributes : gmap string JsValue;
  edge_created_at : string
}.

Record AuditLog : Type := mkAudit {
  audit_id : string;
  audit_user_id : string;
  query_text : string;
  query_type : string;
  result_count : Z;
  access_granted : bool;
  denial_reason : option string;
  audit_created_at : string
}.

(** [GraphNode | GraphEdge]: what the policy functions read of a data
    item is its classification level and its attribute bag. *)
Class Classified (A : Type) : Type := {
  classification_level : A → string;
  attributes : A → gmap string JsValue
}.

#[export] Instance node_classified : Classified GraphNode :=
  {| classification_level := node_classification_level;
     attributes := node_attributes |}.

#[export] Instance edge_classified : Classified GraphEdge :=
  {| classification_level := edge_classification_level;
     attributes := edge_attributes |}.

(** [clone<T>(value: T)]: the JSON round trip of a record or of an array
    of records. *)
Class Clone (A : Type) : Type := clone : A → A.

#[export] Instance clone_user : Clone User := fun u =>
  mkUser (user_id u) (username u) (clearance_level u) (clone_bag (user_attributes u))
         (query_budget u) (budget_reset_at u).

#[export] Instance clone_node : Clone GraphNode := fun n =>
  mkNode (node_id n) (node_logical_id n) (node_classification_level n)
         (entity_type n) (name n) (clone_bag (node_attributes n))
         (node_created_at n) (node_updated_at n).

#[export] Instance clone_edge : Clone GraphEdge := fun e =>
  mkEdge (edge_id e) (edge_logical_id e) (edge_classification_level e)
         (source_node_id e) (target_node_id e) (relation_type e)
         (clone_bag (edge_attributes e)) (edge_created_at e).

#[export] Instance clone_attributes : Clone (gmap string JsValue) := clone_bag.

#[export] Instance clone_list `{Clone A} : Clone (list A) := List.map clone.

(** Every field of an audit record is a string, a boolean, an integer
    or [null]: the JSON round trip gives the same record. *)
#[export] Instance clone_audit : Clone AuditLog := fun log => log.

End Types.

Export Types.

(** ** The platform *)

Module Platform.

(** What the code asks of the JavaScript platform and is not a function
    written in this repository: the engine's Unicode tables, its
    regular-expression matcher, [Date], [Math] and number formatting.
    A time value is in milliseconds since the epoch; [None] stands for
    the [NaN] of an invalid date. *)
Class Host : Type := {
  (** [String.prototype.toUpperCase] / [toLowerCase] *)
  toUpperCase : string → string;
  toLowerCase : string → string;
  (** [text[i]] *)
  String_index : string → nat → JsValue;
  (** [Math.random().toString(36)] at the n-th call of [Math.random] *)
  Math_random_base36 : nat → string;
  (** [Date.parse(text)] *)
  Date_parse : string → option Z;
  (** [new Date(value).getTime()] for a value that is not a string *)
  Date_construct : JsValue → option Z;
  (** [new Date(ms).toISOString()] *)
  Date_toISOString : Z → string;
  (** [new Date(ms).getHours()], in the local time zone *)
  Date_getHours : Z → float;
  (** [d = new Date(ms); d.setHours(...args); d.getTime()] *)
  Date_setHours : Z → list float → option Z;
  (** [new Date(ms).toLocaleTimeString()] *)
  Date_toLocaleTimeString : Z → string;
  (** The successive matches of [/source/flags] over a text, as the loop
      [while ((m = re.exec(text)) !== null)] of a global pattern meets
      them; each match is the list [m[0]; m[1]; ...].  [text.match(re)]
      of a pattern without the [g] flag is the first of them. *)
  RegExp_matches : string → string → string → list (list string);
  (** [text.split(/source/flags)] *)
  RegExp_split : string → string → string → list string;
  (** [Number(text)] *)
  Number_of_string : string → float;
  (** [x.toString()] and [x.toFixed(digits)] of a number *)
  Number_toString : float → string;
  Number_toFixed : float → nat → string;
  Math_sin : float → float;
  Math_cos : float → float;
  Math_atan2 : float → float → float;
  Math_pow : float → float → float;
  (** [[...items].sort(compare)] *)
  Array_sort : ∀ A : Type, (A → A → float) → list A → list A;
  (** [Object.prototype]: the members every object literal inherits, by
      name ([constructor], [toString], [valueOf], [hasOwnProperty],
      [__proto__], ...).  [Object_prototype name] is the text
      ToPrimitive gives for the member the prototype holds under [name]
      (the source text of a built-in function, ["[object Object]"] for
      an object), [None] when it holds none. *)
  Object_prototype : string → option string
}.

End Platform.

Export Platform.

(** ** Conversions of values that go through the platform *)

Module JsHost.

Section WithHost.
Context `{Host}.

Definition NaN : float := PrimFloat.nan.

(** [String(v)]; on the values the code calls [.toString()] on (never
    [undefined] or [null]) it is that method's result. *)
Fixpoint js_toString (v : JsValue) : string :=
  match v with
  | JsUndefined => "undefined"
  | JsNull => "null"
  | JsBool b => if b then "true" else "false"
  | JsNumber x => Number_toString x
  | JsString s => s
  | JsArray items =>
      join ","
        (List.map
           (fun item =>
              match item with
              | JsUndefined | JsNull => ""
              | _ => js_toString item
              end)
           items)
  | JsObject _ => "[object Object]"
  end.

(** [Number(v)] *)
Definition js_toNumber (v : JsValue) : float :=
  match v with
  | JsUndefined => NaN
  | JsNull => 0%float
  | JsBool b => if b then 1%float else 0%float
  | JsNumber x => x
  | JsString s => Number_of_string s
  | JsArray _ => Number_of_string (js_toString v)
  | JsObject _ => NaN
  end.

(** [v?.[0]] *)
Definition js_index0 (v : JsValue) : JsValue :=
  match v with
  | JsUndefined | JsNull => JsUndefined
  | JsArray items => default JsUndefined (head items)
  | JsString s => String_index s 0
  | JsObject fields =>
      match List.find (fun kv => String.eqb (fst kv) "0") fields with
      | Some kv => snd kv
      | None => JsUndefined
      end
  | JsBool _ | JsNumber _ => JsUndefined
  end.

(** [TABLE[key]] for an object literal whose own keys hold numbers: the
    own key first, then the prototype. *)
Definition read_table (own : string → option Z) (key : string) : TableValue :=
  match own key with
  | Some n => TableNumber n
  | None =>
      match Object_prototype key with
      | Some text => Inherited text
      | None => NoEntry
      end
  end.

(** [new Date(v).getTime()] *)
Definition date_of_value (v : JsValue) : option Z :=
  match v with
  | JsString s => Date_parse s
  | _ => Date_construct v
  end.

(** [Date.parse(v)]: the argument is converted to a string first. *)
Definition date_parse_value (v : JsValue) : option Z := Date_parse (js_toString v).

End WithHost.

End JsHost.

Export JsHost.

(** ** lib/policy.ts *)

Module Policy.

(** The own keys of the object literal [CLEARANCE_LEVELS]. *)
Definition CLEARANCE_LEVELS (level : string) : option Z :=
  if String.eqb level "UNCLASSIFIED" then Some 0
  else if String.eqb level "CONFIDENTIAL" then Some 1
  else if String.eqb level "SECRET" then Some 2
  else None.

Section WithHost.
Context `{Host}.

(** [CLEARANCE_LEVELS[level] || 0] *)
Definition clearance_of (level : string) : TableValue :=
  or_zero (read_table CLEARANCE_LEVELS level).

Definition checkClearance (userLevel dataLevel : string) : bool :=
  let userClearance := clearance_of userLevel in
  let dataClearance := clearance_of dataLevel in
  greater_eq userClearance dataClearance.

Definition checkSectorAccess `{Classified A} (user : User) (data : A) : bool :=
  let userSector := Js.get (user_attributes user) "sector" in
  let userRole := Js.get (user_attributes user) "role" in
  if strict_eq userRole (JsString "commander") then true
  else if negb (truthy userSector) then false
  else
    let dataSector := Js.get (attributes data) "sector" in
    if negb (truthy dataSector) then true
    else strict_eq userSector dataSector.

Definition filterAccessibleNodes (user : User) (nodes : list GraphNode)
  : list GraphNode :=
  List.filter
    (fun node =>
       if negb (checkClearance (clearance_level user) (classification_level node))
       then false
       else checkSectorAccess user node)
    nodes.

Definition filterAccessibleEdges (user : User) (edges : list GraphEdge)
  : list GraphEdge :=
  List.filter
    (fun edge =>
       if negb (checkClearance (clearance_level user) (classification_level edge))
       then false
       else checkSectorAccess user edge)
    edges.

(** [minK] defaults to 2. *)
Definition checkKAnonymity (resultCount : Z) (minK : option Z) : bool :=
  Z.geb resultCount (default 2 minK).

Definition checkQueryBudget (user : User) : bool :=
  Z.gtb (query_budget user) 0.

End WithHost.

End Policy.

Export Policy.

(** ** lib/dataStore.ts *)

Module DataStore.

(** The module-level arrays.  [draws] counts the calls made to
    [Math.random] so far, so that successive identifiers come from
    successive draws. *)
Record Store : Type := mkStore {
  usersStore : list User;
  nodesStore : list GraphNode;
  edgesStore : list GraphEdge;
  auditLogStore : list AuditLog;
  draws : nat
}.

Definition with_users (f : list User → list User) (st : Store) : Store :=
  mkStore (f (usersStore st)) (nodesStore st) (edgesStore st)
          (auditLogStore st) (draws st).
Definition with_nodes (f : list GraphNode → list GraphNode) (st : Store) : Store :=
  mkStore (usersStore st) (f (nodesStore st)) (edgesStore st)
          (auditLogStore st) (draws st).
Definition with_edges (f : list GraphEdge → list GraphEdge) (st : Store) : Store :=
  mkStore (usersStore st) (nodesStore st) (f (edgesStore st))
          (auditLogStore st) (draws st).
Definition with_audit (f : list AuditLog → list AuditLog) (st : Store) : Store :=
  mkStore (usersStore st) (nodesStore st) (edgesStore st)
          (f (auditLogStore st)) (draws st).
Definition with_draws (f : nat → nat) (st : Store) : Store :=
  mkStore (usersStore st) (nodesStore st) (edgesStore st)
          (auditLogStore st) (f (draws st)).

(** An exported [async] function runs to completion against the store:
    it is a state transformer. *)
Definition Async (A : Type) : Type := Store → A * Store.

#[export] Instance async_ret : MRet Async := λ A (a : A) st, (a, st).
#[export] Instance async_bind : MBind Async :=
  λ A B (k : A → Async B) (m : Async A) st, let '(a, st') := m st in k a st'.

Definition get_store : Async Store := λ st, (st, st).
Definition modify_store (f : Store → Store) : Async unit := λ st, (tt, f st).

Definition set_query_budget (b : Z) (u : User) : User :=
  mkUser (user_id u) (username u) (clearance_level u) (user_attributes u)
         b (budget_reset_at u).
Definition set_budget_reset_at (t : string) (u : User) : User :=
  mkUser (user_id u) (username u) (clearance_level u) (user_attributes u)
         (query_budget u) t.

(** Mutation of the object that [array.find(p)] returns: the first
    element satisfying [p] is replaced by its image, in place. *)
Fixpoint modify_first {A : Type} (p : A → bool) (f : A → A) (l : list A) : list A :=
  match l with
  | [] => []
  | x :: l' => if p x then f x :: l' else x :: modify_first p f l'
  end.

(** [value || fallback] for a field that, when present, is a string. *)
Definition str_or (value : option string) (fallback : string) : string :=
  match value with
  | Some s => if String.eqb s "" then fallback else s
  | None => fallback
  end.

(** [new Map(entries)] and [map.set]: a later entry for a key replaces
    the earlier one. *)
Definition js_map_of {V : Type} (entries : list (string * V)) : gmap string V :=
  foldl (fun m kv => <[kv.1 := kv.2]> m) ∅ entries.

(** [/[^a-z0-9]+/g → '_'], then [/^_+|_+$/g → ''], then [/_{2,}/g → '_'],
    on the lower-cased text; every byte of a non-ASCII character is
    outside [a-z0-9], as the character is. *)
Definition is_slug_char (c : ascii) : bool :=
  let n := nat_of_ascii c in
  ((97 <=? n)%nat && (n <=? 122)%nat) || ((48 <=? n)%nat && (n <=? 57)%nat).

Definition is_underscore (c : ascii) : bool := Ascii.eqb c "_"%char.

Fixpoint replace_other_runs (s : string) (in_run : bool) : string :=
  match s with
  | EmptyString => EmptyString
  | String c s' =>
      if is_slug_char c then String c (replace_other_runs s' false)
      else if in_run then replace_other_runs s' true
      else String "_"%char (replace_other_runs s' true)
  end.

Fixpoint drop_leading_underscores (s : string) : string :=
  match s with
  | String c s' => if is_underscore c then drop_leading_underscores s' else s
  | EmptyString => EmptyString
  end.

Fixpoint all_underscores (s : string) : bool :=
  match s with
  | String c s' => is_underscore c && all_underscores s'
  | EmptyString => true
  end.

Fixpoint drop_trailing_underscores (s : string) : string :=
  match s with
  | String c s' =>
      if all_underscores s then EmptyString
      else String c (drop_trailing_underscores s')
  | EmptyString => EmptyString
  end.

Fixpoint collapse_underscores (s : string) (in_run : bool) : string :=
  match s with
  | EmptyString => EmptyString
  | String c s' =>
      if is_underscore c then
        if in_run then collapse_underscores s' true
        else String c (collapse_underscores s' true)
      else String c (collapse_underscores s' false)
  end.

(** One item of the [entities] / [relationships] that [exportLevelData]
    builds: every field it writes has the type of the stored field it
    is read from; a field is [None] when the item does not carry it. *)
Record EntityItem : Type := mkEntity {
  item_logical_id : option string;
  item_entity_type : option string;
  item_name : option string;
  item_classification : option string;
  item_attributes : option (gmap string JsValue);
  item_created_at : option string;
  item_updated_at : option string
}.

Record RelationshipItem : Type := mkRelationship {
  rel_logical_id : option string;
  rel_source_id : option string;
  rel_target_id : option string;
  rel_relation_type : option string;
  rel_classification : option string;
  rel_attributes : option (gmap string JsValue);
  rel_created_at : option string
}.

Record Payload : Type := mkPayload {
  entities : list EntityItem;
  relationships : list RelationshipItem
}.

(** A typed item as the JavaScript object it is. *)
Definition js_string (value : option string) : JsValue :=
  match value with
  | Some text => JsString text
  | None => JsUndefined
  end.

Definition js_bag (value : option (gmap string JsValue)) : JsValue :=
  match value with
  | Some bag => JsObject (map_to_list bag)
  | None => JsUndefined
  end.

Definition entity_value (entity : EntityItem) : JsValue :=
  JsObject [
    ("logical_id", js_string (item_logical_id entity));
    ("entity_type", js_string (item_entity_type entity));
    ("name", js_string (item_name entity));
    ("classification", js_string (item_classification entity));
    ("attributes", js_bag (item_attributes entity));
    ("created_at", js_string (item_created_at entity));
    ("updated_at", js_string (item_updated_at entity))
  ].

Definition relationship_value (relationship : RelationshipItem) : JsValue :=
  JsObject [
    ("logical_id", js_string (rel_logical_id relationship));
    ("source_id", js_string (rel_source_id relationship));
    ("target_id", js_string (rel_target_id relationship));
    ("relation_type", js_string (rel_relation_type relationship));
    ("classification", js_string (rel_classification relationship));
    ("attributes", js_bag (rel_attributes relationship));
    ("created_at", js_string (rel_created_at relationship))
  ].

Definition payload_value (payload : Payload) : JsValue :=
  JsObject [
    ("entities", JsArray (List.map entity_value (entities payload)));
    ("relationships", JsArray (List.map relationship_value (relationships payload)))
  ].

(** *** Reading a value of type [any] *)

(** [value == null] *)
Definition is_nullish (value : JsValue) : bool :=
  match value with
  | JsUndefined | JsNull => true
  | _ => false
  end.

(** [item.key], for the keys [importLevelData] reads, on an item that is
    not [null] or [undefined] (on those the read throws a TypeError):
    the value under the own key of an object (an object has one entry
    per key), [undefined] when the object has no such key and when the
    item is a string, a number, a boolean or an array, which have no
    member of these names. *)
Definition field (item : JsValue) (key : string) : JsValue :=
  match item with
  | JsObject fields =>
      match List.find (fun kv => String.eqb (fst kv) key) fields with
      | Some kv => snd kv
      | None => JsUndefined
      end
  | _ => JsUndefined
  end.

(** [Array.isArray(value) ? value : []] *)
Definition items_of (value : JsValue) : list JsValue :=
  match value with
  | JsArray items => items
  | _ => []
  end.

(** [value || fallback], put in a field declared [string]: [None] when
    the value is truthy and not a string. *)
Definition string_field (value : JsValue) (fallback : string) : option string :=
  if truthy value
  then match value with
       | JsString text => Some text
       | _ => None
       end
  else Some fallback.

(** [clone(value || {})], put in a field declared [Record<string, any>]:
    [None] when the value is truthy and not a plain object. *)
Definition bag_field (value : JsValue) : option (gmap string JsValue) :=
  if truthy value
  then match value with
       | JsObject fields => Some (clone (list_to_map fields : gmap string JsValue))
       | _ => None
       end
  else Some (clone (∅ : gmap string JsValue)).

(** How a step of [importLevelData] ends.  The payload is [any], the
    records of the store are typed.  [TypeError] is the exception the
    engine raises for a read on [null] or [undefined] and for
    [toLowerCase] called on a value that has no such method.  [OffType]
    marks the point where the code goes on to put, in a field declared
    [string] or [Record<string, any>], a value of another type: the
    stores of this embedding hold typed records, and the model follows
    the code no further. *)
Inductive Ending (A : Type) : Type :=
| Completed (value : A)
| TypeError
| OffType.

#[global] Arguments Completed {A} value.
#[global] Arguments TypeError {A}.
#[global] Arguments OffType {A}.

(** [items.forEach(item => ...)] where the body updates the store and a
    local accumulator and may throw: an exception ends the loop. *)
Fixpoint forEachE {A S : Type} (body : A → S → Async (Ending S)) (items : list A)
    (acc : S) : Async (Ending S) :=
  match items with
  | [] => mret (Completed acc)
  | item :: rest =>
      step ← body item acc;
      match step with
      | Completed acc' => forEachE body rest acc'
      | TypeError => mret TypeError
      | OffType => mret OffType
      end
  end.

Section WithHost.
Context `{Host}.

(** [`${prefix}-${Math.random().toString(36).slice(2, 10)}`] *)
Definition generateId (prefix : string) : Async string :=
  st ← get_store;
  _ ← modify_store (with_draws S);
  mret (prefix ++ "-" ++ String.substring 2 8 (Math_random_base36 (draws st))).

(** [Math.random().toString(36).slice(2, 8)] *)
Definition randomSuffix : Async string :=
  st ← get_store;
  _ ← modify_store (with_draws S);
  mret (String.substring 2 6 (Math_random_base36 (draws st))).

Definition getMaxBudget (level : string) : Z :=
  if String.eqb level "SECRET" then 20
  else if String.eqb level "CONFIDENTIAL" then 8
  else 5.

(** [now] is the reading of [Date.now()].  [Number.isFinite(resetAt)]
    fails exactly when the text does not parse. *)
Definition maybeResetBudget (now : Z) (user : User) : User :=
  match Date_parse (budget_reset_at user) with
  | Some resetAt =>
      if Z.geb now resetAt then
        let maxBudget := getMaxBudget (clearance_level user) in
        set_budget_reset_at (Date_toISOString (now + 60 * 60 * 1000))
          (set_query_budget maxBudget user)
      else user
  | None => user
  end.

(** The stored record is reset in place; the caller gets a clone. *)
Definition findUserByUsername (now : Z) (uname : string) : Async (option User) :=
  st ← get_store;
  let p := fun u => String.eqb (toLowerCase (username u)) (toLowerCase uname) in
  match List.find p (usersStore st) with
  | None => mret None
  | Some user =>
      _ ← modify_store (with_users (modify_first p (maybeResetBudget now)));
      mret (Some (clone (maybeResetBudget now user)))
  end.

Definition findUserById (now : Z) (id : string) : Async (option User) :=
  st ← get_store;
  let p := fun u => String.eqb (user_id u) id in
  match List.find p (usersStore st) with
  | None => mret None
  | Some user =>
      _ ← modify_store (with_users (modify_first p (maybeResetBudget now)));
      mret (Some (clone (maybeResetBudget now user)))
  end.

Definition decrementBudget (now : Z) (id : string) : Async unit :=
  st ← get_store;
  let p := fun u => String.eqb (user_id u) id in
  match List.find p (usersStore st) with
  | None => mret tt
  | Some _ =>
      modify_store (with_users (modify_first p (fun user =>
        let user := maybeResetBudget now user in
        if Z.gtb (query_budget user) 0
        then set_query_budget (query_budget user - 1) user
        else user)))
  end.

Definition buildNodeId (logicalId level : string) : string :=
  logicalId ++ "_" ++ level.

Definition normalizeLevel (level : string) : string :=
  let upper := toUpperCase level in
  if String.eqb upper "SECRET" || String.eqb upper "S" || String.eqb upper "H"
  then "SECRET"
  else if String.eqb upper "CONFIDENTIAL" || String.eqb upper "C"
          || String.eqb upper "M"
  then "CONFIDENTIAL"
  else "UNCLASSIFIED".

Definition getAllNodes : Async (list GraphNode) :=
  st ← get_store; mret (clone (nodesStore st)).

Definition getAllEdges : Async (list GraphEdge) :=
  st ← get_store; mret (clone (edgesStore st)).

(** [Omit<AuditLog, 'id' | 'created_at'>] *)
Record AuditEntry : Type := mkEntry {
  entry_user_id : string;
  entry_query_text : string;
  entry_query_type : string;
  entry_result_count : Z;
  entry_access_granted : bool;
  entry_denial_reason : option string
}.

Definition insertAuditLog (now : Z) (entry : AuditEntry) : Async unit :=
  id ← generateId "audit";
  let log :=
    mkAudit id (entry_user_id entry) (entry_query_text entry)
            (entry_query_type entry) (entry_result_count entry)
            (entry_access_granted entry) (entry_denial_reason entry)
            (Date_toISOString now) in
  modify_store (with_audit (cons log)).

Definition slugify (value : string) : string :=
  let slug :=
    collapse_underscores
      (drop_trailing_underscores
         (drop_leading_underscores (replace_other_runs (toLowerCase value) false)))
      false in
  if String.eqb slug "" then "node" else slug.

Definition exportLevelData (level : string) : Async Payload :=
  st ← get_store;
  let classification := normalizeLevel level in
  let levelNodes :=
    List.filter (fun node => String.eqb (node_classification_level node) classification)
                (nodesStore st) in
  let nodeIdMap :=
    js_map_of (List.map (fun node => (node_id node, node_logical_id node)) levelNodes) in
  let entities :=
    List.map (fun node =>
      mkEntity (Some (node_logical_id node)) (Some (entity_type node))
               (Some (name node)) (Some (node_classification_level node))
               (Some (clone (node_attributes node))) None None)
      levelNodes in
  let relationships :=
    List.map (fun edge =>
      mkRelationship
        (Some (edge_logical_id edge))
        (Some (str_or (nodeIdMap !! source_node_id edge) (source_node_id edge)))
        (Some (str_or (nodeIdMap !! target_node_id edge) (target_node_id edge)))
        (Some (relation_type edge)) (Some (edge_classification_level edge))
        (Some (clone (edge_attributes edge))) None)
      (List.filter
         (fun edge => String.eqb (edge_classification_level edge) classification)
         (edgesStore st)) in
  mret (mkPayload entities relationships).

(** [array.splice(i, 1)] for every index whose element is at the level,
    walking from the end: the other elements keep their order. *)
Definition removeLevel {A : Type} `{Classified A} (classification : string)
    (items : list A) : list A :=
  List.filter
    (fun item => negb (String.eqb (classification_level item) classification))
    items.

(** [item.logical_id || `${slugify(item[base] || fallback)}_${suffix}`]:
    [slugify] calls [toLowerCase] on its argument before the random
    suffix is drawn. *)
Definition importedLogicalId (item : JsValue) (base fallback : string)
  : Async (Ending JsValue) :=
  let given := field item "logical_id" in
  if truthy given then mret (Completed given)
  else
    match or_else (field item base) (JsString fallback) with
    | JsString text =>
        suffix ← randomSuffix;
        mret (Completed (JsString (slugify text ++ "_" ++ suffix)))
    | _ => mret TypeError
    end.

(** [logicalToId.get(key)]: every key of the table is a string. *)
Definition table_get (logicalToId : gmap string string) (key : JsValue)
  : option string :=
  match key with
  | JsString k => logicalToId !! k
  | _ => None
  end.

Definition importEntity (classification now : string) (entity : JsValue)
    (logicalToId : gmap string string) : Async (Ending (gmap string string)) :=
  if is_nullish entity then mret TypeError
  else
    logicalId ← importedLogicalId entity "name" "entity";
    match logicalId with
    | Completed (JsString logicalId) =>
        let nodeId := buildNodeId logicalId classification in
        match string_field (field entity "entity_type") "Unknown",
              string_field (field entity "name") logicalId,
              bag_field (field entity "attributes"),
              string_field (field entity "created_at") now,
              string_field (field entity "updated_at") now with
        | Some entityType, Some name, Some attributes, Some createdAt, Some updatedAt =>
            let node :=
              mkNode nodeId logicalId classification entityType name attributes
                     createdAt updatedAt in
            _ ← modify_store (with_nodes (fun nodes => (nodes ++ [node])%list));
            mret (Completed (<[logicalId := nodeId]> logicalToId))
        | _, _, _, _, _ => mret OffType
        end
    | Completed _ => mret OffType
    | TypeError => mret TypeError
    | OffType => mret OffType
    end.

Definition importRelationship (classification now : string)
    (logicalToId : gmap string string) (relationship : JsValue) (_ : unit)
  : Async (Ending unit) :=
  if is_nullish relationship then mret TypeError
  else
    logicalId ← importedLogicalId relationship "relation_type" "relation";
    match logicalId with
    | Completed logicalId =>
        let sourceId := table_get logicalToId (field relationship "source_id") in
        let targetId := table_get logicalToId (field relationship "target_id") in
        if String.eqb (str_or sourceId "") "" || String.eqb (str_or targetId "") ""
        then mret (Completed tt)
        else
          match logicalId,
                string_field (field relationship "relation_type") "RELATED_TO",
                bag_field (field relationship "attributes"),
                string_field (field relationship "created_at") now with
          | JsString logicalId, Some relationType, Some attributes, Some createdAt =>
              let edgeId := buildNodeId logicalId classification in
              let edge :=
                mkEdge edgeId logicalId classification
                       (str_or sourceId "") (str_or targetId "")
                       relationType attributes createdAt in
              _ ← modify_store (with_edges (fun edges => (edges ++ [edge])%list));
              mret (Completed tt)
          | _, _, _, _ => mret OffType
          end
    | TypeError => mret TypeError
    | OffType => mret OffType
    end.

(** [now] is the reading of the clock taken by [new Date()].  The level
    is cleared before the payload is looked at. *)
Definition importLevelData (now : Z) (level : string) (payload : JsValue)
  : Async (Ending unit) :=
  let classification := normalizeLevel level in
  _ ← modify_store (with_nodes (removeLevel classification));
  _ ← modify_store (with_edges (removeLevel classification));
  let now := Date_toISOString now in
  if is_nullish payload then mret TypeError
  else
    let entityItems := items_of (field payload "entities") in
    let relationshipItems := items_of (field payload "relationships") in
    imported ← forEachE (importEntity classification now) entityItems ∅;
    match imported with
    | Completed logicalToId =>
        forEachE (importRelationship classification now logicalToId)
                 relationshipItems tt
    | TypeError => mret TypeError
    | OffType => mret OffType
    end.

(** *** Editing users and the graph, reading the audit trail *)

(** How a call that can throw ends: [Thrown message] stands for
    [throw new Error(message)]. *)
Inductive Outcome (A : Type) : Type :=
| Returned (value : A)
| Thrown (message : string).

#[global] Arguments Returned {A} value.
#[global] Arguments Thrown {A} message.

(** [Partial<User>]: a field is [None] when the object does not carry
    it. *)
Record UserUpdates : Type := mkUpdates {
  new_id : option string;
  new_username : option string;
  new_clearance_level : option string;
  new_attributes : option (gmap string JsValue);
  new_query_budget : option Z;
  new_budget_reset_at : option string
}.

(** [Object.assign(user, updates)] *)
Definition assign (updates : UserUpdates) (user : User) : User :=
  mkUser (default (user_id user) (new_id updates))
         (default (username user) (new_username updates))
         (default (clearance_level user) (new_clearance_level updates))
         (default (user_attributes user) (new_attributes updates))
         (default (query_budget user) (new_query_budget updates))
         (default (budget_reset_at user) (new_budget_reset_at updates)).

Definition updateUser (id : string) (updates : UserUpdates) : Async (option User) :=
  st ← get_store;
  let p := fun u => String.eqb (user_id u) id in
  match List.find p (usersStore st) with
  | None => mret None
  | Some user =>
      _ ← modify_store (with_users (modify_first p (assign updates)));
      mret (Some (clone (assign updates user)))
  end.

(** [items.slice(0, limit)] for an integer [limit]: a negative [limit]
    counts from the end. *)
Definition slice0 {A : Type} (limit : Z) (items : list A) : list A :=
  if Z.ltb limit 0
  then take (Z.to_nat (Z.of_nat (length items) + limit)) items
  else take (Z.to_nat limit) items.

(** [limit] defaults to 20. *)
Definition getAuditLogsForUser (userId : string) (limit : option Z)
  : Async (list AuditLog) :=
  st ← get_store;
  mret (clone (slice0 (default 20 limit)
                 (List.filter (fun log => String.eqb (audit_user_id log) userId)
                              (auditLogStore st)))).

(** The argument of [createNode]. *)
Record NodeInput : Type := mkNodeInput {
  ni_name : string;
  ni_entity_type : string;
  ni_classification_level : string;
  ni_attributes : option (gmap string JsValue);
  ni_logical_id : option string
}.

(** [now] is the reading of the clock taken by [new Date()].  The
    random suffix is drawn only when no logical id is given. *)
Definition createNode (now : Z) (input : NodeInput) : Async (Outcome GraphNode) :=
  let classification := normalizeLevel (ni_classification_level input) in
  logicalId ←
    (if String.eqb (str_or (trim <$> ni_logical_id input) "") ""
     then
       suffix ← randomSuffix;
       mret (slugify (ni_name input) ++ "_" ++ suffix)
     else mret (str_or (trim <$> ni_logical_id input) ""));
  let nodeId := buildNodeId logicalId classification in
  st ← get_store;
  if existsb (fun node => String.eqb (node_id node) nodeId) (nodesStore st)
  then mret (Thrown "Вершина с таким идентификатором уже существует")
  else
    let timestamp := Date_toISOString now in
    let node :=
      mkNode nodeId logicalId classification (ni_entity_type input) (ni_name input)
             (default ∅ (ni_attributes input)) timestamp timestamp in
    _ ← modify_store (with_nodes (fun nodes => (nodes ++ [node])%list));
    mret (Returned (clone node)).

(** [items.findIndex(p)], [None] for [-1]. *)
Fixpoint findIndex {A : Type} (p : A → bool) (items : list A) : option nat :=
  match items with
  | [] => None
  | item :: rest => if p item then Some O else S <$> findIndex p rest
  end.

(** [for (let i = n - 1; i >= 0; i -= 1) { if (p(items[i])) items.splice(i, 1); }] *)
Fixpoint spliceFrom {A : Type} (p : A → bool) (n : nat) (items : list A) : list A :=
  match n with
  | O => items
  | S i =>
      spliceFrom p i
        match items !! i with
        | Some item => if p item then delete i items else items
        | None => items
        end
  end.

(** The loop started at [n = items.length]. *)
Definition spliceWhere {A : Type} (p : A → bool) (items : list A) : list A :=
  spliceFrom p (length items) items.

Definition deleteNode (logicalId level : string) : Async (Outcome unit) :=
  let classification := normalizeLevel level in
  let nodeId := buildNodeId logicalId classification in
  st ← get_store;
  match findIndex (fun node => String.eqb (node_id node) nodeId) (nodesStore st) with
  | None => mret (Thrown "Вершина не найдена")
  | Some nodeIndex =>
      _ ← modify_store (with_nodes (delete nodeIndex));
      _ ← modify_store
            (with_edges
               (spliceWhere
                  (fun edge => String.eqb (source_node_id edge) nodeId
                               || String.eqb (target_node_id edge) nodeId)));
      mret (Returned tt)
  end.

(** The argument of [createEdge]. *)
Record EdgeInput : Type := mkEdgeInput {
  ei_source_node_id : string;
  ei_target_node_id : string;
  ei_relation_type : string;
  ei_classification_level : string;
  ei_attributes : option (gmap string JsValue);
  ei_logical_id : option string
}.

Definition createEdge (now : Z) (input : EdgeInput) : Async (Outcome GraphEdge) :=
  let classification := normalizeLevel (ei_classification_level input) in
  st ← get_store;
  let sourceNode :=
    List.find (fun node => String.eqb (node_id node) (ei_source_node_id input))
              (nodesStore st) in
  let targetNode :=
    List.find (fun node => String.eqb (node_id node) (ei_target_node_id input))
              (nodesStore st) in
  match sourceNode, targetNode with
  | Some sourceNode, Some targetNode =>
      if negb (String.eqb (node_classification_level sourceNode) classification)
         || negb (String.eqb (node_classification_level targetNode) classification)
      then mret (Thrown "Связи можно создавать только между вершинами одного уровня")
      else
        logicalId ←
          (if String.eqb (str_or (trim <$> ei_logical_id input) "") ""
           then
             suffix ← randomSuffix;
             mret (slugify (ei_relation_type input) ++ "_" ++ suffix)
           else mret (str_or (trim <$> ei_logical_id input) ""));
        let edgeId := buildNodeId logicalId classification in
        st ← get_store;
        if existsb (fun edge => String.eqb (edge_id edge) edgeId) (edgesStore st)
        then mret (Thrown "Связь с таким идентификатором уже существует")
        else
          let edge :=
            mkEdge edgeId logicalId classification
                   (ei_source_node_id input) (ei_target_node_id input)
                   (ei_relation_type input) (default ∅ (ei_attributes input))
                   (Date_toISOString now) in
          _ ← modify_store (with_edges (fun edges => (edges ++ [edge])%list));
          mret (Returned (clone edge))
  | _, _ => mret (Thrown "Указанные вершины не найдены")
  end.

Definition deleteEdge (edgeId : string) : Async (Outcome unit) :=
  st ← get_store;
  match findIndex (fun edge => String.eqb (edge_id edge) edgeId) (edgesStore st) with
  | None => mret (Thrown "Связь не найдена")
  | Some index =>
      _ ← modify_store (with_edges (delete index));
      mret (Returned tt)
  end.

End WithHost.

End DataStore.

Export DataStore.

(** ** lib/queryEngine.ts *)

Module QueryEngine.

(** [DATA_REFERENCE_TIME = new Date('2024-05-12T10:00:00Z')], as a time
    value. *)
Definition DATA_REFERENCE_TIME : Z := 1715508000000.

(** [AUDIT_DENIAL_CODES] *)
Definition BUDGET_EXHAUSTED : string := "BUDGET_EXHAUSTED".
Definition K_ANONYMITY : string := "K_ANONYMITY".

(** ['>' | '>=' | '<' | '<=' | '=' | '!='], kept as the matched text. *)
Definition ComparisonOperator : Type := string.

Record ComparisonFilter : Type := mkComparison {
  cmp_attribute : string;
  cmp_operator : ComparisonOperator;
  cmp_value : JsValue;  (* number | string *)
  cmp_raw : string;
  cmp_display : string
}.

Inductive Intent : Type := intent_count | intent_list | intent_timeline.

Inductive LogicOperator : Type := AND | OR.

(** Both bounds are results of [Date.prototype.getTime]. *)
Record TimeRange : Type := mkTimeRange {
  range_start : option Z;
  range_end : option Z;
  range_raw : string
}.

Record GeoFilter : Type := mkGeoFilter {
  geo_lat : float;
  geo_lon : float;
  geo_radiusKm : float;
  geo_raw : string
}.

Record Recognized : Type := mkRecognized {
  rec_text : string;
  rec_type : string
}.

Record ParsedQuery : Type := mkParsed {
  intent : Intent;
  entityType : option string;
  entityLabel : option string;
  sectorFilters : list string;
  timeWindowHours : option float;
  timeWindowRaw : option string;
  timeRange : option TimeRange;
  statusFilters : list string;
  categoryFilters : list string;
  levelFilter : option string;
  logicOperator : LogicOperator;
  geoFilter : option GeoFilter;
  limit : option float;
  comparisons : list ComparisonFilter;
  tokens : list string;
  tips : list string;
  recognized : list Recognized;
  warnings : list string
}.

Record QueryExplanation : Type := mkExplanation {
  exp_raw : string;
  exp_entity : option string;
  exp_filters : list string;
  exp_comparisons : list string;
  exp_timeWindow : option string;
  exp_timeRange : option string;
  exp_geo : option string;
  exp_limit : option float;
  exp_tips : list string;
  exp_warnings : list string;
  exp_intent : Intent;
  exp_logic : LogicOperator;
  exp_recognized : list Recognized
}.

(** The [data] of a result: the node records, or the aggregate
    [{ count, message }]. *)
Inductive ResultData : Type :=
| DataNodes (records : list GraphNode)
| DataAggregate (count : Z) (message : string).

Record QueryResult : Type := mkResult {
  success : bool;
  data : option ResultData;
  aggregated : option bool;
  error : option string;
  denialReason : option string;
  explanation : option QueryExplanation
}.

Record EntityKeywords : Type := mkEntityKeywords {
  keywords : list string;
  ek_entityType : string;
  ek_label : string;
  ek_category : option string;
  ek_intent : option Intent;
  ek_tips : option (list string)
}.

Definition ENTITY_KEYWORDS : list EntityKeywords := [
  mkEntityKeywords ["беспилотн"; "дрон"; "uav"; "бпла"] "Target" "Беспилотники"
    (Some "uav") None None;
  mkEntityKeywords ["цель"; "target"; "object"] "Target" "Воздушные цели"
    None None None;
  mkEntityKeywords ["сенсор"; "sensor"; "радар"; "радиолок"] "Sensor" "Сенсоры"
    None None (Some ["Можно добавить фильтр статуса: «сенсоры offline»."]);
  mkEntityKeywords ["событи"; "event"; "инцидент"; "операция"] "Event" "События"
    None (Some intent_timeline)
    (Some ["Используйте временной диапазон: «последние 30 минут»."]);
  mkEntityKeywords ["сектор"; "sector"] "Sector" "Сектора"
    None None
    (Some ["Уточните, что нужно: цели, сенсоры или события внутри сектора."])
].

(** Tables read with [Object.entries]: the entries in insertion order. *)
Definition STATUS_KEYWORDS : list (string * string) := [
  ("offline", "offline"); ("недоступн", "offline"); ("неработающ", "offline");
  ("обесточен", "offline"); ("online", "online"); ("работоспособн", "online");
  ("вкл", "online"); ("активн", "online")
].

Definition CATEGORY_KEYWORDS : list (string * string) := [
  ("uav", "uav"); ("бпла", "uav"); ("helikopter", "helicopter");
  ("вертолет", "helicopter"); ("helicopter", "helicopter");
  ("unknown", "unknown"); ("group", "airgroup")
].

Definition LEVEL_KEYWORDS : list (string * string) := [
  ("секрет", "SECRET"); ("secret", "SECRET"); ("уровень h", "SECRET");
  ("уровень m", "CONFIDENTIAL"); ("confid", "CONFIDENTIAL"); ("секретн", "SECRET");
  ("dsp", "CONFIDENTIAL"); ("confidential", "CONFIDENTIAL");
  ("unclassified", "UNCLASSIFIED"); ("уровень l", "UNCLASSIFIED");
  ("общедоступн", "UNCLASSIFIED")
].

Definition ATTRIBUTE_ALIASES : list (string * string) := [
  ("скорост", "speed"); ("speed", "speed"); ("heading", "heading");
  ("курс", "heading"); ("высот", "altitude"); ("altitude", "altitude");
  ("угроз", "threat_level"); ("threat", "threat_level"); ("status", "status");
  ("статус", "status"); ("операцион", "operational"); ("distance", "distance")
].

(** The own keys of the object literal [THREAT_ORDER]. *)
Definition THREAT_ORDER (key : string) : option Z :=
  if String.eqb key "low" then Some 1
  else if String.eqb key "medium" then Some 2
  else if String.eqb key "elevated" then Some 3
  else if String.eqb key "high" then Some 4
  else if String.eqb key "critical" then Some 5
  else None.

(** [set.add(x)] on a [Set<string>] read back in insertion order. *)
Definition set_add (x : string) (s : list string) : list string :=
  if existsb (String.eqb x) s then s else (s ++ [x])%list.

(** [m[i]] of a match. *)
Definition group (i : nat) (m : list string) : string := nth i m "".

Record DetectedEntity : Type := mkDetected {
  det_entityType : option string;
  det_entityLabel : option string;
  det_category : option string;
  det_intent : Intent;
  det_tips : list string
}.

Fixpoint detectEntityIn (table : list EntityKeywords) (lowerQuery : string)
  : DetectedEntity :=
  match table with
  | entry :: rest =>
      if existsb (fun keyword => str_includes keyword lowerQuery) (keywords entry)
      then mkDetected (Some (ek_entityType entry)) (Some (ek_label entry))
                      (ek_category entry)
                      (default intent_list (ek_intent entry))
                      (default [] (ek_tips entry))
      else detectEntityIn rest lowerQuery
  | [] => mkDetected None None None intent_list []
  end.

Definition detectEntity (lowerQuery : string) : DetectedEntity :=
  detectEntityIn ENTITY_KEYWORDS lowerQuery.

(** What the extractors of sets return: [{ values, recognized }]. *)
Record Extracted : Type := mkExtracted {
  values : list string;
  ext_recognized : list string
}.

Definition extractLevel (lowerQuery : string) : option string :=
  snd <$> List.find (fun kv => str_includes (fst kv) lowerQuery) LEVEL_KEYWORDS.

(** The [forEach] over a keyword table shared by the status and the
    category extractor. *)
Definition extractKeywords (table : list (string * string)) (lowerQuery : string)
  : Extracted :=
  foldl
    (fun acc kv =>
       if str_includes (fst kv) lowerQuery
       then mkExtracted (set_add (snd kv) (values acc))
                        (ext_recognized acc ++ [fst kv])%list
       else acc)
    (mkExtracted [] []) table.

Definition extractStatusFilters (lowerQuery : string) : Extracted :=
  extractKeywords STATUS_KEYWORDS lowerQuery.

(** The own keys of the object literal [CLEARANCE_ORDER]. *)
Definition CLEARANCE_ORDER (level : string) : option Z :=
  if String.eqb level "UNCLASSIFIED" then Some 0
  else if String.eqb level "CONFIDENTIAL" then Some 1
  else if String.eqb level "SECRET" then Some 2
  else None.

Definition LEVEL_SEQUENCE : list string := ["UNCLASSIFIED"; "CONFIDENTIAL"; "SECRET"].

(** [CLEARANCE_ORDER[level] ?? 0] *)
Definition order_of `{Host} (level : string) : TableValue :=
  nullish_zero (read_table CLEARANCE_ORDER level).

(** A [Map<string, V>] whose iteration order is read back
    ([Array.from(map.values())]): entries in the order their keys were
    first set; setting an existing key replaces its value in place. *)
Definition JsMap (V : Type) : Type := list (string * V).

Fixpoint jsmap_get {V : Type} (key : string) (m : JsMap V) : option V :=
  match m with
  | [] => None
  | (k, v) :: m' => if String.eqb k key then Some v else jsmap_get key m'
  end.

Fixpoint jsmap_set {V : Type} (key : string) (value : V) (m : JsMap V) : JsMap V :=
  match m with
  | [] => [(key, value)]
  | (k, v) :: m' =>
      if String.eqb k key then (k, value) :: m' else (k, v) :: jsmap_set key value m'
  end.

Definition jsmap_values {V : Type} (m : JsMap V) : list V := List.map snd m.

(** [array.includes(text)] *)
Definition includes (levels : list string) (level : string) : bool :=
  existsb (String.eqb level) levels.

(** [set.has(text)] *)
Definition has (s : gset string) (x : string) : bool := bool_decide (x ∈ s).

(** ['virtual' | 'level' | 'overlay'] *)
Inductive ViewMode : Type := mode_virtual | mode_level | mode_overlay.

Record GraphDataOptions : Type := mkOptions {
  mode : ViewMode;
  opt_level : option string;
  overlayLevels : option (list string)
}.

Record GraphData : Type := mkGraphData {
  nodes : list GraphNode;
  edges : list GraphEdge
}.

Definition set_endpoints (source target : string) (e : GraphEdge) : GraphEdge :=
  mkEdge (edge_id e) (edge_logical_id e) (edge_classification_level e)
         source target (relation_type e) (edge_attributes e) (edge_created_at e).

(** The body of [accessibleNodes.forEach] in virtual mode. *)
Definition chooseNode `{Host} (nodeChoice : JsMap GraphNode) (node : GraphNode)
  : JsMap GraphNode :=
  let current := jsmap_get (node_logical_id node) nodeChoice in
  let rank := order_of (node_classification_level node) in
  match current with
  | None => jsmap_set (node_logical_id node) node nodeChoice
  | Some current =>
      if greater rank (order_of (node_classification_level current))
      then jsmap_set (node_logical_id node) node nodeChoice
      else nodeChoice
  end.

(** The body of [accessibleEdges.forEach] in virtual mode. *)
Definition chooseEdge `{Host} (nodeById logicalToNode : gmap string GraphNode)
    (edgesMap : JsMap GraphEdge) (edge : GraphEdge) : JsMap GraphEdge :=
  match nodeById !! source_node_id edge, nodeById !! target_node_id edge with
  | Some sourceOriginal, Some targetOriginal =>
      match logicalToNode !! node_logical_id sourceOriginal,
            logicalToNode !! node_logical_id targetOriginal with
      | Some bestSource, Some bestTarget =>
          let key :=
            if String.eqb (edge_logical_id edge) ""
            then node_logical_id bestSource ++ "::" ++ node_logical_id bestTarget
                 ++ "::" ++ relation_type edge
            else edge_logical_id edge in
          let candidate := set_endpoints (node_id bestSource) (node_id bestTarget) edge in
          match jsmap_get key edgesMap with
          | None => jsmap_set key candidate edgesMap
          | Some existing =>
              if greater (order_of (edge_classification_level candidate))
                         (order_of (edge_classification_level existing))
              then jsmap_set key candidate edgesMap
              else edgesMap
          end
      | _, _ => edgesMap
      end
  | _, _ => edgesMap
  end.

Section WithHost.
Context `{Host}.

(** *** The parser *)

Definition normalizeCategory (value : string) : option string :=
  if String.eqb value "" then None
  else
    let lower := toLowerCase value in
    match List.find (fun kv => str_includes (fst kv) lower) CATEGORY_KEYWORDS with
    | Some kv => Some (snd kv)
    | None => Some lower
    end.

(** One [while ((match = regex.exec(lowerQuery)) !== null)] loop of
    [extractSectorFilters]. *)
Definition collectSectors (matches : list (list string)) (acc : Extracted)
  : Extracted :=
  foldl
    (fun acc m =>
       let sector := toUpperCase (group 1 m) in
       mkExtracted (set_add sector (values acc))
                   (ext_recognized acc ++ [group 0 m])%list)
    acc matches.

Definition extractSectorFilters (lowerQuery : string) : Extracted :=
  let russian := RegExp_matches "сектор[е]?\s+([a-zа-я])" "i" lowerQuery in
  let english := RegExp_matches "sector\s+([a-z])" "i" lowerQuery in
  collectSectors english (collectSectors russian (mkExtracted [] [])).

Definition extractCategoryFilters (lowerQuery : string) : Extracted :=
  let found := extractKeywords CATEGORY_KEYWORDS lowerQuery in
  match RegExp_matches "категор(?:ия|ии)?\s+([a-zа-я0-9]+)" "iu" lowerQuery with
  | m :: _ =>
      match normalizeCategory (group 1 m) with
      | Some normalized =>
          if String.eqb normalized "" then found
          else mkExtracted (set_add normalized (values found))
                           (ext_recognized found ++ [group 1 m])%list
      | None => found
      end
  | [] => found
  end.

Record TimeWindow : Type := mkTimeWindow {
  tw_hours : option float;
  tw_raw : option string
}.

Definition TIME_WINDOW_PATTERNS : list (string * string) := [
  ("последн(?:ие|их)?\s+(\d+)\s+(минут|мин|minutes?|час(?:а|ов)?|hours?|дн(?:я|ей)?|days?)",
   "u");
  ("за\s+(\d+)\s+(минут|мин|minutes?|час(?:а|ов)?|hours?|дн(?:я|ей)?|days?)", "u");
  ("within\s+(\d+)\s+(minutes?|hours?|days?)", "iu")
].

Fixpoint firstTimeWindow (patterns : list (string * string)) (lowerQuery : string)
  : option TimeWindow :=
  match patterns with
  | (source, flags) :: rest =>
      match RegExp_matches source flags lowerQuery with
      | m :: _ =>
          let value := Number_of_string (group 1 m) in
          let unit := toLowerCase (group 2 m) in
          let hours :=
            if existsb (fun token => str_includes token unit)
                       ["минут"; "мин"; "minute"; "minutes"]
            then (value / 60)%float
            else if existsb (fun token => str_includes token unit)
                            ["дн"; "day"; "days"]
            then (value * 24)%float
            else value in
          Some (mkTimeWindow (Some hours) (Some (group 0 m)))
      | [] => firstTimeWindow rest lowerQuery
      end
  | [] => None
  end.

Definition extractTimeWindow (lowerQuery : string) : TimeWindow :=
  match firstTimeWindow TIME_WINDOW_PATTERNS lowerQuery with
  | Some window => window
  | None =>
      if str_includes "прямо сейчас" lowerQuery || str_includes "real-time" lowerQuery
      then mkTimeWindow (Some 0.25%float) (Some "прямо сейчас")
      else mkTimeWindow None None
  end.

(** [null] is the outer [None]; the inner option is the time value. *)
Definition parseTimeToReference (timeHHMM : string) : option (option Z) :=
  match split_colon timeHHMM with
  | [h; m] =>
      let hours := Number_of_string h in
      let minutes := Number_of_string m in
      if is_nan hours || is_nan minutes then None
      else Some (Date_setHours DATA_REFERENCE_TIME [hours; minutes; 0%float; 0%float])
  | _ => None
  end.

(** [a < b] on two numbers, false when either is [NaN]. *)
Definition time_ltb (a b : option Z) : bool :=
  match a, b with
  | Some x, Some y => Z.ltb x y
  | _, _ => false
  end.

Definition time_leb (a b : option Z) : bool :=
  match a, b with
  | Some x, Some y => Z.leb x y
  | _, _ => false
  end.

Definition extractTimeRange (lowerQuery : string) : option TimeRange :=
  let first :=
    RegExp_matches "(?:с|from)\s+(\d{1,2}:\d{2})\s+(?:до|по|to)\s+(\d{1,2}:\d{2})" "u"
                   lowerQuery in
  let second :=
    RegExp_matches "между\s+(\d{1,2}:\d{2})\s+(?:и|and)\s+(\d{1,2}:\d{2})" "u"
                   lowerQuery in
  match head first ∪ head second with
  | None => None
  | Some m =>
      match parseTimeToReference (group 1 m), parseTimeToReference (group 2 m) with
      | Some start, Some end_ =>
          let adjustedEnd :=
            if time_ltb end_ start then (fun t => t + 24 * 60 * 60 * 1000) <$> end_
            else end_ in
          Some (mkTimeRange start adjustedEnd (group 0 m))
      | _, _ => None
      end
  end.

Definition extractLimit (lowerQuery : string) : option float :=
  match RegExp_matches "(первые|показать|top|последние)\s+(\d+)" "i" lowerQuery with
  | limitMatch :: _ => Some (Number_of_string (group 2 limitMatch))
  | [] => None
  end.

Definition normalizeAttributeAlias (alias : string) : option string :=
  let lower := toLowerCase alias in
  snd <$> List.find (fun entry => str_includes (fst entry) lower) ATTRIBUTE_ALIASES.

Definition extractComparisons (lowerQuery : string) : list ComparisonFilter :=
  foldl
    (fun comparisons m =>
       match normalizeAttributeAlias (group 1 m) with
       | None => comparisons
       | Some attribute =>
           let operator := group 2 m in
           let rawValue := replace_first_comma (group 3 m) in
           let value :=
             if is_nan (Number_of_string rawValue)
             then JsString (toLowerCase rawValue)
             else JsNumber (Number_of_string rawValue) in
           (comparisons ++
              [mkComparison attribute operator value (group 0 m)
                 (group 1 m ++ " " ++ operator ++ " " ++ group 3 m)])%list
       end)
    []
    (RegExp_matches
       "([a-zа-яё_]+)\s*(>=|<=|>|<|=|!=)\s*([0-9]+(?:[.,][0-9]+)?|[a-zа-яё]+)" "iu"
       lowerQuery).

Definition extractGeoFilter (query : string) : option GeoFilter :=
  let normalized := toLowerCase query in
  if negb (str_includes "координат" normalized)
     && negb (str_includes "lat" normalized)
     && negb (str_includes "широт" normalized)
  then None
  else
    let bare :=
      RegExp_matches "([-+]?\d+(?:[.,]\d+)?)\s*[;,]\s*([-+]?\d+(?:[.,]\d+)?)" "" query in
    let labelled :=
      RegExp_matches
        "lat(?:itude)?\s*[:=]?\s*([-+]?\d+(?:[.,]\d+)?).*(?:lon|long|longitude)\s*[:=]?\s*([-+]?\d+(?:[.,]\d+)?)"
        "i" query in
    match head bare ∪ head labelled with
    | None => None
    | Some coordMatch =>
        let lat := Number_of_string (replace_first_comma (group 1 coordMatch)) in
        let lon := Number_of_string (replace_first_comma (group 2 coordMatch)) in
        if is_nan lat || is_nan lon then None
        else
          let radiusKm :=
            match RegExp_matches "радиус(?:е|а)?\s+(\d+(?:[.,]\d+)?)\s*(км|km)" ""
                                 normalized with
            | radiusMatch :: _ =>
                Number_of_string (replace_first_comma (group 1 radiusMatch))
            | [] => 10%float
            end in
          Some (mkGeoFilter lat lon (if is_nan radiusKm then 10%float else radiusKm)
                            (group 0 coordMatch))
    end.

(** [value] is truthy, for an optional string. *)
Definition present (value : option string) : bool :=
  negb (String.eqb (str_or value "") "").

(** [value] is truthy, for an optional number. *)
Definition nonzero (value : option float) : bool :=
  match value with
  | Some x => truthy (JsNumber x)
  | None => false
  end.

Definition tagged (type : string) (texts : list string) : list Recognized :=
  List.map (fun text => mkRecognized text type) texts.

Definition when {A : Type} (condition : bool) (items : list A) : list A :=
  if condition then items else [].

Definition parseNaturalLanguage (query : string) : option ParsedQuery :=
  let lowerQuery := toLowerCase query in
  let tokens :=
    List.filter (fun token => negb (String.eqb token ""))
                (RegExp_split "[\s,]+" "u" lowerQuery) in
  let detected := detectEntity lowerQuery in
  let entityType := det_entityType detected in
  let entityLabel := det_entityLabel detected in
  let entityCategory := det_category detected in
  let logicOperator :=
    if str_includes " или " lowerQuery || str_includes " or " lowerQuery
    then OR else AND in
  let sectorInfo := extractSectorFilters lowerQuery in
  let statusInfo := extractStatusFilters lowerQuery in
  let categoryInfo := extractCategoryFilters lowerQuery in
  let categoryValues :=
    if present entityCategory
    then set_add (str_or entityCategory "") (values categoryInfo)
    else values categoryInfo in
  let levelFilter := extractLevel lowerQuery in
  let window := extractTimeWindow lowerQuery in
  let timeRange := extractTimeRange lowerQuery in
  let geoFilter := extractGeoFilter query in
  let limit := extractLimit lowerQuery in
  let comparisons := extractComparisons lowerQuery in
  let recognized :=
    (when (present entityLabel) [mkRecognized (str_or entityLabel "") "entity"]
     ++ tagged "sector" (ext_recognized sectorInfo)
     ++ tagged "status" (ext_recognized statusInfo)
     ++ when (present entityCategory) [mkRecognized (str_or entityCategory "") "category"]
     ++ tagged "category" (ext_recognized categoryInfo)
     ++ when (present levelFilter) [mkRecognized (str_or levelFilter "") "level"]
     ++ when (present (tw_raw window)) [mkRecognized (str_or (tw_raw window) "") "time_window"]
     ++ match timeRange with
        | Some range => [mkRecognized (range_raw range) "time_range"]
        | None => []
        end
     ++ match geoFilter with
        | Some geo => [mkRecognized (geo_raw geo) "geo"]
        | None => []
        end
     ++ match limit with
        | Some n => [mkRecognized ("limit:" ++ Number_toString n)%string "limit"]
        | None => []
        end
     ++ tagged "comparison" (List.map cmp_raw comparisons))%list in
  let statusFilters := values statusInfo in
  let sectorFilters := values sectorInfo in
  if negb (present entityType)
     && (length categoryValues =? 0)%nat
     && (length statusFilters =? 0)%nat
     && (length comparisons =? 0)%nat
  then None
  else
    let warnings :=
      (when (negb (present entityType))
         ["Тип сущности не указан — будут возвращены все объекты, доступные по политике."]
       ++ when (match logicOperator with OR => true | AND => false end
                && (length statusFilters + length categoryValues <=? 1)%nat)
           ["Оператор «или» обнаружен, но условие одно — результат совпадает с обычным фильтром."]
       ++ when (match timeRange with Some _ => true | None => false end
                && nonzero (tw_hours window))
           ["Указаны и фиксированный диапазон времени, и скользящее окно. Применяется пересечение условий."])%list in
    let tips :=
      (det_tips detected
       ++ when (length sectorFilters =? 0)%nat
            ["Добавьте сектор для точности: «в секторе A»."]
       ++ when (negb (length statusFilters =? 0)%nat)
            ["Можно уточнить несколько статусов: offline, online, degraded."]
       ++ when (negb (length comparisons =? 0)%nat)
            ["Сравнения поддерживаются для числовых полей: скорость, курс."])%list in
    Some (mkParsed (det_intent detected) entityType entityLabel sectorFilters
                   (tw_hours window) (tw_raw window) timeRange statusFilters
                   categoryValues levelFilter logicOperator geoFilter limit
                   comparisons tokens tips recognized warnings).

(** *** Filters of the pipeline *)

(** A length or a time difference as a number. *)
Definition float_of_Z (z : Z) : float :=
  if Z.ltb z 0 then PrimFloat.opp (PrimFloat.of_uint63 (Uint63.of_Z (- z)))
  else PrimFloat.of_uint63 (Uint63.of_Z z).

Definition float_of_nat (n : nat) : float := float_of_Z (Z.of_nat n).

(** [node.attributes?.last_seen || node.attributes?.timestamp || ...] *)
Definition lastSeenOr (node : GraphNode) (fallback : JsValue) : JsValue :=
  or_else (or_else (Js.get (node_attributes node) "last_seen")
                   (Js.get (node_attributes node) "timestamp"))
          fallback.

Definition sectorOfNode (node : GraphNode) : string :=
  toUpperCase
    (js_toString
       (or_else (or_else (Js.get (node_attributes node) "sector")
                         (js_index0 (Js.get (node_attributes node) "sectors")))
                (JsString ""))).

Definition statusOfNode (node : GraphNode) : string :=
  toLowerCase
    (js_toString
       (or_else (or_else (Js.get (node_attributes node) "status")
                         (Js.get (node_attributes node) "operational"))
                (JsString ""))).

Definition categoryOfNode (node : GraphNode) : option string :=
  normalizeCategory
    (js_toString
       (or_else (or_else (Js.get (node_attributes node) "category")
                         (Js.get (node_attributes node) "type"))
                (JsString ""))).

Fixpoint firstTimestamp (candidates : list JsValue) : option Z :=
  match candidates with
  | candidate :: rest =>
      if negb (truthy candidate) then firstTimestamp rest
      else match date_parse_value candidate with
           | Some timestamp => Some timestamp
           | None => firstTimestamp rest
           end
  | [] => None
  end.

Definition getNodeTimestamp (node : GraphNode) : option Z :=
  firstTimestamp
    [Js.get (node_attributes node) "last_seen";
     Js.get (node_attributes node) "timestamp";
     JsString (node_updated_at node);
     JsString (node_created_at node)].

Definition extractNodeCoordinates (node : GraphNode) : option (float * float) :=
  match Js.get (node_attributes node) "coordinates" with
  | JsArray (first :: second :: _) =>
      let lat := js_toNumber first in
      let lon := js_toNumber second in
      if negb (is_nan lat) && negb (is_nan lon) then Some (lat, lon) else None
  | JsString coordinates =>
      match RegExp_matches "([-+]?\d+(?:[.,]\d+)?)\s*,\s*([-+]?\d+(?:[.,]\d+)?)" ""
                           coordinates with
      | m :: _ =>
          let lat := Number_of_string (replace_first_comma (group 1 m)) in
          let lon := Number_of_string (replace_first_comma (group 2 m)) in
          if negb (is_nan lat) && negb (is_nan lon) then Some (lat, lon) else None
      | [] => None
      end
  | _ => None
  end.

(** [Math.PI] *)
Definition Math_PI : float := 0x1.921fb54442d18p+1%float.

Definition calculateDistanceKm (lat1 lon1 lat2 lon2 : float) : float :=
  let toRad := fun value : float => ((value * Math_PI) / 180)%float in
  let R := 6371%float in
  let dLat := toRad (lat2 - lat1)%float in
  let dLon := toRad (lon2 - lon1)%float in
  let a :=
    (Math_pow (Math_sin (dLat / 2)) 2
     + Math_cos (toRad lat1) * Math_cos (toRad lat2)
       * Math_pow (Math_sin (dLon / 2)) 2)%float in
  let c := (2 * Math_atan2 (PrimFloat.sqrt a) (PrimFloat.sqrt (1 - a)))%float in
  (R * c)%float.

Definition compareValues (lhs rhs : JsValue) (operator : ComparisonOperator) : bool :=
  match lhs with
  | JsUndefined | JsNull => false
  | _ =>
      match rhs with
      | JsNumber rhs =>
          let lhsNumber :=
            match lhs with JsNumber x => x | _ => js_toNumber lhs end in
          if is_nan lhsNumber then false
          else if String.eqb operator ">" then (rhs <? lhsNumber)%float
          else if String.eqb operator ">=" then (rhs <=? lhsNumber)%float
          else if String.eqb operator "<" then (lhsNumber <? rhs)%float
          else if String.eqb operator "<=" then (lhsNumber <=? rhs)%float
          else if String.eqb operator "=" then (lhsNumber =? rhs)%float
          else if String.eqb operator "!=" then negb (lhsNumber =? rhs)%float
          else false
      | _ =>
          let lhsString := toLowerCase (js_toString lhs) in
          let rhsString := toLowerCase (js_toString rhs) in
          if String.eqb lhsString rhsString && String.eqb operator "=" then true
          else if String.eqb operator "!=" then negb (String.eqb lhsString rhsString)
          else
            let lhsThreat := read_table THREAT_ORDER lhsString in
            let rhsThreat := read_table THREAT_ORDER rhsString in
            if table_truthy lhsThreat && table_truthy rhsThreat then
              if String.eqb operator ">" then greater lhsThreat rhsThreat
              else if String.eqb operator ">=" then greater_eq lhsThreat rhsThreat
              else if String.eqb operator "<" then less lhsThreat rhsThreat
              else if String.eqb operator "<=" then less_eq lhsThreat rhsThreat
              else false
            else
              if String.eqb operator ">" then String.ltb rhsString lhsString
              else if String.eqb operator ">=" then String.leb rhsString lhsString
              else if String.eqb operator "<" then String.ltb lhsString rhsString
              else if String.eqb operator "<=" then String.leb lhsString rhsString
              else if String.eqb operator "=" then String.eqb lhsString rhsString
              else false
      end
  end.

Definition checkComparisons (node : GraphNode) (comparisons : list ComparisonFilter)
  : bool :=
  forallb
    (fun comparison =>
       let value :=
         nullish_else
           (nullish_else
              (Js.get (node_attributes node) (cmp_attribute comparison))
              (Js.get (node_attributes node) (toUpperCase (cmp_attribute comparison))))
           (Js.get (node_attributes node) (toLowerCase (cmp_attribute comparison))) in
       compareValues value (cmp_value comparison) (cmp_operator comparison))
    comparisons.

(** [sortable.slice(0, limit)] for a positive [limit] below the length:
    as many elements as there are positions [i] with [i <= limit]. *)
Definition sliceTo {A : Type} (limit : float) (items : list A) : list A :=
  take
    (length (List.filter (fun i => (float_of_nat i <=? limit)%float)
                         (seq 1 (length items))))
    items.

Definition takeWithPreferredOrder (nodes : list GraphNode) (limit : float)
  : list GraphNode :=
  if (float_of_nat (length nodes) <=? limit)%float then nodes
  else
    let time := fun node =>
      date_parse_value (lastSeenOr node
        (or_else (JsString (node_updated_at node)) (JsString (node_created_at node)))) in
    let sortable :=
      Array_sort GraphNode
        (fun a b =>
           match time a, time b with
           | Some timeA, Some timeB => float_of_Z (timeB - timeA)
           | _, _ => NaN
           end)
        nodes in
    sliceTo limit sortable.

(** The bodies of the arrow functions passed to [filteredNodes.filter],
    one per filter of the parsed query. *)
Definition sectorMatches (sectorSet : list string) (node : GraphNode) : bool :=
  let candidate := sectorOfNode node in
  negb (String.eqb candidate "") && existsb (String.eqb candidate) sectorSet.

Definition levelMatches (levelFilter : string) (node : GraphNode) : bool :=
  String.eqb (node_classification_level node) levelFilter.

Definition seenSince (cutoffTime : option Z) (node : GraphNode) : bool :=
  let lastSeen := lastSeenOr node (JsString (node_updated_at node)) in
  truthy lastSeen && time_leb cutoffTime (date_of_value lastSeen).

Definition inTimeRange (range : TimeRange) (node : GraphNode) : bool :=
  match getNodeTimestamp node with
  | None => false
  | Some timestamp =>
      time_leb (range_start range) (Some timestamp)
      && time_leb (Some timestamp) (range_end range)
  end.

Definition statusMatches (statusSet : list string) (node : GraphNode) : bool :=
  let status := statusOfNode node in
  if String.eqb status "" then false
  else existsb (fun value => String.eqb status value) statusSet.

Definition categoryMatches (categorySet : list string) (node : GraphNode) : bool :=
  let category := categoryOfNode node in
  if negb (present category) then false
  else existsb (fun value => String.eqb (str_or category "") value) categorySet.

Definition withinRadius (geo : GeoFilter) (node : GraphNode) : bool :=
  match extractNodeCoordinates node with
  | None => false
  | Some (lat, lon) =>
      let distance := calculateDistanceKm (geo_lat geo) (geo_lon geo) lat lon in
      (distance <=? geo_radiusKm geo)%float
  end.

(** [cutoffTime] of the relative time window. *)
Definition windowCutoff (hours : float) : option Z :=
  Date_setHours DATA_REFERENCE_TIME [(Date_getHours DATA_REFERENCE_TIME - hours)%float].

(** The successive assignments to [filteredNodes], from the nodes of the
    store to the set that is counted and returned. *)
Definition filterNodes (user : User) (parsedQuery : ParsedQuery)
    (allNodes : list GraphNode) : list GraphNode :=
  let nodes :=
    if present (entityType parsedQuery)
    then List.filter
           (fun node => String.eqb (entity_type node)
                                   (str_or (entityType parsedQuery) ""))
           allNodes
    else allNodes in
  let accessibleNodes := filterAccessibleNodes user nodes in
  let filteredNodes := accessibleNodes in
  let filteredNodes :=
    if negb (length (sectorFilters parsedQuery) =? 0)%nat then
      let sectorSet := List.map toUpperCase (sectorFilters parsedQuery) in
      List.filter (sectorMatches sectorSet) filteredNodes
    else filteredNodes in
  let filteredNodes :=
    if present (levelFilter parsedQuery) then
      List.filter (levelMatches (str_or (levelFilter parsedQuery) "")) filteredNodes
    else filteredNodes in
  let filteredNodes :=
    match timeWindowHours parsedQuery with
    | Some hours =>
        if truthy (JsNumber hours) && (0 <? hours)%float then
          let cutoffTime := windowCutoff hours in
          List.filter (seenSince cutoffTime) filteredNodes
        else filteredNodes
    | None => filteredNodes
    end in
  let filteredNodes :=
    match timeRange parsedQuery with
    | Some range => List.filter (inTimeRange range) filteredNodes
    | None => filteredNodes
    end in
  let filteredNodes :=
    if negb (length (statusFilters parsedQuery) =? 0)%nat then
      let statusSet := statusFilters parsedQuery in
      List.filter (statusMatches statusSet) filteredNodes
    else filteredNodes in
  let filteredNodes :=
    if negb (length (categoryFilters parsedQuery) =? 0)%nat then
      let categorySet := categoryFilters parsedQuery in
      List.filter (categoryMatches categorySet) filteredNodes
    else filteredNodes in
  let filteredNodes :=
    match geoFilter parsedQuery with
    | Some geo => List.filter (withinRadius geo) filteredNodes
    | None => filteredNodes
    end in
  let filteredNodes :=
    if negb (length (comparisons parsedQuery) =? 0)%nat then
      List.filter (fun node => checkComparisons node (comparisons parsedQuery))
                  filteredNodes
    else filteredNodes in
  match limit parsedQuery with
  | Some n =>
      if truthy (JsNumber n) && (0 <? n)%float
      then takeWithPreferredOrder filteredNodes n
      else filteredNodes
  | None => filteredNodes
  end.

(** *** The pipeline *)

(** [Array.from(new Set(items))] *)
Definition dedupe (items : list string) : list string :=
  foldl (fun seen item => set_add item seen) [] items.

(** [new Date(t).toLocaleTimeString()] of a time value or [NaN]. *)
Definition localeTime (t : option Z) : string :=
  match t with
  | Some ms => Date_toLocaleTimeString ms
  | None => "Invalid Date"
  end.

Definition buildExplanation (parsed : ParsedQuery) (rawQuery : string)
  : QueryExplanation :=
  let filters :=
    (when (negb (length (sectorFilters parsed) =? 0)%nat)
       [("Секторы: " ++ join ", " (sectorFilters parsed))%string]
     ++ when (present (levelFilter parsed))
         [("Уровень допуска: " ++ str_or (levelFilter parsed) "")%string]
     ++ when (negb (length (categoryFilters parsed) =? 0)%nat)
         [("Категории: "
           ++ join ", " (List.map toUpperCase (categoryFilters parsed)))%string]
     ++ when (negb (length (statusFilters parsed) =? 0)%nat)
         [("Статусы: " ++ join ", " (statusFilters parsed))%string])%list in
  let comparisons := List.map cmp_display (comparisons parsed) in
  mkExplanation
    rawQuery
    (entityLabel parsed)
    filters
    comparisons
    (timeWindowRaw parsed)
    ((fun range =>
        localeTime (range_start range) ++ " — " ++ localeTime (range_end range))
       <$> timeRange parsed)
    ((fun geo =>
        "Координаты " ++ Number_toFixed (geo_lat geo) 3 ++ ", "
        ++ Number_toFixed (geo_lon geo) 3 ++ " ± "
        ++ Number_toString (geo_radiusKm geo) ++ " км")
       <$> geoFilter parsed)
    (limit parsed)
    (dedupe (tips parsed))
    (warnings parsed)
    (intent parsed)
    (logicOperator parsed)
    (recognized parsed).

Definition logAuditEntry (now : Z) (user : User) (queryText queryType : string)
    (resultCount : Z) (granted : bool) (denialReason : option string)
  : Async unit :=
  insertAuditLog now
    (mkEntry (user_id user) queryText queryType resultCount granted denialReason).

(** The result returned when the text is not understood. *)
Definition unrecognizedResult (queryText : string) : QueryResult :=
  mkResult false None None (Some "Не удалось распознать запрос") None
    (Some (mkExplanation queryText None [] []
             None None None None
             ["Укажите объект интереса (например, «беспилотники», «сенсоры», «события»).";
              "Добавьте контекст: сектор, статус, временной интервал."]
             [] intent_list AND [])).

(** [executeNaturalLanguageQuery(user, queryText)].  [nowBudget] and
    [nowAudit] are the clock readings taken inside [decrementBudget] and
    [insertAuditLog].  The [user] argument is an object of the caller
    that the function updates; the second component of the outcome is
    that object as the call leaves it.

    [executeParsed] is the part of the function body that follows the
    test [if (!parsedQuery)], where [parsedQuery] is not null. *)
Definition executeParsed (nowBudget nowAudit : Z) (user : User) (queryText : string)
    (parsedQuery : ParsedQuery) : Async (QueryResult * User) :=
  allNodes ← getAllNodes;
  let filteredNodes := filterNodes user parsedQuery allNodes in
  _ ← decrementBudget nowBudget (user_id user);
  let user :=
    if Z.gtb (query_budget user) 0
    then set_query_budget (query_budget user - 1) user
    else user in
  let count := Z.of_nat (length filteredNodes) in
  if Z.eqb count 0 then
    _ ← logAuditEntry nowAudit user queryText "NL_QUERY" 0 true None;
    mret (mkResult true (Some (DataNodes [])) (Some false) None None
                   (Some (buildExplanation parsedQuery queryText)),
          user)
  else if negb (checkKAnonymity count None) then
    _ ← logAuditEntry nowAudit user queryText "NL_QUERY" count true
                      (Some K_ANONYMITY);
    mret (mkResult true
                   (Some (DataAggregate count
                            "Выборка слишком мала для раскрытия деталей (защита k-анонимностью)"))
                   (Some true) None (Some K_ANONYMITY)
                   (Some (buildExplanation parsedQuery queryText)),
          user)
  else
    _ ← logAuditEntry nowAudit user queryText "NL_QUERY" count true None;
    mret (mkResult true (Some (DataNodes filteredNodes)) None None None
                   (Some (buildExplanation parsedQuery queryText)),
          user).

Definition executeNaturalLanguageQuery (nowBudget nowAudit : Z)
    (user : User) (queryText : string) : Async (QueryResult * User) :=
  if negb (checkQueryBudget user) then
    _ ← logAuditEntry nowAudit user queryText "NL_QUERY" 0 false (Some BUDGET_EXHAUSTED);
    mret (mkResult false None None
                   (Some "Исчерпан бюджет запросов. Подождите восстановления.")
                   (Some "Бюджет исчерпан") None,
          user)
  else
    match parseNaturalLanguage queryText with
    | None => mret (unrecognizedResult queryText, user)
    | Some parsedQuery => executeParsed nowBudget nowAudit user queryText parsedQuery
    end.

(** *** getGraphData *)

Definition getGraphData (user : User) (options : GraphDataOptions) : Async GraphData :=
  allNodes ← getAllNodes;
  allEdges ← getAllEdges;
  let accessibleNodes := filterAccessibleNodes user allNodes in
  let nodeById := js_map_of (List.map (fun node => (node_id node, node)) allNodes) in
  let accessibleEdges := filterAccessibleEdges user allEdges in
  let userMaxRank := order_of (clearance_level user) in
  let accessibleLevels :=
    List.filter (fun level => less_eq (read_table CLEARANCE_ORDER level) userMaxRank)
                LEVEL_SEQUENCE in
  match mode options with
  | mode_level =>
      let targetLevel :=
        match opt_level options with
        | Some l =>
            if negb (String.eqb l "") && includes accessibleLevels l then l
            else str_or (last accessibleLevels)
                        (str_or (head accessibleLevels) "UNCLASSIFIED")
        | None =>
            str_or (last accessibleLevels)
                   (str_or (head accessibleLevels) "UNCLASSIFIED")
        end in
      let nodes :=
        List.filter
          (fun node => String.eqb (node_classification_level node) targetLevel)
          accessibleNodes in
      let nodeIds : gset string := list_to_set (List.map node_id nodes) in
      let edges :=
        List.filter
          (fun edge =>
             String.eqb (edge_classification_level edge) targetLevel
             && has nodeIds (source_node_id edge)
             && has nodeIds (target_node_id edge))
          accessibleEdges in
      mret (mkGraphData nodes edges)
  | mode_overlay =>
      let requestedLevels :=
        match overlayLevels options with
        | Some levels =>
            if (0 <? length levels)%nat
            then List.filter (includes accessibleLevels) levels
            else []
        | None => []
        end in
      let effectiveLevels :=
        if (0 <? length requestedLevels)%nat then requestedLevels
        else accessibleLevels in
      let levelSet : gset string := list_to_set effectiveLevels in
      let nodes :=
        List.filter (fun node => has levelSet (node_classification_level node))
                    accessibleNodes in
      let nodeIds : gset string := list_to_set (List.map node_id nodes) in
      let edges :=
        List.filter
          (fun edge =>
             has levelSet (edge_classification_level edge)
             && has nodeIds (source_node_id edge)
             && has nodeIds (target_node_id edge))
          accessibleEdges in
      mret (mkGraphData nodes edges)
  | mode_virtual =>
      let nodeChoice := foldl chooseNode [] accessibleNodes in
      let nodes := jsmap_values nodeChoice in
      let logicalToNode :=
        js_map_of (List.map (fun node => (node_logical_id node, node)) nodes) in
      let edgesMap := foldl (chooseEdge nodeById logicalToNode) [] accessibleEdges in
      mret (mkGraphData nodes (jsmap_values edgesMap))
  end.

End WithHost.

End QueryEngine.

Export QueryEngine.

(* ================================================================== *)
(** * Part II — vocabulary of the specification, example data           *)
(* ================================================================== *)

(** ** Access policy *)

(** The rank of the specification: the ordinal position of a level in
    UNCLASSIFIED < CONFIDENTIAL < SECRET, 0 for any other text. *)
Definition rank (level : string) : Z :=
  if String.eqb level "SECRET" then 2
  else if String.eqb level "CONFIDENTIAL" then 1
  else 0.

(** Reading of the specification's words on a data item or user [x]
    with attribute bag [bag]:
    - "has no sector attribute": the value read under ["sector"] fails
      the code's presence test [!value] (the key is absent, or holds
      [null], the empty string, [0], [NaN] or [false]);
    - "the role attribute equals commander": the value read under
      ["role"] is the string ["commander"];
    - "sector attributes are exactly equal": [===] on the two values. *)
Definition sector_of (bag : gmap string JsValue) : JsValue := Js.get bag "sector".
Definition no_sector (bag : gmap string JsValue) : Prop :=
  truthy (sector_of bag) = false.
Definition is_commander (user : User) : Prop :=
  Js.get (user_attributes user) "role" = JsString "commander".
Definition same_sector (a b : gmap string JsValue) : Prop :=
  strict_eq (sector_of a) (sector_of b) = true.

(** A level text that is no key of the clearance tables and names a
    member objects inherit from [Object.prototype] ([constructor],
    [toString], ...): read from either table it yields that member, not
    a number. *)
Definition names_inherited_member `{Host} (level : string) : bool :=
  match CLEARANCE_LEVELS level with
  | Some _ => false
  | None => bool_decide (is_Some (Object_prototype level))
  end.


(** ** An example platform

    A concrete [Host], for running the model on example data: UTC as the
    local time zone, ISO-8601 as the only date text understood, the case
    mapping of ASCII letters, decimal numerals, series for the
    trigonometric functions.  Of the engine's pattern matcher it keeps
    only what the example texts exercise: none of them contains a
    digit, a comparison sign or one of the words the parser's patterns
    begin with, so no pattern matches them, and [RegExp_matches] reports
    no match. *)

Module ExampleHost.

Definition map_ascii (f : ascii → ascii) : string → string :=
  fix go (s : string) : string :=
    match s with
    | EmptyString => EmptyString
    | String c rest => String (f c) (go rest)
    end.

Definition upper_ascii (c : ascii) : ascii :=
  let n := nat_of_ascii c in
  if ((97 <=? n) && (n <=? 122))%nat then ascii_of_nat (n - 32) else c.

Definition lower_ascii (c : ascii) : ascii :=
  let n := nat_of_ascii c in
  if ((65 <=? n) && (n <=? 90))%nat then ascii_of_nat (n + 32) else c.

Definition index_ascii (s : string) (i : nat) : JsValue :=
  match String.get i s with
  | Some c => JsString (String c EmptyString)
  | None => JsUndefined
  end.

(** Decimal digits. *)
Definition digit_of (c : ascii) : option Z :=
  let n := nat_of_ascii c in
  if ((48 <=? n) && (n <=? 57))%nat then Some (Z.of_nat (n - 48)) else None.

Fixpoint digits_value (s : string) (acc : Z) : option Z :=
  match s with
  | EmptyString => Some acc
  | String c rest =>
      match digit_of c with
      | Some d => digits_value rest (10 * acc + d)
      | None => None
      end
  end.

Definition number_at (start len : nat) (s : string) : option Z :=
  let part := String.substring start len s in
  if (String.length part =? len)%nat then digits_value part 0 else None.

(** Days since the epoch of a civil date, and back. *)
Definition days_from_civil (y m d : Z) : Z :=
  let y := if m <=? 2 then y - 1 else y in
  let era := y / 400 in
  let yoe := y - era * 400 in
  let doy := (153 * (if 2 <? m then m - 3 else m + 9) + 2) / 5 + d - 1 in
  let doe := yoe * 365 + yoe / 4 - yoe / 100 + doy in
  era * 146097 + doe - 719468.

Definition civil_from_days (days : Z) : Z * Z * Z :=
  let z := days + 719468 in
  let era := z / 146097 in
  let doe := z - era * 146097 in
  let yoe := (doe - doe / 1460 + doe / 36524 - doe / 146096) / 365 in
  let doy := doe - (365 * yoe + yoe / 4 - yoe / 100) in
  let mp := (5 * doy + 2) / 153 in
  let d := doy - (153 * mp + 2) / 5 + 1 in
  let m := if mp <? 10 then mp + 3 else mp - 9 in
  let y := yoe + era * 400 + (if m <=? 2 then 1 else 0) in
  (y, m, d).

(** [YYYY-MM-DDTHH:MM:SSZ] or [YYYY-MM-DDTHH:MM:SS.sssZ] *)
Definition parse_iso (s : string) : option Z :=
  y ← number_at 0 4 s; mo ← number_at 5 2 s; d ← number_at 8 2 s;
  h ← number_at 11 2 s; mi ← number_at 14 2 s; se ← number_at 17 2 s;
  ms ← (if String.eqb (String.substring 19 5 s) "Z" then Some 0
        else if String.eqb (String.substring 19 1 s) "."
                && String.eqb (String.substring 23 2 s) "Z"
        then number_at 20 3 s else None);
  if String.eqb (String.substring 4 1 s) "-" && String.eqb (String.substring 7 1 s) "-"
     && String.eqb (String.substring 10 1 s) "T"
     && String.eqb (String.substring 13 1 s) ":"
     && String.eqb (String.substring 16 1 s) ":"
     && (1 <=? mo) && (mo <=? 12) && (1 <=? d) && (d <=? 31)
     && (h <=? 23) && (mi <=? 59) && (se <=? 59)
  then Some ((((days_from_civil y mo d * 24 + h) * 60 + mi) * 60 + se) * 1000 + ms)
  else None.

Definition digit_char (d : Z) : string :=
  String (ascii_of_nat (48 + Z.to_nat (d mod 10))) EmptyString.

Fixpoint padded (width : nat) (n : Z) : string :=
  match width with
  | O => ""
  | S w => padded w (n / 10) ++ digit_char n
  end.

Definition to_iso (t : Z) : string :=
  let '(y, m, d) := civil_from_days (t / 86400000) in
  let r := t mod 86400000 in
  padded 4 y ++ "-" ++ padded 2 m ++ "-" ++ padded 2 d ++ "T"
  ++ padded 2 (r / 3600000) ++ ":" ++ padded 2 (r / 60000 mod 60) ++ ":"
  ++ padded 2 (r / 1000 mod 60) ++ "." ++ padded 3 (r mod 1000) ++ "Z".

(** The integral part of a number, [None] for [NaN] and the infinities. *)
Definition integral (x : float) : option Z :=
  match Prim2SF x with
  | S754_zero _ => Some 0
  | S754_finite negative m e =>
      let magnitude :=
        if 0 <=? e then Z.pos m * 2 ^ e else Z.pos m / 2 ^ (- e) in
      Some (if negative then - magnitude else magnitude)
  | S754_infinity _ | S754_nan => None
  end.

Definition of_integer (z : Z) : float :=
  if z <? 0 then PrimFloat.opp (PrimFloat.of_uint63 (Uint63.of_Z (- z)))
  else PrimFloat.of_uint63 (Uint63.of_Z z).

Definition get_hours (t : Z) : float := of_integer (t / 3600000 mod 24).

(** [setHours(h)] and [setHours(h, m, s, ms)] in UTC. *)
Definition set_hours (t : Z) (args : list float) : option Z :=
  let day := t / 86400000 * 86400000 in
  let r := t mod 3600000 in
  match args with
  | [h] => h ← integral h; Some (day + h * 3600000 + r)
  | [h; m; s; ms] =>
      h ← integral h; m ← integral m; s ← integral s; ms ← integral ms;
      Some (day + h * 3600000 + m * 60000 + s * 1000 + ms)
  | _ => None
  end.

Definition locale_time (t : Z) : string :=
  let r := t mod 86400000 in
  padded 2 (r / 3600000) ++ ":" ++ padded 2 (r / 60000 mod 60) ++ ":"
  ++ padded 2 (r / 1000 mod 60).

(** [text.split(/[\s,]+/u)] for ASCII blanks. *)
Definition is_separator (c : ascii) : bool :=
  let n := nat_of_ascii c in
  ((n =? 32) || (n =? 44) || ((9 <=? n) && (n <=? 13)))%nat.

Fixpoint split_separators (s : string) (in_run : bool) : list string :=
  match s with
  | EmptyString => [EmptyString]
  | String c rest =>
      if is_separator c then
        if in_run then split_separators rest true
        else EmptyString :: split_separators rest true
      else match split_separators rest false with
           | part :: parts => String c part :: parts
           | [] => [String c EmptyString]
           end
  end.

(** [Number(text)] of an unsigned decimal numeral with an optional
    fraction; [0] for the empty text, [NaN] otherwise. *)
Fixpoint fraction_start (s : string) : string * string :=
  match s with
  | EmptyString => (EmptyString, EmptyString)
  | String c rest =>
      if Ascii.eqb c "."%char then (EmptyString, rest)
      else let '(whole, fraction) := fraction_start rest in (String c whole, fraction)
  end.

Definition number_of_string (s : string) : float :=
  if String.eqb s "" then 0%float
  else
    let '(whole, fraction) := fraction_start s in
    match digits_value (whole ++ fraction) 0 with
    | Some n =>
        if String.eqb whole "" then PrimFloat.nan
        else (of_integer n / of_integer (10 ^ Z.of_nat (String.length fraction)))%float
    | None => PrimFloat.nan
    end.

Fixpoint decimal (fuel : nat) (n : Z) : string :=
  match fuel with
  | O => ""
  | S fuel' => if n <? 10 then digit_char n else decimal fuel' (n / 10) ++ digit_char n
  end.

(** [x.toString()], right when [x] is integral. *)
Definition number_to_string (x : float) : string :=
  match integral x with
  | Some n => if n <? 0 then "-" ++ decimal 20 (- n) else decimal 20 n
  | None => "NaN"
  end.

Definition number_to_fixed (x : float) (digits : nat) : string :=
  number_to_string x ++ "." ++ padded digits 0.

(** [Math.sin], [Math.cos] and [Math.atan2] are implementation-approximated
    in the language; here, by their power series (arguments within a
    turn of zero), the arc tangent after three argument halvings. *)
Definition sin_series (x : float) : float :=
  let x2 := (x * x)%float in
  (x * (1 - x2 / 6 * (1 - x2 / 20 * (1 - x2 / 42 * (1 - x2 / 72
        * (1 - x2 / 110 * (1 - x2 / 156 * (1 - x2 / 210))))))))%float.

Definition cos_series (x : float) : float :=
  let x2 := (x * x)%float in
  (1 - x2 / 2 * (1 - x2 / 12 * (1 - x2 / 30 * (1 - x2 / 56
       * (1 - x2 / 90 * (1 - x2 / 132 * (1 - x2 / 182)))))))%float.

Definition halve_tangent (z : float) : float :=
  (z / (1 + PrimFloat.sqrt (1 + z * z)))%float.

Definition atan_series (z : float) : float :=
  let t := halve_tangent (halve_tangent (halve_tangent z)) in
  let t2 := (t * t)%float in
  (8 * (t * (1 - t2 * (1 / 3 - t2 * (1 / 5 - t2 * (1 / 7 - t2 * (1 / 9
              - t2 * (1 / 11))))))))%float.

Definition atan2_series (y x : float) : float :=
  if (0 <? x)%float then atan_series (y / x)
  else if (x <? 0)%float then
    if (y <? 0)%float then (atan_series (y / x) - Math_PI)%float
    else (atan_series (y / x) + Math_PI)%float
  else if (0 <? y)%float then (Math_PI / 2)%float
  else if (y <? 0)%float then (- (Math_PI / 2))%float
  else 0%float.

(** [Math.pow(x, n)] for an integral exponent [n >= 0]. *)
Definition pow_integral (x y : float) : float :=
  match integral y with
  | Some n =>
      if n <? 0 then PrimFloat.nan
      else Nat.iter (Z.to_nat n) (fun acc => (acc * x)%float) 1%float
  | None => PrimFloat.nan
  end.

(** [new Date(value).getTime()] of a value that is not a string: a
    number is a time value, [null] and the booleans are 0 and 1. *)
Definition construct_date (v : JsValue) : option Z :=
  match v with
  | JsNumber x => integral x
  | JsNull => Some 0
  | JsBool b => Some (if b then 1 else 0)
  | _ => None
  end.

(** A stable insertion sort: [b] goes before [a] when [compare a b > 0]. *)
Fixpoint insert_sorted {A : Type} (compare : A → A → float) (x : A) (sorted : list A)
  : list A :=
  match sorted with
  | [] => [x]
  | y :: rest =>
      if (0 <? compare x y)%float then y :: insert_sorted compare x rest
      else x :: sorted
  end.

Definition sort_by (A : Type) (compare : A → A → float) (items : list A) : list A :=
  foldr (insert_sorted compare) [] items.

(** The members of [Object.prototype], with the text an engine gives for
    each: a built-in function prints as
    [function name() { [native code] }], the prototype itself (under
    [__proto__]) as [[object Object]]. *)
Definition object_prototype (name : string) : option string :=
  if String.eqb name "constructor"
  then Some "function Object() { [native code] }"
  else if String.eqb name "__proto__" then Some "[object Object]"
  else if existsb (String.eqb name)
            ["toString"; "toLocaleString"; "valueOf"; "hasOwnProperty";
             "isPrototypeOf"; "propertyIsEnumerable"; "__defineGetter__";
             "__defineSetter__"; "__lookupGetter__"; "__lookupSetter__"]
  then Some ("function " ++ name ++ "() { [native code] }")
  else None.

#[export] Instance example_host : Host := {|
  toUpperCase := map_ascii upper_ascii;
  toLowerCase := map_ascii lower_ascii;
  String_index := index_ascii;
  Math_random_base36 := fun n => "0.k3j9x2m1p" ++ padded 2 (Z.of_nat n);
  Date_parse := parse_iso;
  Date_construct := construct_date;
  Date_toISOString := to_iso;
  Date_getHours := get_hours;
  Date_setHours := set_hours;
  Date_toLocaleTimeString := locale_time;
  RegExp_matches := fun _ _ _ => [];
  RegExp_split := fun _ _ s => split_separators s false;
  Number_of_string := number_of_string;
  Number_toString := number_to_string;
  Number_toFixed := number_to_fixed;
  Math_sin := sin_series;
  Math_cos := cos_series;
  Math_atan2 := atan2_series;
  Math_pow := pow_integral;
  Array_sort := sort_by;
  Object_prototype := object_prototype
|}.

End ExampleHost.

Module PolicyExamples.

Definition attrs (kvs : list (string * JsValue)) : gmap string JsValue :=
  list_to_map kvs.

(** The two seeded users of [data/usersData.ts] (with a fixed reset instant),
    and a user whose attribute bag has no sector. *)
Definition analyst_a : User :=
  mkUser "local-analyst_a" "analyst_a" "CONFIDENTIAL"
    (attrs [("sector", JsString "A"); ("sectors", JsArray [JsString "A"]);
            ("role", JsString "analyst")])
    8 "2024-05-12T11:00:00.000Z".

Definition commander : User :=
  mkUser "local-commander" "commander" "SECRET"
    (attrs [("sector", JsString "ALL");
            ("sectors", JsArray [JsString "A"; JsString "B"; JsString "C"]);
            ("role", JsString "commander")])
    20 "2024-05-12T11:00:00.000Z".

Definition guest : User :=
  mkUser "local-guest" "guest" "UNCLASSIFIED" (attrs []) 5
    "2024-05-12T11:00:00.000Z".


Definition node_in (sector : option string) (level : string) : GraphNode :=
  mkNode ("n_" ++ level) "n" level "Target" "n"
    (attrs match sector with
           | Some s => [("sector", JsString s)]
           | None => []
           end)
    "2024-05-12T10:00:00Z" "2024-05-12T10:00:00Z".

End PolicyExamples.

(** ** Parser and pipeline *)

Section ParserWords.
Context `{Host}.

(** What the parser extracts from a text, as [parseNaturalLanguage]
    computes it before it decides whether the text is understood. *)
Definition extractedEntityType (queryText : string) : option string :=
  det_entityType (detectEntity (toLowerCase queryText)).

Definition extractedCategoryFilters (queryText : string) : list string :=
  let lowerQuery := toLowerCase queryText in
  let entityCategory := det_category (detectEntity lowerQuery) in
  let categoryInfo := extractCategoryFilters lowerQuery in
  if present entityCategory
  then set_add (str_or entityCategory "") (values categoryInfo)
  else values categoryInfo.

Definition extractedStatusFilters (queryText : string) : list string :=
  values (extractStatusFilters (toLowerCase queryText)).

Definition extractedComparisons (queryText : string) : list ComparisonFilter :=
  extractComparisons (toLowerCase queryText).

End ParserWords.

Section FilterWords.
Context `{Host}.

(** "Flat AND": a node passes when it is of the requested entity type,
    is accessible to the user, and meets every filter the parsed query
    carries; a filter the query does not carry lets every node pass. *)
Definition passesEveryFilter (user : User) (p : ParsedQuery) (node : GraphNode) : bool :=
  (if present (entityType p)
   then String.eqb (entity_type node) (str_or (entityType p) "") else true)
  && (checkClearance (clearance_level user) (node_classification_level node)
      && checkSectorAccess user node)
  && (if negb (length (sectorFilters p) =? 0)%nat
      then sectorMatches (List.map toUpperCase (sectorFilters p)) node else true)
  && (if present (levelFilter p)
      then levelMatches (str_or (levelFilter p) "") node else true)
  && match timeWindowHours p with
     | Some hours =>
         if truthy (JsNumber hours) && (0 <? hours)%float
         then seenSince (windowCutoff hours) node else true
     | None => true
     end
  && match timeRange p with
     | Some range => inTimeRange range node
     | None => true
     end
  && (if negb (length (statusFilters p) =? 0)%nat
      then statusMatches (statusFilters p) node else true)
  && (if negb (length (categoryFilters p) =? 0)%nat
      then categoryMatches (categoryFilters p) node else true)
  && match geoFilter p with
     | Some geo => withinRadius geo node
     | None => true
     end
  && (if negb (length (comparisons p) =? 0)%nat
      then checkComparisons node (comparisons p) else true).

(** The result limit, applied to the nodes that passed. *)
Definition limited (p : ParsedQuery) (passed : list GraphNode) : list GraphNode :=
  match limit p with
  | Some n =>
      if truthy (JsNumber n) && (0 <? n)%float
      then takeWithPreferredOrder passed n
      else passed
  | None => passed
  end.

End FilterWords.

(** A parsed query with its AND/OR flag replaced, every other field kept. *)
Definition with_logic (op : LogicOperator) (p : ParsedQuery) : ParsedQuery :=
  mkParsed (intent p) (entityType p) (entityLabel p) (sectorFilters p)
           (timeWindowHours p) (timeWindowRaw p) (timeRange p) (statusFilters p)
           (categoryFilters p) (levelFilter p) op (geoFilter p) (limit p)
           (comparisons p) (tokens p) (tips p) (recognized p) (warnings p).

(** A result with the logic tag of its explanation replaced. *)
Definition with_explained_logic (op : LogicOperator) (r : QueryResult) : QueryResult :=
  mkResult (success r) (data r) (aggregated r) (error r) (denialReason r)
    ((fun e =>
        mkExplanation (exp_raw e) (exp_entity e) (exp_filters e) (exp_comparisons e)
                      (exp_timeWindow e) (exp_timeRange e) (exp_geo e) (exp_limit e)
                      (exp_tips e) (exp_warnings e) (exp_intent e) op
                      (exp_recognized e))
       <$> explanation r).

(** ** Level transfer *)

Section TransferWords.
Context `{Host}.

(** The nodes and edges a store holds at a classification level. *)
Definition nodesAt (classification : string) (st : Store) : list GraphNode :=
  List.filter (fun node => String.eqb (node_classification_level node) classification)
              (nodesStore st).

Definition edgesAt (classification : string) (st : Store) : list GraphEdge :=
  List.filter (fun edge => String.eqb (edge_classification_level edge) classification)
              (edgesStore st).

(** Export a level of [source], then import the payload into [target]. *)
Definition exportThenImport (now : Z) (level : string) (source target : Store) : Store :=
  let payload := (exportLevelData level source).1 in
  (importLevelData now level (payload_value payload) target).2.

(** The round trip as the specification words it. *)
Definition roundtrip_as_worded (now : Z) (level : string) (source target : Store)
  : Prop :=
  let classification := normalizeLevel level in
  nodesAt classification target = [] →
  edgesAt classification target = [] →
  let after := exportThenImport now level source target in
  (list_to_set (List.map node_logical_id (nodesAt classification after)) : gset string)
  = list_to_set (List.map node_logical_id (nodesAt classification source)) ∧
  List.map entity_type (nodesAt classification after)
  ≡ₚ List.map entity_type (nodesAt classification source) ∧
  List.map relation_type (edgesAt classification after)
  ≡ₚ List.map relation_type (edgesAt classification source).

(** A level that the exporter and the importer carry over whole: its
    nodes have a logical id and an entity type, its edges have a relation
    type and join nodes of the level (the data model's invariant for
    edges). *)
Definition transferable (classification : string) (st : Store) : Prop :=
  (∀ node, node ∈ nodesAt classification st →
     node_logical_id node ≠ "" ∧ entity_type node ≠ "") ∧
  (∀ edge, edge ∈ edgesAt classification st →
     relation_type edge ≠ "" ∧
     (∃ node, node ∈ nodesAt classification st ∧ node_id node = source_node_id edge) ∧
     (∃ node, node ∈ nodesAt classification st ∧ node_id node = target_node_id edge)).

End TransferWords.

Module TransferExamples.

(** A store whose only node has an empty entity type. *)
Definition untyped : Store :=
  mkStore []
    [mkNode "n1_UNCLASSIFIED" "n1" "UNCLASSIFIED" "" "Node one" ∅
            "2024-05-12T10:00:00Z" "2024-05-12T10:00:00Z"]
    [] [] 0.

Definition empty : Store := mkStore [] [] [] [] 0.

(** A store whose only node has an empty logical id. *)
Definition unidentified : Store :=
  mkStore []
    [mkNode "_UNCLASSIFIED" "" "UNCLASSIFIED" "Target" "Node one" ∅
            "2024-05-12T10:00:00Z" "2024-05-12T10:00:00Z"]
    [] [] 0.

(** Two CONFIDENTIAL nodes joined by an edge, and a SECRET node. *)
Definition node_a : GraphNode :=
  mkNode "a_CONFIDENTIAL" "a" "CONFIDENTIAL" "Target" "A" ∅
         "2024-05-12T10:00:00Z" "2024-05-12T10:00:00Z".
Definition node_b : GraphNode :=
  mkNode "b_CONFIDENTIAL" "b" "CONFIDENTIAL" "Sensor" "B" ∅
         "2024-05-12T10:00:00Z" "2024-05-12T10:00:00Z".
Definition node_a_secret : GraphNode :=
  mkNode "a_SECRET" "a" "SECRET" "Target" "A (detailed)" ∅
         "2024-05-12T10:00:00Z" "2024-05-12T10:00:00Z".
Definition edge_ab : GraphEdge :=
  mkEdge "ab_CONFIDENTIAL" "ab" "CONFIDENTIAL" "b_CONFIDENTIAL" "a_CONFIDENTIAL"
         "DETECTS" ∅ "2024-05-12T10:00:00Z".

Definition small : Store :=
  mkStore [] [node_a; node_b; node_a_secret] [edge_ab] [] 0.

(** The same nodes, joined by an edge without a relation type. *)
Definition unlabelled : Store :=
  mkStore [] [node_a; node_b; node_a_secret]
    [mkEdge "ab_CONFIDENTIAL" "ab" "CONFIDENTIAL" "b_CONFIDENTIAL" "a_CONFIDENTIAL"
            "" ∅ "2024-05-12T10:00:00Z"]
    [] 0.

(** The same nodes, with a CONFIDENTIAL edge that ends at the SECRET node. *)
Definition crossing : Store :=
  mkStore [] [node_a; node_b; node_a_secret]
    [mkEdge "ab_CONFIDENTIAL" "ab" "CONFIDENTIAL" "b_CONFIDENTIAL" "a_SECRET"
            "DETECTS" ∅ "2024-05-12T10:00:00Z"]
    [] 0.

(** A payload of three entity items, the second of them [null]. *)
Definition broken : JsValue :=
  JsObject [
    ("entities",
     JsArray [
       JsObject [("logical_id", JsString "c"); ("entity_type", JsString "Radar");
                 ("name", JsString "C")];
       JsNull;
       JsObject [("logical_id", JsString "d")]
     ]);
    ("relationships", JsArray [])
  ].

(** A payload whose only entity item has no logical id and a number for
    a name. *)
Definition numbered : JsValue :=
  JsObject [("entities", JsArray [JsObject [("name", JsNumber 5)]])].

End TransferExamples.

Module PipelineExamples.

Definition uav (n : string) : GraphNode :=
  mkNode ("target_uav_" ++ n ++ "_CONFIDENTIAL") ("target_uav_" ++ n) "CONFIDENTIAL"
         "Target" ("UAV " ++ n)
         (PolicyExamples.attrs
            [("sector", JsString "A"); ("category", JsString "UAV");
             ("last_seen", JsString "2024-05-12T09:55:00Z");
             ("threat_level", JsString "elevated")])
         "2024-05-12T10:00:00Z" "2024-05-12T10:00:00Z".

Definition users : list User := [PolicyExamples.analyst_a; PolicyExamples.commander].

(** One, and two, UAV nodes in sector A at CONFIDENTIAL level. *)
Definition one_uav : Store := mkStore users [uav "1"] [] [] 0.
Definition two_uavs : Store := mkStore users [uav "1"; uav "2"] [] [] 0.

(** The analyst with no budget left. *)
Definition exhausted : User := set_query_budget 0 PolicyExamples.analyst_a.

(** 2024-05-12T11:00:00Z, the instant the seeded budgets are reset at. *)
Definition eleven : Z := 1715511600000.

End PipelineExamples.

(** ** Notions used in the proofs *)

Section ProofWords.
Context `{Host}.

(** What holds of [nodeChoice] once the nodes [processed] went through
    the loop: keys are distinct; the node stored under a key has that
    logical id, was processed, and no processed node of that logical id
    outranks it; every processed logical id has an entry. *)
Definition choice_inv (processed : list GraphNode) (m : JsMap GraphNode) : Prop :=
  NoDup m.*1 ∧
  (∀ k n, jsmap_get k m = Some n →
     node_logical_id n = k ∧ n ∈ processed ∧
     ∀ n', n' ∈ processed → node_logical_id n' = k →
           rank (node_classification_level n')
           <= rank (node_classification_level n)) ∧
  (∀ n, n ∈ processed → is_Some (jsmap_get (node_logical_id n) m)).

(** An edge both of whose endpoints are ids of nodes of [ns]. *)
Definition closed_in (ns : list GraphNode) (e : GraphEdge) : Prop :=
  (∃ n, n ∈ ns ∧ source_node_id e = node_id n) ∧
  (∃ n, n ∈ ns ∧ target_node_id e = node_id n).

(** The audit record that [logAuditEntry] prepends, given the number of
    [Math.random] calls made before. *)
Definition auditRecord (drawn : nat) (now : Z) (user : User)
    (queryText queryType : string) (resultCount : Z) (granted : bool)
    (denialReason : option string) : AuditLog :=
  mkAudit ("audit" ++ "-" ++ String.substring 2 8 (Math_random_base36 drawn))
          (user_id user) queryText queryType resultCount granted denialReason
          (Date_toISOString now).

(** The caller's user object after the local decrement. *)
Definition spent (user : User) : User :=
  if Z.gtb (query_budget user) 0
  then set_query_budget (query_budget user - 1) user
  else user.

(** The logical id the importer reads off an item, the node it builds
    for the item, and the items the exporter writes. *)
Definition lid_of (entity : EntityItem) : string := str_or (item_logical_id entity) "".

Definition imported_node (classification now : string) (entity : EntityItem)
  : GraphNode :=
  mkNode (buildNodeId (lid_of entity) classification) (lid_of entity) classification
         (str_or (item_entity_type entity) "Unknown")
         (str_or (item_name entity) (lid_of entity))
         (clone (default ∅ (item_attributes entity)))
         (str_or (item_created_at entity) now)
         (str_or (item_updated_at entity) now).

Definition exported_entity (node : GraphNode) : EntityItem :=
  mkEntity (Some (node_logical_id node)) (Some (entity_type node))
           (Some (name node)) (Some (node_classification_level node))
           (Some (clone (node_attributes node))) None None.

Definition exported_relationship (nodeIdMap : gmap string string) (edge : GraphEdge)
  : RelationshipItem :=
  mkRelationship
    (Some (edge_logical_id edge))
    (Some (str_or (nodeIdMap !! source_node_id edge) (source_node_id edge)))
    (Some (str_or (nodeIdMap !! target_node_id edge) (target_node_id edge)))
    (Some (relation_type edge)) (Some (edge_classification_level edge))
    (Some (clone (edge_attributes edge))) None.

Definition resolves (logicalToId : gmap string string) (r : RelationshipItem) : Prop :=
  str_or (table_get logicalToId (js_string (rel_source_id r))) "" ≠ "" ∧
  str_or (table_get logicalToId (js_string (rel_target_id r))) "" ≠ "".

End ProofWords.

(** ** The graph store and its users *)

(** An edge that joins two nodes of [nodes], both of the edge's own
    level. *)
Definition joins (nodes : list GraphNode) (edge : GraphEdge) : Prop :=
  (∃ n, n ∈ nodes ∧ node_id n = source_node_id edge ∧
        node_classification_level n = edge_classification_level edge) ∧
  (∃ n, n ∈ nodes ∧ node_id n = target_node_id edge ∧
        node_classification_level n = edge_classification_level edge).

(** Referential integrity of the graph within levels: every stored edge
    joins stored nodes of its level. *)
Definition edges_joined (st : Store) : Prop :=
  ∀ edge, edge ∈ edgesStore st → joins (nodesStore st) edge.

(** Referential integrity of the graph: both ends of every stored edge
    are ids of stored nodes, of whatever level. *)
Definition edges_closed (st : Store) : Prop :=
  ∀ edge, edge ∈ edgesStore st →
    (∃ n, n ∈ nodesStore st ∧ node_id n = source_node_id edge) ∧
    (∃ n, n ∈ nodesStore st ∧ node_id n = target_node_id edge).

(** A budget between zero and the maximum of the user's clearance, and
    a store all of whose users have one. *)
Definition in_range (u : User) : Prop :=
  0 <= query_budget u <= getMaxBudget (clearance_level u).

Definition budgets_in_range (st : Store) : Prop :=
  ∀ u, u ∈ usersStore st → in_range u.

(** The ids of the stored nodes and edges. *)
Definition node_ids (st : Store) : list string := List.map node_id (nodesStore st).
Definition edge_ids (st : Store) : list string := List.map edge_id (edgesStore st).

(** An edge with [nodeId] at one of its ends. *)
Definition touches (nodeId : string) (edge : GraphEdge) : bool :=
  String.eqb (source_node_id edge) nodeId || String.eqb (target_node_id edge) nodeId.

Section EditWords.
Context `{Host}.

(** The logical id that [createNode] and [createEdge] settle on: the
    trimmed id of the input or, when that is empty, the slug of [base]
    with the random suffix of the next draw. *)
Definition chosenLogicalId (given : option string) (base : string) (drawn : nat)
  : string :=
  if String.eqb (str_or (trim <$> given) "") ""
  then slugify base ++ "_" ++ String.substring 2 6 (Math_random_base36 drawn)
  else str_or (trim <$> given) "".

(** The store after the logical id was settled: one more draw when the
    id had to be generated. *)
Definition drawn_for (given : option string) (st : Store) : Store :=
  if String.eqb (str_or (trim <$> given) "") "" then with_draws S st else st.

End EditWords.

Module EditExamples.

(** The seeded analyst, promoted to SECRET. *)
Definition promoted : User :=
  mkUser "local-analyst_a" "analyst_a" "SECRET"
         (user_attributes PolicyExamples.analyst_a) 8 "2024-05-12T11:00:00.000Z".

Definition new_node (logicalId : option string) : NodeInput :=
  mkNodeInput "Radar North" "Sensor" "m" None logicalId.

Definition new_edge : EdgeInput :=
  mkEdgeInput "b_CONFIDENTIAL" "a_CONFIDENTIAL" "TRACKS" "C" None (Some "track").

End EditExamples.

Section ImportWords.
Context `{Host}.

(** What the importer's id table promises while it runs: every node id
    it holds is the id of a stored node of the level. *)
Definition table_points_to_level (classification : string)
    (logicalToId : gmap string string) (st : Store) : Prop :=
  ∀ k id, logicalToId !! k = Some id →
    ∃ n, n ∈ nodesStore st ∧ node_id n = id ∧
         node_classification_level n = classification.

(** An edge of the level both of whose ends are ids of the table. *)
Definition resolved_edge (classification : string)
    (logicalToId : gmap string string) (edge : GraphEdge) : Prop :=
  edge_classification_level edge = classification ∧
  (∃ k, logicalToId !! k = Some (source_node_id edge)) ∧
  (∃ k, logicalToId !! k = Some (target_node_id edge)).

End ImportWords.

(** ** The shape of a slug *)

(** A character that a slug may hold. *)
Definition slug_or_underscore (c : ascii) : bool := is_slug_char c || is_underscore c.

(** Every character of the text meets the test. *)
Fixpoint all_chars (p : ascii → bool) (s : string) : bool :=
  match s with
  | EmptyString => true
  | String c s' => p c && all_chars p s'
  end.

Definition starts_with_underscore (s : string) : bool :=
  match s with
  | String c _ => is_underscore c
  | EmptyString => false
  end.

Fixpoint ends_with_underscore (s : string) : bool :=
  match s with
  | EmptyString => false
  | String c EmptyString => is_underscore c
  | String _ s' => ends_with_underscore s'
  end.

(** Two underscores in a row somewhere in the text. *)
Fixpoint has_double_underscore (s : string) : bool :=
  match s with
  | EmptyString => false
  | String c s' =>
      (is_underscore c && starts_with_underscore s') || has_double_underscore s'
  end.

(** ** Answers of the pipeline *)

(** The platform's sort rearranges: what [Array.prototype.sort]
    returns holds the elements it was given, each as often. *)
Definition sort_rearranges (H : Host) : Prop :=
  ∀ (A : Type) (compare : A → A → float) (items : list A),
    Array_sort A compare items ≡ₚ items.

(** [undefined] or [null]: what [??] passes over and [== null] accepts. *)
Definition nullish (v : JsValue) : Prop := v = JsUndefined ∨ v = JsNull.

(** ** Graph views *)

(** An edge of a view stands for a stored edge: it is that edge, its
    two ends possibly re-pointed. *)
Definition stands_for (shown original : GraphEdge) : Prop :=
  shown = set_endpoints (source_node_id shown) (target_node_id shown) original.

(** The level name of a rank. *)
Definition level_of_rank (r : Z) : string :=
  if Z.eqb r 2 then "SECRET" else if Z.eqb r 1 then "CONFIDENTIAL" else "UNCLASSIFIED".

(** What holds of [edgesMap] while the edges go through the loop of the
    virtual view: keys are distinct, and an edge that has a logical id
    is stored under it. *)
Definition edge_keys_inv (m : JsMap GraphEdge) : Prop :=
  NoDup m.*1 ∧
  ∀ k e, (k, e) ∈ m → edge_logical_id e ≠ "" → edge_logical_id e = k.

(** The edges that carry a logical id. *)
Definition identified (edges : list GraphEdge) : list GraphEdge :=
  List.filter (fun e => negb (String.eqb (edge_logical_id e) "")) edges.

Module AnswerExamples.

(** An audit entry of the analyst. *)
Definition entry : AuditEntry :=
  mkEntry "local-analyst_a" "uav" "NL_QUERY" 2 true None.

(** The one-UAV store with, besides, a SECRET node that the analyst may
    not read; the seeded users over an empty graph. *)
Definition with_hidden : Store :=
  mkStore PipelineExamples.users
          [PipelineExamples.uav "1"; TransferExamples.node_a_secret] [] [] 0.

Definition no_nodes : Store := mkStore PipelineExamples.users [] [] [] 0.

(** [speed > 100] *)
Definition faster : ComparisonFilter :=
  mkComparison "speed" ">" (JsNumber 100) "speed > 100" "speed > 100".

(** The value of a call that returned, [fallback] if it threw. *)
Definition returned_or {A : Type} (fallback : A) (outcome : Outcome A) : A :=
  match outcome with
  | Returned value => value
  | Thrown _ => fallback
  end.

End AnswerExamples.

(* ================================================================== *)
(** * Part III — properties                                             *)
(* ================================================================== *)

(** ** Access policy *)

Section PolicyFacts.
Context `{Host}.

Lemma rank_range level : 0 <= rank level <= 2.
Proof.
  unfold rank. destruct (String.eqb level "SECRET"); [lia |].
  destruct (String.eqb level "CONFIDENTIAL"); lia.
Qed.

Lemma rank_unknown level :
  level ≠ "CONFIDENTIAL" → level ≠ "SECRET" → rank level = 0.
Proof.
  intros HC HS. unfold rank.
  destruct (String.eqb_spec level "SECRET"); [done |].
  by destruct (String.eqb_spec level "CONFIDENTIAL").
Qed.

(** How a level reads from the two clearance tables: as its rank,
    unless it names an inherited member. *)
Lemma level_number level :
  names_inherited_member level = false →
  clearance_of level = TableNumber (rank level) ∧
  order_of level = TableNumber (rank level).
Proof.
  unfold names_inherited_member, clearance_of, order_of, read_table,
    CLEARANCE_LEVELS, CLEARANCE_ORDER, rank.
  destruct (String.eqb_spec level "UNCLASSIFIED") as [-> | _]; [by split |].
  destruct (String.eqb_spec level "CONFIDENTIAL") as [-> | _]; [by split |].
  destruct (String.eqb level "SECRET"); [by split |].
  destruct (Object_prototype level) as [text |]; [| by split].
  intros Hdec%bool_decide_eq_false. destruct Hdec. by eexists.
Qed.

Lemma level_member level :
  names_inherited_member level = true →
  rank level = 0 ∧
  ∃ text, Object_prototype level = Some text ∧
          clearance_of level = Inherited text ∧
          order_of level = Inherited text.
Proof.
  unfold names_inherited_member, clearance_of, order_of, read_table,
    CLEARANCE_LEVELS, CLEARANCE_ORDER, rank.
  destruct (String.eqb_spec level "UNCLASSIFIED") as [-> | _]; [done |].
  destruct (String.eqb_spec level "CONFIDENTIAL") as [-> | _]; [done |].
  destruct (String.eqb level "SECRET"); [done |].
  destruct (Object_prototype level) as [text |].
  - intros _. split; [done |]. by exists text.
  - intros Hdec%bool_decide_eq_true. by destruct Hdec.
Qed.

(** The clearance check, by kind of level. *)
Lemma checkClearance_numbers userLevel dataLevel :
  names_inherited_member userLevel = false →
  names_inherited_member dataLevel = false →
  checkClearance userLevel dataLevel = (rank dataLevel <=? rank userLevel).
Proof.
  intros [Hu _]%level_number [Hd _]%level_number.
  unfold checkClearance. cbv zeta. by rewrite Hu, Hd.
Qed.

Lemma checkClearance_mixed userLevel dataLevel :
  names_inherited_member userLevel ≠ names_inherited_member dataLevel →
  checkClearance userLevel dataLevel = false.
Proof.
  intros Hne. unfold checkClearance. cbv zeta.
  destruct (names_inherited_member userLevel) eqn:Hu,
           (names_inherited_member dataLevel) eqn:Hd; try done.
  - apply level_member in Hu as (_ & tu & _ & -> & _).
    by apply level_number in Hd as [-> _].
  - apply level_number in Hu as [-> _].
    by apply level_member in Hd as (_ & td & _ & -> & _).
Qed.

Lemma checkClearance_members userLevel dataLevel userText dataText :
  names_inherited_member userLevel = true →
  names_inherited_member dataLevel = true →
  Object_prototype userLevel = Some userText →
  Object_prototype dataLevel = Some dataText →
  checkClearance userLevel dataLevel = String.leb dataText userText.
Proof.
  intros (_ & tu & Htu & Hu & _)%level_member (_ & td & Htd & Hd & _)%level_member.
  rewrite Htu, Htd. intros [= <-] [= <-].
  unfold checkClearance. cbv zeta. by rewrite Hu, Hd.
Qed.

Lemma checkClearance_same_kind userLevel dataLevel :
  checkClearance userLevel dataLevel = true →
  names_inherited_member dataLevel = names_inherited_member userLevel.
Proof.
  intros Hok.
  destruct (bool_decide (names_inherited_member dataLevel
                         = names_inherited_member userLevel)) eqn:Hsame.
  - by apply bool_decide_eq_true in Hsame.
  - apply bool_decide_eq_false in Hsame.
    rewrite checkClearance_mixed in Hok; [done | congruence].
Qed.

Lemma checkClearance_rank_le userLevel dataLevel :
  checkClearance userLevel dataLevel = true → rank dataLevel <= rank userLevel.
Proof.
  intros Hok. pose proof (checkClearance_same_kind _ _ Hok) as Hkind.
  destruct (names_inherited_member userLevel) eqn:Hu.
  - apply level_member in Hu as [-> _]. apply level_member in Hkind as [-> _]. lia.
  - rewrite (checkClearance_numbers _ _ Hu Hkind) in Hok. by apply Z.leb_le.
Qed.

Lemma checkClearance_rank userLevel dataLevel :
  names_inherited_member userLevel = false →
  (checkClearance userLevel dataLevel = true ↔
   names_inherited_member dataLevel = false ∧ rank userLevel >= rank dataLevel).
Proof.
  intros Hu. split.
  - intros Hok. pose proof (checkClearance_same_kind _ _ Hok) as Hkind.
    rewrite Hu in Hkind. split; [done |].
    apply checkClearance_rank_le in Hok. lia.
  - intros [Hd Hrank]. rewrite (checkClearance_numbers _ _ Hu Hd).
    apply Z.leb_le. lia.
Qed.

(** Among the items a user is cleared for, the comparison of the view
    reconciler ([CLEARANCE_ORDER[a] ?? 0) > (CLEARANCE_ORDER[b] ?? 0)])
    agrees with the ranks. *)
Lemma order_agrees_with_rank userLevel a b :
  checkClearance userLevel a = true →
  checkClearance userLevel b = true →
  (greater (order_of a) (order_of b) = true → rank b <= rank a) ∧
  (greater (order_of a) (order_of b) = false → rank a <= rank b).
Proof.
  intros Ha%checkClearance_same_kind Hb%checkClearance_same_kind.
  destruct (names_inherited_member userLevel).
  - apply level_member in Ha as [-> _]. apply level_member in Hb as [-> _].
    split; lia.
  - apply level_number in Ha as [_ ->]. apply level_number in Hb as [_ ->].
    unfold greater, less. split; [intros ?%Z.ltb_lt | intros ?%Z.ltb_ge]; lia.
Qed.

(** The test of the two filters. *)
Lemma access_test `{Classified A} (user : User) (data : A) :
  names_inherited_member (clearance_level user) = false →
  ((if negb (checkClearance (clearance_level user) (classification_level data))
    then false else checkSectorAccess user data) = true ↔
   names_inherited_member (classification_level data) = false ∧
   rank (clearance_level user) >= rank (classification_level data) ∧
   checkSectorAccess user data = true).
Proof.
  intros Hu.
  pose proof (checkClearance_rank (clearance_level user)
                (classification_level data) Hu) as Hrank.
  destruct (checkClearance _ _); simpl; intuition congruence.
Qed.

Lemma access_test_member `{Classified A} (user : User) (data : A) :
  names_inherited_member (clearance_level user) = true →
  ((if negb (checkClearance (clearance_level user) (classification_level data))
    then false else checkSectorAccess user data) = true ↔
   names_inherited_member (classification_level data) = true ∧
   (∀ userText dataText,
      Object_prototype (clearance_level user) = Some userText →
      Object_prototype (classification_level data) = Some dataText →
      String.leb dataText userText = true) ∧
   checkSectorAccess user data = true).
Proof.
  intros Hu.
  assert (checkClearance (clearance_level user) (classification_level data) = true ↔
          names_inherited_member (classification_level data) = true ∧
          (∀ userText dataText,
             Object_prototype (clearance_level user) = Some userText →
             Object_prototype (classification_level data) = Some dataText →
             String.leb dataText userText = true)) as Hclear.
  { split.
    - intros Hok. pose proof (checkClearance_same_kind _ _ Hok) as Hd.
      rewrite Hu in Hd. split; [done |]. intros userText dataText Htu Htd.
      by rewrite <- (checkClearance_members _ _ _ _ Hu Hd Htu Htd).
    - intros [Hd Hle].
      destruct (level_member _ Hu) as (_ & userText & Htu & _).
      destruct (level_member _ Hd) as (_ & dataText & Htd & _).
      rewrite (checkClearance_members _ _ _ _ Hu Hd Htu Htd). by apply Hle. }
  destruct (checkClearance _ _); simpl; intuition congruence.
Qed.

Lemma access_test_cleared `{Classified A} (user : User) (data : A) :
  (if negb (checkClearance (clearance_level user) (classification_level data))
   then false else checkSectorAccess user data) = true →
  checkClearance (clearance_level user) (classification_level data) = true ∧
  checkSectorAccess user data = true.
Proof. by destruct (checkClearance _ _). Qed.

Lemma checkSectorAccess_attributes `{Classified A} (u1 u2 : User) (data : A) :
  user_attributes u1 = user_attributes u2 →
  checkSectorAccess u1 data = checkSectorAccess u2 data.
Proof. intros Heq. unfold checkSectorAccess. by rewrite Heq. Qed.

Lemma strict_eq_commander v :
  strict_eq v (JsString "commander") = true ↔ v = JsString "commander".
Proof.
  destruct v; simpl; try (split; [discriminate | congruence]).
  rewrite String.eqb_eq. split; congruence.
Qed.

Lemma absent_key_no_sector bag : bag !! "sector" = None → no_sector bag.
Proof. unfold no_sector, sector_of, Js.get. intros ->. reflexivity. Qed.

(** The sector check, case by case, for nodes and edges alike. *)
Lemma checkSectorAccess_cases `{Classified A} (user : User) (data : A) :
  checkSectorAccess user data = true ↔
  is_commander user ∨
  (¬ no_sector (user_attributes user) ∧
   (no_sector (attributes data) ∨
    same_sector (user_attributes user) (attributes data))).
Proof.
  unfold checkSectorAccess, is_commander, no_sector, same_sector, sector_of.
  destruct (strict_eq (Js.get (user_attributes user) "role") (JsString "commander"))
    eqn:Hrole.
  - apply strict_eq_commander in Hrole. tauto.
  - assert (Js.get (user_attributes user) "role" ≠ JsString "commander") as Hne.
    { intros Heq. apply strict_eq_commander in Heq. congruence. }
    destruct (truthy (Js.get (user_attributes user) "sector")); simpl.
    + destruct (truthy (Js.get (attributes data) "sector")); simpl.
      * split; [intros ->; right; split; [discriminate | by right] |].
        intros [? | [_ [? | ?]]]; [done | done | done].
      * split; [intros _; right; split; [discriminate | by left] | done].
    + split; [discriminate |]. intros [? | [? _]]; [done | tauto].
Qed.

End PolicyFacts.

(** *** C2 — the sector check *)

(** C2.  For every user and every node or edge, [checkSectorAccess]
    returns true unconditionally when the user's role attribute is
    "commander"; otherwise it returns false when the user has no sector
    attribute; otherwise it returns true when the data item has no sector
    attribute; otherwise it returns true iff the user's sector attribute
    is exactly equal ([===]) to the data item's sector attribute. *)
Theorem checkSectorAccess_spec :
  ∀ (A : Type) (C : Classified A) (user : User) (data : A),
    (is_commander user → checkSectorAccess user data = true) ∧
    (¬ is_commander user → no_sector (user_attributes user) →
       checkSectorAccess user data = false) ∧
    (¬ is_commander user → ¬ no_sector (user_attributes user) →
       no_sector (attributes data) → checkSectorAccess user data = true) ∧
    (¬ is_commander user → ¬ no_sector (user_attributes user) →
       ¬ no_sector (attributes data) →
       (checkSectorAccess user data = true ↔
        same_sector (user_attributes user) (attributes data))).
Proof.
  intros A C user data.
  pose proof (checkSectorAccess_cases user data) as Hc.
  repeat split.
  - intros Hcmd. apply Hc. by left.
  - intros Hn Hu. apply not_true_is_false. intros Ht.
    apply Hc in Ht as [? | [? _]]; done.
  - intros _ Hu Hd. apply Hc. right. split; [done | by left].
  - intros Ht. apply Hc in Ht as [? | [_ [? | ?]]]; done.
  - intros Hs. apply Hc. right. split; [done | by right].
Qed.


Lemma checkSectorAccess_spec_witness :
  let open := PolicyExamples.node_in None "UNCLASSIFIED" in
  let in_a := PolicyExamples.node_in (Some "A") "CONFIDENTIAL" in
  let in_b := PolicyExamples.node_in (Some "B") "SECRET" in
  checkSectorAccess PolicyExamples.commander in_b = true ∧
  checkSectorAccess PolicyExamples.guest open = false ∧
  checkSectorAccess PolicyExamples.analyst_a open = true ∧
  (checkSectorAccess PolicyExamples.analyst_a in_a = true ↔
   same_sector (user_attributes PolicyExamples.analyst_a) (attributes in_a)) ∧
  checkSectorAccess PolicyExamples.analyst_a in_b = false.
Proof.
  intros open in_a in_b.
  assert (¬ is_commander PolicyExamples.analyst_a) as Hna
    by (intros H; vm_compute in H; discriminate).
  assert (¬ is_commander PolicyExamples.guest) as Hng
    by (intros H; vm_compute in H; discriminate).
  assert (¬ no_sector (user_attributes PolicyExamples.analyst_a)) as Hsa
    by (intros H; vm_compute in H; discriminate).
  split; [| split; [| split; [| split]]].
  - apply (proj1 (checkSectorAccess_spec _ _ PolicyExamples.commander in_b)).
    reflexivity.
  - apply (proj1 (proj2 (checkSectorAccess_spec _ _ PolicyExamples.guest open)));
      [exact Hng | reflexivity].
  - apply (proj1 (proj2 (proj2
             (checkSectorAccess_spec _ _ PolicyExamples.analyst_a open))));
      [exact Hna | exact Hsa | reflexivity].
  - apply (proj2 (proj2 (proj2
             (checkSectorAccess_spec _ _ PolicyExamples.analyst_a in_a))));
      [exact Hna | exact Hsa |].
    intros H; vm_compute in H; discriminate.
  - reflexivity.
Defined.

(** *** C1 — the node-access filter *)




(** ** The data store: budget reset on read *)

Section BudgetReset.
Context `{Host}.

Lemma maybeResetBudget_id now user :
  user_id (maybeResetBudget now user) = user_id user.
Proof.
  unfold maybeResetBudget.
  destruct (Date_parse _); [destruct (Z.geb _ _) |]; reflexivity.
Qed.

Lemma maybeResetBudget_clearance now user :
  clearance_level (maybeResetBudget now user) = clearance_level user.
Proof.
  unfold maybeResetBudget.
  destruct (Date_parse _); [destruct (Z.geb _ _) |]; reflexivity.
Qed.

Lemma getMaxBudget_cases level :
  (level = "SECRET" → getMaxBudget level = 20) ∧
  (level = "CONFIDENTIAL" → getMaxBudget level = 8) ∧
  (level ≠ "SECRET" → level ≠ "CONFIDENTIAL" → getMaxBudget level = 5).
Proof.
  unfold getMaxBudget. repeat split.
  - intros ->. reflexivity.
  - intros ->. reflexivity.
  - intros HS HC.
    destruct (String.eqb_spec level "SECRET"); [done |].
    destruct (String.eqb_spec level "CONFIDENTIAL"); done.
Qed.

(** What [find] sees after the found element was updated in place by a
    function that keeps the search key. *)
Lemma find_modify_first {A : Type} (p : A → bool) (f : A → A) (l : list A) (x : A) :
  (∀ y, p (f y) = p y) →
  List.find p l = Some x →
  List.find p (modify_first p f l) = Some (f x).
Proof.
  intros Hkey. induction l as [| y l IH]; simpl; [discriminate |].
  destruct (p y) eqn:Hy; simpl.
  - intros [= ->]. by rewrite Hkey, Hy.
  - rewrite Hy. exact IH.
Qed.

Lemma maybeResetBudget_username now user :
  username (maybeResetBudget now user) = username user.
Proof.
  unfold maybeResetBudget.
  destruct (Date_parse _); [destruct (Z.geb _ _) |]; reflexivity.
Qed.

Lemma findUserById_found now id st user :
  List.find (fun u => String.eqb (user_id u) id) (usersStore st) = Some user →
  findUserById now id st =
    (Some (clone (maybeResetBudget now user)),
     with_users (modify_first (fun u => String.eqb (user_id u) id)
                              (maybeResetBudget now)) st).
Proof.
  intros Hfind. unfold findUserById, mbind, async_bind, get_store; simpl.
  rewrite Hfind. reflexivity.
Qed.

Lemma findUserByUsername_found now uname st user :
  List.find (fun u => String.eqb (toLowerCase (username u)) (toLowerCase uname))
            (usersStore st) = Some user →
  findUserByUsername now uname st =
    (Some (clone (maybeResetBudget now user)),
     with_users
       (modify_first
          (fun u => String.eqb (toLowerCase (username u)) (toLowerCase uname))
          (maybeResetBudget now)) st).
Proof.
  intros Hfind. unfold findUserByUsername, mbind, async_bind, get_store; simpl.
  rewrite Hfind. reflexivity.
Qed.

End BudgetReset.

(** C6.  For every user record whose [budget_reset_at] denotes the
    instant [resetAt], a read at clock reading [now] ([findUserById],
    [findUserByUsername]) stores the record [user'] and returns its
    clone, which has the same two fields, such that: when
    [now >= resetAt], [query_budget] is the clearance-dependent maximum
    (SECRET→20, CONFIDENTIAL→8, otherwise→5) and [budget_reset_at] is
    the ISO text of exactly [now] + one hour; when [now < resetAt], both
    fields are as they were. *)
Theorem budget_reset_on_read :
  ∀ (H : Host) (now : Z) (user : User) (resetAt : Z),
    Date_parse (budget_reset_at user) = Some resetAt →
    ∃ user' : User,
      (now >= resetAt →
         (clearance_level user = "SECRET" → query_budget user' = 20) ∧
         (clearance_level user = "CONFIDENTIAL" → query_budget user' = 8) ∧
         (clearance_level user ≠ "SECRET" →
          clearance_level user ≠ "CONFIDENTIAL" → query_budget user' = 5) ∧
         budget_reset_at user' = Date_toISOString (now + 60 * 60 * 1000)) ∧
      (now < resetAt →
         query_budget user' = query_budget user ∧
         budget_reset_at user' = budget_reset_at user) ∧
      (query_budget (clone user') = query_budget user' ∧
       budget_reset_at (clone user') = budget_reset_at user') ∧
      (∀ (st : Store) (id : string),
         let found := fun u => String.eqb (user_id u) id in
         List.find found (usersStore st) = Some user →
         ∃ st', findUserById now id st = (Some (clone user'), st') ∧
                List.find found (usersStore st') = Some user') ∧
      (∀ (st : Store) (uname : string),
         let found :=
           fun u => String.eqb (toLowerCase (username u)) (toLowerCase uname) in
         List.find found (usersStore st) = Some user →
         ∃ st', findUserByUsername now uname st = (Some (clone user'), st') ∧
                List.find found (usersStore st') = Some user').
Proof.
  intros H now user resetAt Hparse. exists (maybeResetBudget now user).
  split; [| split; [| split; [| split]]].
  - unfold maybeResetBudget. rewrite Hparse.
    intros Hge. assert (Z.geb now resetAt = true) as -> by (apply Z.geb_le; lia).
    simpl. pose proof (getMaxBudget_cases (clearance_level user)) as (HS & HC & HO).
    repeat split; assumption.
  - unfold maybeResetBudget. rewrite Hparse.
    intros Hlt. assert (Z.geb now resetAt = false) as ->; [| done].
    apply not_true_is_false. rewrite Z.geb_le. lia.
  - split; reflexivity.
  - intros st id found Hfind. eexists. split; [by apply findUserById_found |].
    simpl. apply find_modify_first; [| done].
    intros y. unfold found. by rewrite maybeResetBudget_id.
  - intros st uname found Hfind. eexists.
    split; [by apply findUserByUsername_found |].
    simpl. apply find_modify_first; [| done].
    intros y. unfold found. by rewrite maybeResetBudget_username.
Qed.

(** ** The graph-view reconciler *)

Section InsertionOrderedMaps.
Context {V : Type}.
Implicit Types (m : JsMap V) (k : string) (v : V).

Lemma jsmap_get_set k k' v m :
  jsmap_get k' (jsmap_set k v m) =
  if String.eqb k k' then Some v else jsmap_get k' m.
Proof.
  induction m as [| [k0 v0] m IH]; simpl; [done |].
  destruct (String.eqb_spec k0 k) as [-> | Hne]; simpl.
  - by destruct (String.eqb k k').
  - rewrite IH. destruct (String.eqb_spec k0 k') as [-> | Hne']; [| done].
    by destruct (String.eqb_spec k k').
Qed.

Lemma jsmap_set_entries k k' v v' m :
  (k', v') ∈ jsmap_set k v m → (k' = k ∧ v' = v) ∨ (k', v') ∈ m.
Proof.
  induction m as [| [k0 v0] m IH]; simpl.
  - intros Hin. apply list_elem_of_singleton in Hin as [= -> ->]. by left.
  - destruct (String.eqb_spec k0 k) as [-> | Hne]; intros Hin;
      apply elem_of_cons in Hin as [Heq | Hin].
    + injection Heq as -> ->. by left.
    + right. by apply elem_of_cons; right.
    + right. rewrite Heq. by apply elem_of_cons; left.
    + destruct (IH Hin) as [? | ?]; [by left | right; by apply elem_of_cons; right].
Qed.

Lemma jsmap_set_keys k k' v m :
  k' ∈ (jsmap_set k v m).*1 → k' = k ∨ k' ∈ m.*1.
Proof.
  intros Hin. apply list_elem_of_fmap in Hin as [[k1 v1] [-> Hin]].
  apply jsmap_set_entries in Hin as [[-> _] | Hin]; [by left | right].
  apply list_elem_of_fmap. by exists (k1, v1).
Qed.

Lemma jsmap_set_NoDup k v m : NoDup m.*1 → NoDup (jsmap_set k v m).*1.
Proof.
  induction m as [| [k0 v0] m IH]; simpl.
  - intros _. apply NoDup_singleton.
  - intros Hnd. apply NoDup_cons in Hnd as [Hk0 Hnd].
    destruct (String.eqb_spec k0 k) as [-> | Hne]; simpl.
    + by apply NoDup_cons.
    + apply NoDup_cons. split; [| by apply IH].
      intros Hin. apply jsmap_set_keys in Hin as [-> | ?]; done.
Qed.

Lemma jsmap_get_entry k v m : jsmap_get k m = Some v → (k, v) ∈ m.
Proof.
  induction m as [| [k0 v0] m IH]; simpl; [done |].
  destruct (String.eqb_spec k0 k) as [-> | Hne].
  - intros [= ->]. by apply elem_of_cons; left.
  - intros Hget. apply elem_of_cons; right. by apply IH.
Qed.

Lemma jsmap_entry_get k v m : NoDup m.*1 → (k, v) ∈ m → jsmap_get k m = Some v.
Proof.
  induction m as [| [k0 v0] m IH]; simpl; [by intros _ ?%elem_of_nil |].
  intros Hnd Hin. apply NoDup_cons in Hnd as [Hk0 Hnd].
  apply elem_of_cons in Hin as [[= -> ->] | Hin].
  - by rewrite String.eqb_refl.
  - destruct (String.eqb_spec k0 k) as [-> | Hne]; [| by apply IH].
    exfalso. apply Hk0. apply list_elem_of_fmap. by exists (k, v).
Qed.

(** Among the values of a map whose entries carry their own key
    ([key_of v = k] for every entry), exactly one has a given present key. *)
Lemma jsmap_values_unique (key_of : V → string) k v m :
  NoDup m.*1 →
  (∀ k' v', (k', v') ∈ m → key_of v' = k') →
  jsmap_get k m = Some v →
  List.filter (fun x => String.eqb (key_of x) k) (jsmap_values m) = [v].
Proof.
  unfold jsmap_values.
  induction m as [| [k0 v0] m IH]; simpl; [done |].
  intros Hnd Hkeys Hget. apply NoDup_cons in Hnd as [Hk0 Hnd].
  assert (key_of v0 = k0) as Hv0 by (apply Hkeys; by apply elem_of_cons; left).
  assert (∀ k' v', (k', v') ∈ m → key_of v' = k') as Hkeys'
    by (intros ? ? ?; apply Hkeys; by apply elem_of_cons; right).
  rewrite Hv0. destruct (String.eqb_spec k0 k) as [-> | Hne].
  - injection Hget as ->. f_equal.
    clear IH Hkeys Hv0. induction m as [| [k1 v1] m IHm]; simpl; [done |].
    assert (key_of v1 = k1) as Hv1 by (apply Hkeys'; by apply elem_of_cons; left).
    rewrite Hv1. destruct (String.eqb_spec k1 k) as [-> | Hne1].
    + exfalso. apply Hk0. simpl. by apply elem_of_cons; left.
    + apply NoDup_cons in Hnd as [_ Hnd]. apply IHm; [| done |].
      * intros Hin. apply Hk0. simpl. by apply elem_of_cons; right.
      * intros ? ? ?. apply Hkeys'. by apply elem_of_cons; right.
  - by apply IH.
Qed.

Lemma js_map_of_entry (entries : list (string * V)) k v :
  js_map_of entries !! k = Some v → (k, v) ∈ entries.
Proof.
  unfold js_map_of.
  assert (∀ (m0 : gmap string V),
            foldl (fun acc kv => <[kv.1 := kv.2]> acc) m0 entries !! k = Some v →
            (k, v) ∈ entries ∨ m0 !! k = Some v) as Hgen.
  { induction entries as [| [k0 v0] entries IH]; simpl; intros m0 Hl; [by right |].
    destruct (IH _ Hl) as [Hin | Hm0]; [left; by apply elem_of_cons; right |].
    destruct (decide (k0 = k)) as [-> | Hne].
    - rewrite lookup_insert_eq in Hm0. injection Hm0 as ->.
      left. by apply elem_of_cons; left.
    - rewrite lookup_insert_ne in Hm0 by done. by right. }
  intros Hl. destruct (Hgen ∅ Hl) as [? | Hempty]; [done |].
  by rewrite lookup_empty in Hempty.
Qed.

End InsertionOrderedMaps.

Section VirtualView.
Context `{Host}.

Lemma choice_inv_nil : choice_inv [] [].
Proof.
  split; [apply NoDup_nil_2 |]. split; [done |]. by intros n ?%elem_of_nil.
Qed.

(** One turn of the loop over nodes the user is cleared for. *)
Lemma choice_inv_step userLevel processed m node :
  (∀ n, n ∈ processed →
     checkClearance userLevel (node_classification_level n) = true) →
  checkClearance userLevel (node_classification_level node) = true →
  choice_inv processed m →
  choice_inv (processed ++ [node])%list (chooseNode m node).
Proof.
  intros Hcleared Hnode (Hnd & Hbest & Hall). unfold chooseNode.
  assert (∀ n', n' ∈ (processed ++ [node])%list → n' ∈ processed ∨ n' = node) as Hsplit.
  { intros n' Hin. apply elem_of_app in Hin as [? | Hin]; [by left |].
    apply list_elem_of_singleton in Hin. by right. }
  destruct (jsmap_get (node_logical_id node) m) as [current |] eqn:Hcur.
  - destruct (Hbest _ _ Hcur) as (Hcid & Hcin & Hcmax).
    destruct (order_agrees_with_rank userLevel
                (node_classification_level node)
                (node_classification_level current) Hnode (Hcleared _ Hcin))
      as [Hgt Hle].
    destruct (greater (order_of (node_classification_level node))
                      (order_of (node_classification_level current))).
    + specialize (Hgt eq_refl).
      split; [by apply jsmap_set_NoDup |]. split.
      * intros k n. rewrite jsmap_get_set.
        destruct (String.eqb_spec (node_logical_id node) k) as [<- | Hne].
        -- intros [= <-]. split; [done |]. split; [apply elem_of_app; right; by left |].
           intros n' [Hin | ->]%Hsplit Hid; [| lia].
           specialize (Hcmax n' Hin Hid). lia.
        -- intros Hget. destruct (Hbest _ _ Hget) as (Hid & Hin & Hmax).
           split; [done |]. split; [apply elem_of_app; by left |].
           intros n' [Hin' | ->]%Hsplit Hid'; [by apply Hmax | done].
      * intros n' [Hin | ->]%Hsplit; rewrite jsmap_get_set.
        -- destruct (String.eqb _ _); [done | by apply Hall].
        -- by rewrite String.eqb_refl.
    + specialize (Hle eq_refl).
      split; [done |]. split.
      * intros k n Hget. destruct (Hbest _ _ Hget) as (Hid & Hin & Hmax).
        split; [done |]. split; [apply elem_of_app; by left |].
        intros n' [Hin' | ->]%Hsplit Hid'; [by apply Hmax |].
        rewrite Hid' in Hcur. rewrite Hcur in Hget. injection Hget as <-. lia.
      * intros n' [Hin | ->]%Hsplit; [by apply Hall | by rewrite Hcur].
  - split; [by apply jsmap_set_NoDup |]. split.
    + intros k n. rewrite jsmap_get_set.
      destruct (String.eqb_spec (node_logical_id node) k) as [<- | Hne].
      * intros [= <-]. split; [done |]. split; [apply elem_of_app; right; by left |].
        intros n' [Hin | ->]%Hsplit Hid; [| lia].
        destruct (Hall _ Hin) as [x Hx]. rewrite Hid, Hcur in Hx. done.
      * intros Hget. destruct (Hbest _ _ Hget) as (Hid & Hin & Hmax).
        split; [done |]. split; [apply elem_of_app; by left |].
        intros n' [Hin' | ->]%Hsplit Hid'; [by apply Hmax | done].
    + intros n' [Hin | ->]%Hsplit; rewrite jsmap_get_set.
      * destruct (String.eqb _ _); [done | by apply Hall].
      * by rewrite String.eqb_refl.
Qed.

Lemma choice_inv_foldl userLevel todo processed m :
  (∀ n, n ∈ (processed ++ todo)%list →
     checkClearance userLevel (node_classification_level n) = true) →
  choice_inv processed m →
  choice_inv (processed ++ todo)%list (foldl chooseNode m todo).
Proof.
  revert processed m. induction todo as [| node todo IH]; intros processed m Hcleared Hinv.
  - by rewrite app_nil_r.
  - simpl. replace (processed ++ node :: todo)%list
      with ((processed ++ [node]) ++ todo)%list in * by (by rewrite <- app_assoc).
    apply IH; [done |]. apply (choice_inv_step userLevel); [| | done].
    + intros n Hin. apply Hcleared. apply elem_of_app. left. apply elem_of_app. by left.
    + apply Hcleared. apply elem_of_app. left. apply elem_of_app. right. by left.
Qed.

Lemma accessible_node_cleared user (allNodes : list GraphNode) n :
  n ∈ filterAccessibleNodes user allNodes →
  checkClearance (clearance_level user) (node_classification_level n) = true.
Proof.
  unfold filterAccessibleNodes. intros [_ Hok]%list_elem_of_In%filter_In.
  by apply access_test_cleared in Hok as [? _].
Qed.

Lemma getGraphData_run user options st :
  ∃ view, getGraphData user options st = (view, st).
Proof.
  unfold getGraphData, mbind, async_bind, getAllNodes, getAllEdges, get_store,
    mret, async_ret; simpl.
  destruct (mode options); eauto.
Qed.

End VirtualView.

(** C7.  In virtual view mode, for every logical id that occurs in a
    node accessible to the user, the returned node list holds exactly one
    node with that logical id; that node is an accessible node of
    maximal classification rank among the accessible nodes sharing the
    logical id; and no node is returned that is not accessible. *)
Theorem virtual_view_one_best_node_per_logical_id :
  ∀ (H : Host) (user : User) (lvl : option string) (ovl : option (list string)) (st : Store),
    let accessible := filterAccessibleNodes user (getAllNodes st).1 in
    let view := (getGraphData user (mkOptions mode_virtual lvl ovl) st).1 in
    (∀ n, n ∈ accessible →
       ∃ best,
         List.filter
           (fun x => String.eqb (node_logical_id x) (node_logical_id n))
           (nodes view) = [best] ∧
         best ∈ accessible ∧
         ∀ n', n' ∈ accessible → node_logical_id n' = node_logical_id n →
               rank (node_classification_level n')
               <= rank (node_classification_level best)) ∧
    (∀ x, x ∈ nodes view → x ∈ accessible).
Proof.
  intros H user lvl ovl st accessible view.
  assert (choice_inv accessible (foldl chooseNode [] accessible)) as Hinv.
  { apply (choice_inv_foldl (clearance_level user) accessible [] []);
      [| apply choice_inv_nil].
    intros n Hin. by eapply accessible_node_cleared. }
  destruct Hinv as (Hnd & Hbest & Hall).
  assert (nodes view = jsmap_values (foldl chooseNode [] accessible)) as Hview
    by reflexivity.
  rewrite Hview. split.
  - intros n Hin. destruct (Hall n Hin) as [best Hget].
    exists best. destruct (Hbest _ _ Hget) as (Hid & Hbin & Hmax).
    split; [| split; [done |]].
    + apply jsmap_values_unique; [done | | done].
      intros k' v' Hentry. apply (jsmap_entry_get _ _ _ Hnd) in Hentry.
      by destruct (Hbest _ _ Hentry).
    + intros n' Hin' Hid'. by apply Hmax.
  - intros x Hx. unfold jsmap_values in Hx.
    apply list_elem_of_In, in_map_iff in Hx as [[k v] [<- Hentry]].
    apply list_elem_of_In, (jsmap_entry_get _ _ _ Hnd) in Hentry.
    by destruct (Hbest _ _ Hentry) as (_ & ? & _).
Qed.

Section ReferentialClosure.
Context `{Host}.

Lemma has_node_ids (ns : list GraphNode) (x : string) :
  has (list_to_set (List.map node_id ns)) x = true →
  ∃ n, n ∈ ns ∧ x = node_id n.
Proof.
  unfold has. intros Hhas%bool_decide_eq_true.
  apply elem_of_list_to_set, list_elem_of_In, in_map_iff in Hhas as [n [<- Hin]].
  exists n. split; [by apply list_elem_of_In | done].
Qed.

Lemma chooseEdge_closed nodeById (ns : list GraphNode) edgesMap edge :
  (∀ k e, (k, e) ∈ edgesMap → closed_in ns e) →
  ∀ k e,
    (k, e) ∈ chooseEdge nodeById
               (js_map_of (List.map (fun n => (node_logical_id n, n)) ns))
               edgesMap edge →
    closed_in ns e.
Proof.
  intros Hold k e. unfold chooseEdge.
  destruct (nodeById !! source_node_id edge) as [sourceOriginal |]; [| by apply Hold].
  destruct (nodeById !! target_node_id edge) as [targetOriginal |]; [| by apply Hold].
  destruct (js_map_of _ !! node_logical_id sourceOriginal)
    as [bestSource |] eqn:Hs; [| by apply Hold].
  destruct (js_map_of _ !! node_logical_id targetOriginal)
    as [bestTarget |] eqn:Ht; [| by apply Hold].
  apply js_map_of_entry, list_elem_of_In, in_map_iff in Hs as [s [[= _ ->] Hsin]].
  apply js_map_of_entry, list_elem_of_In, in_map_iff in Ht as [t [[= _ ->] Htin]].
  apply list_elem_of_In in Hsin, Htin.
  set (candidate := set_endpoints (node_id bestSource) (node_id bestTarget) edge).
  assert (closed_in ns candidate) as Hcand.
  { split; [by exists bestSource | by exists bestTarget]. }
  set (key := if String.eqb (edge_logical_id edge) "" then _ else _).
  assert (∀ k e, (k, e) ∈ jsmap_set key candidate edgesMap → closed_in ns e) as Hnew.
  { intros k' e' [[_ ->] | Hin]%jsmap_set_entries; [done | by eapply Hold]. }
  destruct (jsmap_get key edgesMap) as [existing |]; [| by apply Hnew].
  destruct (greater _ _); [by apply Hnew | by apply Hold].
Qed.

Lemma foldl_chooseEdge_closed nodeById (ns : list GraphNode) todo edgesMap :
  (∀ k e, (k, e) ∈ edgesMap → closed_in ns e) →
  ∀ k e,
    (k, e) ∈ foldl (chooseEdge nodeById
                      (js_map_of (List.map (fun n => (node_logical_id n, n)) ns)))
                   edgesMap todo →
    closed_in ns e.
Proof.
  revert edgesMap. induction todo as [| edge todo IH]; intros edgesMap Hold; [done |].
  simpl. apply IH. by apply chooseEdge_closed.
Qed.

End ReferentialClosure.

(** C10.  For every user and every view mode (level, overlay, virtual),
    each edge returned by [getGraphData] has its [source_node_id] and
    its [target_node_id] equal to the id of a node of the node list
    returned by the same call. *)
Theorem graph_view_referentially_closed :
  ∀ (H : Host) (user : User) (options : GraphDataOptions) (st : Store) (e : GraphEdge),
    let view := (getGraphData user options st).1 in
    e ∈ edges view →
    (∃ n, n ∈ nodes view ∧ source_node_id e = node_id n) ∧
    (∃ n, n ∈ nodes view ∧ target_node_id e = node_id n).
Proof.
  intros H user [[| |] lvl ovl] st e view; subst view;
    unfold getGraphData, mbind, async_bind, getAllNodes, getAllEdges, get_store,
      mret, async_ret; cbn [fst mode nodes edges].
  - (* virtual *)
    intros He. unfold jsmap_values in He.
    apply list_elem_of_In, in_map_iff in He as [[k e'] [<- Hentry]].
    apply list_elem_of_In in Hentry.
    eapply foldl_chooseEdge_closed; [| exact Hentry].
    by intros ? ? ?%elem_of_nil.
  - (* level *)
    intros He. apply list_elem_of_In, filter_In in He as [_ Hkeep].
    apply andb_prop in Hkeep as [Hkeep Ht]. apply andb_prop in Hkeep as [_ Hs].
    split; by apply has_node_ids.
  - (* overlay *)
    intros He. apply list_elem_of_In, filter_In in He as [_ Hkeep].
    apply andb_prop in Hkeep as [Hkeep Ht]. apply andb_prop in Hkeep as [_ Hs].
    split; by apply has_node_ids.
Qed.

(** ** The query pipeline *)

Section Pipeline.
Context `{Host}.

Lemma logAuditEntry_run now user queryText queryType resultCount granted reason st :
  logAuditEntry now user queryText queryType resultCount granted reason st =
  (tt, with_audit
         (cons (auditRecord (draws st) now user queryText queryType resultCount
                            granted reason))
         (with_draws S st)).
Proof. reflexivity. Qed.

Lemma executeNaturalLanguageQuery_denied nowBudget nowAudit user queryText st :
  checkQueryBudget user = false →
  executeNaturalLanguageQuery nowBudget nowAudit user queryText st =
  ((mkResult false None None
             (Some "Исчерпан бюджет запросов. Подождите восстановления.")
             (Some "Бюджет исчерпан") None,
    user),
   with_audit
     (cons (auditRecord (draws st) nowAudit user queryText "NL_QUERY" 0 false
                        (Some BUDGET_EXHAUSTED)))
     (with_draws S st)).
Proof.
  intros Hbudget. unfold executeNaturalLanguageQuery. rewrite Hbudget. reflexivity.
Qed.

Lemma executeNaturalLanguageQuery_unrecognized nowBudget nowAudit user queryText st :
  checkQueryBudget user = true →
  parseNaturalLanguage queryText = None →
  executeNaturalLanguageQuery nowBudget nowAudit user queryText st =
  ((unrecognizedResult queryText, user), st).
Proof.
  intros Hbudget Hparse. unfold executeNaturalLanguageQuery.
  rewrite Hbudget, Hparse. reflexivity.
Qed.

Lemma executeNaturalLanguageQuery_parsed nowBudget nowAudit user queryText st parsed :
  checkQueryBudget user = true →
  parseNaturalLanguage queryText = Some parsed →
  executeNaturalLanguageQuery nowBudget nowAudit user queryText st =
  executeParsed nowBudget nowAudit user queryText parsed st.
Proof.
  intros Hbudget Hparse. unfold executeNaturalLanguageQuery.
  rewrite Hbudget, Hparse. reflexivity.
Qed.

(** [decrementBudget] touches the users only. *)
Lemma decrementBudget_run now id st :
  ∃ users', decrementBudget now id st = (tt, with_users (fun _ => users') st).
Proof.
  unfold decrementBudget, mbind, async_bind, get_store; simpl.
  destruct (List.find _ (usersStore st)).
  - eexists. unfold modify_store. reflexivity.
  - exists (usersStore st). unfold mret, async_ret. by destruct st.
Qed.

End Pipeline.

(** *** C4 — the budget gate *)

(** C4.  For every user whose [query_budget] is not > 0 at request
    time, [executeNaturalLanguageQuery] prepends one audit entry with
    result_count = 0, granted = false and reason BUDGET_EXHAUSTED,
    returns a denial (success = false, a denial reason, no data), and
    leaves the stored users, hence the stored [query_budget], and the
    caller's user object as they were. *)
Theorem budget_exhausted_is_denied_and_audited :
  ∀ (H : Host) (nowBudget nowAudit : Z) (user : User) (queryText : string)
    (st : Store),
    ¬ (query_budget user > 0) →
    let outcome := executeNaturalLanguageQuery nowBudget nowAudit user queryText st in
    let result := outcome.1.1 in
    let st' := outcome.2 in
    (∃ entry,
       auditLogStore st' = entry :: auditLogStore st ∧
       audit_user_id entry = user_id user ∧
       query_text entry = queryText ∧
       result_count entry = 0 ∧
       access_granted entry = false ∧
       denial_reason entry = Some "BUDGET_EXHAUSTED") ∧
    success result = false ∧
    is_Some (denialReason result) ∧
    data result = None ∧
    usersStore st' = usersStore st ∧
    outcome.1.2 = user.
Proof.
  intros H nowBudget nowAudit user queryText st Hbudget outcome result st'.
  assert (checkQueryBudget user = false) as Hcheck.
  { unfold checkQueryBudget. apply not_true_is_false. rewrite Z.gtb_gt. lia. }
  subst result st' outcome.
  rewrite (executeNaturalLanguageQuery_denied _ _ _ _ _ Hcheck). cbn.
  split; [eexists; repeat split |]; repeat split; eauto.
Qed.

Section PipelineOutcome.
Context `{Host}.

(** The three ways [executeParsed] ends, by the size of the filtered set. *)
Lemma executeParsed_run nowBudget nowAudit user queryText parsed st :
  let filtered := filterNodes user parsed (getAllNodes st).1 in
  let count := Z.of_nat (length filtered) in
  ∃ users',
    let st1 := with_users (fun _ => users') st in
    let logged := fun n reason =>
      with_audit
        (cons (auditRecord (draws st) nowAudit (spent user) queryText "NL_QUERY"
                           n true reason))
        (with_draws S st1) in
    executeParsed nowBudget nowAudit user queryText parsed st =
    if Z.eqb count 0 then
      ((mkResult true (Some (DataNodes [])) (Some false) None None
                 (Some (buildExplanation parsed queryText)),
        spent user),
       logged 0 None)
    else if negb (checkKAnonymity count None) then
      ((mkResult true
                 (Some (DataAggregate count
                          "Выборка слишком мала для раскрытия деталей (защита k-анонимностью)"))
                 (Some true) None (Some K_ANONYMITY)
                 (Some (buildExplanation parsed queryText)),
        spent user),
       logged count (Some K_ANONYMITY))
    else
      ((mkResult true (Some (DataNodes filtered)) None None None
                 (Some (buildExplanation parsed queryText)),
        spent user),
       logged count None).
Proof.
  intros filtered count.
  destruct (decrementBudget_run nowBudget (user_id user) st) as [users' Hdec].
  exists users'. unfold executeParsed, getAllNodes.
  unfold mbind, async_bind, get_store, mret, async_ret.
  cbn beta iota zeta. rewrite Hdec. cbn beta iota zeta.
  change (filterNodes user parsed (clone (nodesStore st))) with filtered.
  fold count. fold (spent user).
  destruct (Z.eqb count 0); [reflexivity |].
  destruct (negb (checkKAnonymity count None)); reflexivity.
Qed.

End PipelineOutcome.

(** *** C3 — the k-anonymity gate *)

(** C3.  For every query that reaches the filters (budget available,
    text understood) and whose final filtered set has size N: when
    0 < N < 2 the pipeline returns a Success result whose data is the
    aggregate (count = N, message) and not a list of node records, with
    denial reason K_ANONYMITY, and prepends an audit entry with
    granted = true and result_count = N; when N >= 2 it returns the full
    filtered node list. *)
Theorem k_anonymity_gate :
  ∀ (H : Host) (nowBudget nowAudit : Z) (user : User) (queryText : string)
    (st : Store) (parsed : ParsedQuery),
    query_budget user > 0 →
    parseNaturalLanguage queryText = Some parsed →
    let filtered := filterNodes user parsed (getAllNodes st).1 in
    let N := Z.of_nat (length filtered) in
    let outcome := executeNaturalLanguageQuery nowBudget nowAudit user queryText st in
    let result := outcome.1.1 in
    (0 < N < 2 →
       success result = true ∧
       (∃ message, data result = Some (DataAggregate N message)) ∧
       aggregated result = Some true ∧
       denialReason result = Some "K_ANONYMITY" ∧
       ∃ entry,
         auditLogStore outcome.2 = entry :: auditLogStore st ∧
         access_granted entry = true ∧
         result_count entry = N ∧
         denial_reason entry = Some "K_ANONYMITY") ∧
    (2 <= N →
       success result = true ∧
       data result = Some (DataNodes filtered)).
Proof.
  intros H nowBudget nowAudit user queryText st parsed Hbudget Hparse
         filtered N outcome result.
  assert (checkQueryBudget user = true) as Hcheck
    by (unfold checkQueryBudget; apply Z.gtb_gt; lia).
  subst result outcome.
  rewrite (executeNaturalLanguageQuery_parsed _ _ _ _ _ _ Hcheck Hparse).
  destruct (executeParsed_run nowBudget nowAudit user queryText parsed st)
    as [users' Hrun].
  cbv zeta in Hrun. fold filtered in Hrun. fold N in Hrun. rewrite Hrun.
  unfold checkKAnonymity. cbn [default].
  split.
  - intros HN. assert (N = 1) as HN1 by lia.
    rewrite HN1. cbn. repeat split; eauto.
  - intros HN. destruct (Z.eqb_spec N 0) as [? | _]; [lia |].
    destruct (Z.geb_spec N 2) as [_ | ?]; [| lia]. cbn. split; reflexivity.
Qed.

(** *** C8 — the AND/OR flag *)

Section FlatAnd.
Context `{Host}.

Lemma filter_fuse {A : Type} (p q : A → bool) (l : list A) :
  List.filter q (List.filter p l) = List.filter (fun x => p x && q x) l.
Proof.
  induction l as [| x l IH]; [done |]. cbn.
  destruct (p x); cbn; [destruct (q x) |]; by rewrite IH.
Qed.

Lemma filter_when {A : Type} (c : bool) (p : A → bool) (l : list A) :
  (if c then List.filter p l else l)
  = List.filter (fun x => if c then p x else true) l.
Proof.
  destruct c; [done |]. induction l as [| x l IH]; [done |]. cbn. by rewrite <- IH.
Qed.

Lemma filter_option {A B : Type} (o : option B) (p : B → A → bool) (l : list A) :
  match o with Some b => List.filter (p b) l | None => l end
  = List.filter (fun x => match o with Some b => p b x | None => true end) l.
Proof.
  destruct o; [done |]. induction l as [| x l IH]; [done |]. cbn. by rewrite <- IH.
Qed.

Lemma filter_guarded {A B : Type} (o : option B) (c : B → bool) (p : B → A → bool)
    (l : list A) :
  match o with
  | Some b => if c b then List.filter (p b) l else l
  | None => l
  end
  = List.filter
      (fun x => match o with Some b => if c b then p b x else true | None => true end)
      l.
Proof.
  destruct o as [b |]; [destruct (c b) |]; [done | |];
    (induction l as [| x l IH]; [done |]; cbn; by rewrite <- IH).
Qed.

(** The cascade of filters is one filter by the conjunction. *)
Lemma filterNodes_flat_and user parsed allNodes :
  filterNodes user parsed allNodes
  = limited parsed (List.filter (passesEveryFilter user parsed) allNodes).
Proof.
  unfold filterNodes, limited, filterAccessibleNodes. cbv zeta.
  rewrite (filter_when (present (entityType parsed))).
  rewrite (filter_when (negb (length (sectorFilters parsed) =? 0)%nat)).
  rewrite (filter_when (present (levelFilter parsed))).
  rewrite (filter_when (negb (length (statusFilters parsed) =? 0)%nat)).
  rewrite (filter_when (negb (length (categoryFilters parsed) =? 0)%nat)).
  rewrite (filter_when (negb (length (comparisons parsed) =? 0)%nat)).
  rewrite (filter_option (timeRange parsed) inTimeRange).
  rewrite (filter_option (geoFilter parsed) withinRadius).
  rewrite (filter_guarded (timeWindowHours parsed)
             (fun hours => truthy (JsNumber hours) && (0 <? hours)%float)
             (fun hours => seenSince (windowCutoff hours))).
  rewrite !filter_fuse.
  rewrite (List.filter_ext _ (passesEveryFilter user parsed)); [reflexivity |].
  intros node. unfold passesEveryFilter. cbn [classification_level node_classified].
  destruct (checkClearance _ _); cbn [negb andb].
  - rewrite ?andb_assoc. reflexivity.
  - destruct (if present (entityType parsed) then _ else true); reflexivity.
Qed.

End FlatAnd.

(** C8.  For every parsed query and every value of the AND/OR flag,
    replacing the flag leaves the filtered node set unchanged; that set
    is, whatever the flag, the nodes that pass every present filter at
    once (flat AND), cut to the result limit; and the run of the
    pipeline on the two parsed queries yields the same data, the same
    success, aggregation and denial marks, the same user object and the
    same store (audit entry included): only the logic tag of the
    explanation follows the flag. *)
Theorem logic_flag_never_changes_the_filtered_set :
  ∀ (H : Host) (user : User) (parsed : ParsedQuery) (op : LogicOperator)
    (allNodes : list GraphNode) (nowBudget nowAudit : Z) (queryText : string)
    (st : Store),
    filterNodes user (with_logic op parsed) allNodes
    = filterNodes user parsed allNodes ∧
    filterNodes user (with_logic op parsed) allNodes
    = limited parsed (List.filter (passesEveryFilter user parsed) allNodes) ∧
    let base := executeParsed nowBudget nowAudit user queryText parsed st in
    executeParsed nowBudget nowAudit user queryText (with_logic op parsed) st
    = ((with_explained_logic op base.1.1, base.1.2), base.2).
Proof.
  intros H user parsed op allNodes nowBudget nowAudit queryText st.
  split; [reflexivity |].
  split; [exact (filterNodes_flat_and user parsed allNodes) |].
  destruct (decrementBudget_run nowBudget (user_id user) st) as [users' Hdec].
  unfold executeParsed, getAllNodes.
  unfold mbind, async_bind, get_store, mret, async_ret.
  cbn beta iota zeta. rewrite Hdec. cbn beta iota zeta.
  change (filterNodes user (with_logic op parsed) (clone (nodesStore st)))
    with (filterNodes user parsed (clone (nodesStore st))).
  destruct (Z.eqb _ 0); [reflexivity |].
  destruct (negb (checkKAnonymity _ None)); reflexivity.
Qed.

(** *** C5 — texts that are not understood *)

Section Unrecognized.
Context `{Host}.




Lemma parseNaturalLanguage_Some queryText parsed :
  parseNaturalLanguage queryText = Some parsed →
  entityType parsed = extractedEntityType queryText ∧
  categoryFilters parsed = extractedCategoryFilters queryText ∧
  statusFilters parsed = extractedStatusFilters queryText ∧
  comparisons parsed = extractedComparisons queryText.
Proof.
  unfold parseNaturalLanguage, extractedEntityType, extractedCategoryFilters,
    extractedStatusFilters, extractedComparisons.
  cbv zeta. destruct (_ && _)%bool; [discriminate |].
  intros [= <-]. repeat split.
Qed.

End Unrecognized.


(** ** Level transfer: export, then import *)

(** What the importer does not carry over as it was:
    - a node whose entity type is empty comes back as "Unknown";
    - a node whose logical id is empty comes back under a generated id;
    - an edge whose relation type is empty comes back as "RELATED_TO";
    - an edge one of whose endpoints is not a node of the level is
      skipped. *)
Lemma roundtrip_as_worded_fails :
  ¬ roundtrip_as_worded (H := ExampleHost.example_host) 0 "UNCLASSIFIED"
      TransferExamples.untyped TransferExamples.empty ∧
  ¬ roundtrip_as_worded (H := ExampleHost.example_host) 0 "UNCLASSIFIED"
      TransferExamples.unidentified TransferExamples.empty ∧
  ¬ roundtrip_as_worded (H := ExampleHost.example_host) 0 "CONFIDENTIAL"
      TransferExamples.unlabelled TransferExamples.empty ∧
  ¬ roundtrip_as_worded (H := ExampleHost.example_host) 0 "CONFIDENTIAL"
      TransferExamples.crossing TransferExamples.empty.
Proof.
  split; [| split; [| split]]; intros Hworded.
  - destruct (Hworded eq_refl eq_refl) as (_ & Htypes & _).
    vm_compute in Htypes. apply Permutation_length_1 in Htypes. discriminate.
  - destruct (Hworded eq_refl eq_refl) as (Hids & _).
    change (List.map node_logical_id
              (nodesAt (normalizeLevel (H := ExampleHost.example_host) "UNCLASSIFIED")
                       TransferExamples.unidentified))
      with [""] in Hids.
    assert ("" ∈ (list_to_set [""] : gset string)) as Hin by set_solver.
    rewrite <- Hids in Hin. apply elem_of_list_to_set in Hin.
    vm_compute in Hin. inversion Hin as [| ? ? ? Hnil]; inversion Hnil.
  - destruct (Hworded eq_refl eq_refl) as (_ & _ & Hrels).
    vm_compute in Hrels. apply Permutation_length_1 in Hrels. discriminate.
  - destruct (Hworded eq_refl eq_refl) as (_ & _ & Hrels).
    vm_compute in Hrels. apply Permutation_nil in Hrels. discriminate.
Qed.

Section LevelTransfer.
Context `{Host}.

Lemma exportLevelData_run level st :
  let classification := normalizeLevel level in
  exportLevelData level st =
  (mkPayload
     (List.map exported_entity (nodesAt classification st))
     (List.map
        (exported_relationship
           (js_map_of (List.map (fun node => (node_id node, node_logical_id node))
                                (nodesAt classification st))))
        (edgesAt classification st)),
   st).
Proof. reflexivity. Qed.

Lemma str_or_Some (s fallback : string) : s ≠ "" → str_or (Some s) fallback = s.
Proof. intros Hne. unfold str_or. by destruct (String.eqb_spec s ""). Qed.

Lemma buildNodeId_nonempty logicalId classification :
  buildNodeId logicalId classification ≠ "".
Proof. unfold buildNodeId. by destruct logicalId. Qed.

Lemma with_nodes_app (st : Store) (xs ys : list GraphNode) :
  with_nodes (fun ns => (ns ++ ys)%list) (with_nodes (fun ns => (ns ++ xs)%list) st)
  = with_nodes (fun ns => (ns ++ (xs ++ ys))%list) st.
Proof. unfold with_nodes; simpl. by rewrite <- app_assoc. Qed.

Lemma with_nodes_nil (st : Store) : with_nodes (fun ns => (ns ++ [])%list) st = st.
Proof. destruct st. unfold with_nodes; simpl. by rewrite app_nil_r. Qed.

(** What the importer reads off a typed item. *)
Lemma truthy_js_string value :
  truthy (js_string value) = negb (String.eqb (str_or value "") "").
Proof.
  destruct value as [text |]; [| reflexivity]. cbn.
  destruct (String.eqb text "") eqn:Hempty; cbn; by rewrite ?Hempty.
Qed.

Lemma js_string_given value :
  str_or value "" ≠ "" → js_string value = JsString (str_or value "").
Proof.
  destruct value as [text |]; [| done]. cbn.
  by destruct (String.eqb_spec text "").
Qed.

Lemma string_field_js_string value fallback :
  string_field (js_string value) fallback = Some (str_or value fallback).
Proof.
  unfold string_field. rewrite truthy_js_string.
  destruct value as [text |]; [| reflexivity]. cbn.
  destruct (String.eqb text "") eqn:Hempty; cbn; by rewrite ?Hempty.
Qed.

Lemma or_else_js_string value fallback :
  or_else (js_string value) (JsString fallback) = JsString (str_or value fallback).
Proof.
  unfold or_else. rewrite truthy_js_string.
  destruct value as [text |]; [| reflexivity]. cbn.
  destruct (String.eqb text "") eqn:Hempty; cbn; by rewrite ?Hempty.
Qed.

Lemma bag_field_js_bag value :
  bag_field (js_bag value) = Some (clone (default ∅ value)).
Proof.
  destruct value as [bag |]; [| reflexivity].
  unfold bag_field. cbn. by rewrite list_to_map_to_list.
Qed.

Lemma table_get_js_string (logicalToId : gmap string string) value :
  table_get logicalToId (js_string value) = value ≫= (fun k => logicalToId !! k).
Proof. by destruct value. Qed.

Lemma importedLogicalId_given item base fallback st :
  truthy (field item "logical_id") = true →
  importedLogicalId item base fallback st = (Completed (field item "logical_id"), st).
Proof. intros Hgiven. unfold importedLogicalId. by rewrite Hgiven. Qed.

Lemma importEntity_run classification now entity logicalToId st :
  lid_of entity ≠ "" →
  importEntity classification now (entity_value entity) logicalToId st =
  (Completed (<[lid_of entity := buildNodeId (lid_of entity) classification]> logicalToId),
   with_nodes (fun ns => (ns ++ [imported_node classification now entity])%list) st).
Proof.
  intros Hne. unfold importEntity. cbn [is_nullish entity_value].
  unfold mbind, async_bind. rewrite importedLogicalId_given.
  - change (field (entity_value entity) "logical_id") with (js_string (item_logical_id entity)).
    change (field (entity_value entity) "entity_type") with (js_string (item_entity_type entity)).
    change (field (entity_value entity) "name") with (js_string (item_name entity)).
    change (field (entity_value entity) "attributes") with (js_bag (item_attributes entity)).
    change (field (entity_value entity) "created_at") with (js_string (item_created_at entity)).
    change (field (entity_value entity) "updated_at") with (js_string (item_updated_at entity)).
    rewrite (js_string_given _ Hne), !string_field_js_string, bag_field_js_bag.
    reflexivity.
  - change (field (entity_value entity) "logical_id") with (js_string (item_logical_id entity)).
    rewrite truthy_js_string. fold (lid_of entity).
    by destruct (String.eqb_spec (lid_of entity) "").
Qed.

Lemma forEachE_importEntity classification now items logicalToId st :
  Forall (fun entity => lid_of entity ≠ "") items →
  forEachE (importEntity classification now) (List.map entity_value items)
           logicalToId st =
  (Completed
     (foldl (fun acc entity =>
               <[lid_of entity := buildNodeId (lid_of entity) classification]> acc)
            logicalToId items),
   with_nodes
     (fun ns => (ns ++ List.map (imported_node classification now) items)%list) st).
Proof.
  revert logicalToId st.
  induction items as [| entity items IH]; intros logicalToId st Hall.
  - cbn. by rewrite with_nodes_nil.
  - apply Forall_cons in Hall as [Hne Hall].
    cbn [forEachE List.map]. unfold mbind, async_bind.
    rewrite (importEntity_run _ _ _ _ _ Hne), (IH _ _ Hall).
    cbn [foldl List.map]. by rewrite with_nodes_app.
Qed.

Lemma importRelationship_run classification now logicalToId r st :
  resolves logicalToId r →
  ∃ edge st1,
    importRelationship classification now logicalToId (relationship_value r) tt st
    = (Completed tt, st1) ∧
    edgesStore st1 = (edgesStore st ++ [edge])%list ∧
    nodesStore st1 = nodesStore st ∧
    edge_classification_level edge = classification ∧
    relation_type edge = str_or (rel_relation_type r) "RELATED_TO".
Proof.
  intros [Hs Ht]. unfold importRelationship, importedLogicalId.
  cbn [is_nullish relationship_value].
  change (field (relationship_value r) "logical_id") with (js_string (rel_logical_id r)).
  change (field (relationship_value r) "source_id") with (js_string (rel_source_id r)).
  change (field (relationship_value r) "target_id") with (js_string (rel_target_id r)).
  change (field (relationship_value r) "relation_type") with (js_string (rel_relation_type r)).
  change (field (relationship_value r) "attributes") with (js_bag (rel_attributes r)).
  change (field (relationship_value r) "created_at") with (js_string (rel_created_at r)).
  rewrite truthy_js_string, or_else_js_string, !string_field_js_string,
    bag_field_js_bag.
  unfold mbind, async_bind, randomSuffix, get_store, modify_store, mret, async_ret.
  destruct (String.eqb_spec (str_or (rel_logical_id r) "") "") as [Hgen | Hgiven];
    cbn beta iota zeta.
  - destruct (String.eqb_spec
                (str_or (table_get logicalToId (js_string (rel_source_id r))) "") "")
      as [? | _]; [done |].
    destruct (String.eqb_spec
                (str_or (table_get logicalToId (js_string (rel_target_id r))) "") "")
      as [? | _]; [done |].
    cbn. eexists _, _. split; [reflexivity |]. by cbn.
  - destruct (String.eqb_spec
                (str_or (table_get logicalToId (js_string (rel_source_id r))) "") "")
      as [? | _]; [done |].
    destruct (String.eqb_spec
                (str_or (table_get logicalToId (js_string (rel_target_id r))) "") "")
      as [? | _]; [done |].
    rewrite (js_string_given _ Hgiven).
    cbn. eexists _, _. split; [reflexivity |]. by cbn.
Qed.

Lemma forEachE_importRelationship classification now logicalToId items st :
  Forall (resolves logicalToId) items →
  ∃ news st1,
    forEachE (importRelationship classification now logicalToId)
             (List.map relationship_value items) tt st = (Completed tt, st1) ∧
    edgesStore st1 = (edgesStore st ++ news)%list ∧
    nodesStore st1 = nodesStore st ∧
    Forall2
      (fun r edge =>
         edge_classification_level edge = classification ∧
         relation_type edge = str_or (rel_relation_type r) "RELATED_TO")
      items news.
Proof.
  revert st. induction items as [| r items IH]; intros st Hall.
  - exists [], st. cbn. by rewrite app_nil_r.
  - apply Forall_cons in Hall as [Hr Hall].
    destruct (importRelationship_run classification now _ _ st Hr)
      as (edge & st1 & Hrun & Hedges & Hnodes & Hlevel & Htype).
    destruct (IH st1 Hall) as (news & st2 & Hrun' & Hedges' & Hnodes' & Hnews).
    exists (edge :: news), st2. cbn [forEachE List.map]. unfold mbind, async_bind.
    rewrite Hrun, Hrun'.
    rewrite Hedges', Hnodes', Hedges, Hnodes, <- app_assoc.
    split; [done |]. split; [done |]. split; [done |]. by constructor.
Qed.

End LevelTransfer.

Section RoundTrip.
Context `{Host}.

Lemma js_map_of_lookup_in {V : Type} (entries : list (string * V)) (k : string) :
  k ∈ entries.*1 → ∃ v, js_map_of entries !! k = Some v ∧ (k, v) ∈ entries.
Proof.
  intros Hin.
  assert (is_Some (js_map_of entries !! k)) as [v Hv];
    [| exists v; split; [done | by apply js_map_of_entry]].
  unfold js_map_of.
  assert (∀ m0 : gmap string V,
            k ∈ entries.*1 ∨ is_Some (m0 !! k) →
            is_Some (foldl (fun acc kv => <[kv.1 := kv.2]> acc) m0 entries !! k))
    as Hgen; [| apply Hgen; by left].
  clear Hin. induction entries as [| [k0 v0] entries IH]; intros m0 Hcase.
  - destruct Hcase as [Hin | ?]; [by apply elem_of_nil in Hin | done].
  - cbn [foldl]. apply IH. cbn in Hcase.
    destruct Hcase as [Hin | Hsome].
    + apply elem_of_cons in Hin as [-> | Hin]; [right | by left].
      cbn. rewrite lookup_insert_eq. by eexists.
    + right. cbn. destruct (decide (k0 = k)) as [-> | Hne].
      * rewrite lookup_insert_eq. by eexists.
      * by rewrite lookup_insert_ne.
Qed.

(** A map filled with [key ↦ f key] answers [f k] for every key set. *)
Lemma foldl_insert_by_key {A : Type} (key : A → string) (f : string → string)
    (items : list A) (m0 : gmap string string) (k : string) :
  k ∈ List.map key items ∨ m0 !! k = Some (f k) →
  foldl (fun acc item => <[key item := f (key item)]> acc) m0 items !! k = Some (f k).
Proof.
  revert m0. induction items as [| item items IH]; intros m0 Hcase.
  - destruct Hcase as [Hin | ?]; [by apply elem_of_nil in Hin | done].
  - cbn [foldl]. apply IH. cbn in Hcase.
    destruct Hcase as [Hin | Hsome].
    + apply elem_of_cons in Hin as [-> | Hin]; [right | by left].
      by rewrite lookup_insert_eq.
    + right. destruct (decide (key item = k)) as [<- | Hne].
      * by rewrite lookup_insert_eq.
      * by rewrite lookup_insert_ne.
Qed.

Lemma filter_all {A : Type} (p : A → bool) (l : list A) :
  Forall (fun x => p x = true) l → List.filter p l = l.
Proof.
  induction 1 as [| x l Hx _ IH]; [done |]. cbn. by rewrite Hx, IH.
Qed.

Lemma filter_none {A : Type} (p : A → bool) (l : list A) :
  Forall (fun x => p x = false) l → List.filter p l = [].
Proof.
  induction 1 as [| x l Hx _ IH]; [done |]. cbn. by rewrite Hx, IH.
Qed.

Lemma removeLevel_none `{Classified A} classification (items : list A) :
  Forall (fun item => String.eqb (classification_level item) classification = false)
         (removeLevel classification items).
Proof.
  apply List.Forall_forall. intros item Hin.
  apply filter_In in Hin as [_ Hkeep]. by apply negb_true_iff in Hkeep.
Qed.

Lemma removeLevel_nodes classification (l : list GraphNode) :
  List.filter (fun node => String.eqb (node_classification_level node) classification)
              (removeLevel classification l) = [].
Proof. apply filter_none. exact (removeLevel_none classification l). Qed.

Lemma removeLevel_edges classification (l : list GraphEdge) :
  List.filter (fun edge => String.eqb (edge_classification_level edge) classification)
              (removeLevel classification l) = [].
Proof. apply filter_none. exact (removeLevel_none classification l). Qed.

(** What an import leaves in the store, for a typed payload all of whose
    entities carry a logical id and all of whose relationships resolve:
    the call returns. *)
Lemma importLevelData_run now level payload target :
  let classification := normalizeLevel level in
  let logicalToId :=
    foldl (fun acc entity =>
             <[lid_of entity := buildNodeId (lid_of entity) classification]> acc)
          ∅ (entities payload) in
  Forall (fun entity => lid_of entity ≠ "") (entities payload) →
  Forall (resolves logicalToId) (relationships payload) →
  ∃ news after,
    importLevelData now level (payload_value payload) target = (Completed tt, after) ∧
    nodesStore after =
      (removeLevel classification (nodesStore target)
       ++ List.map (imported_node classification (Date_toISOString now))
                   (entities payload))%list ∧
    edgesStore after = (removeLevel classification (edgesStore target) ++ news)%list ∧
    Forall2
      (fun r edge =>
         edge_classification_level edge = classification ∧
         relation_type edge = str_or (rel_relation_type r) "RELATED_TO")
      (relationships payload) news.
Proof.
  intros classification logicalToId Hentities Hrels.
  set (st1 :=
         with_nodes
           (fun ns =>
              (ns ++ List.map (imported_node classification (Date_toISOString now))
                              (entities payload))%list)
           (with_edges (removeLevel classification)
              (with_nodes (removeLevel classification) target))).
  assert (importLevelData now level (payload_value payload) target =
          forEachE (importRelationship classification (Date_toISOString now)
                                       logicalToId)
                   (List.map relationship_value (relationships payload)) tt st1) as ->.
  { unfold importLevelData. fold classification.
    cbn [is_nullish payload_value].
    change (items_of (field (payload_value payload) "entities"))
      with (List.map entity_value (entities payload)).
    change (items_of (field (payload_value payload) "relationships"))
      with (List.map relationship_value (relationships payload)).
    unfold mbind, async_bind, modify_store. cbn beta iota zeta.
    by rewrite (forEachE_importEntity _ _ _ _ _ Hentities). }
  destruct (forEachE_importRelationship classification (Date_toISOString now)
              logicalToId (relationships payload) st1 Hrels)
    as (news & after & Hrun & Hedges & Hnodes & Hnews).
  exists news, after. rewrite Hrun, Hedges, Hnodes. by cbn.
Qed.

End RoundTrip.

Section RoundTripTheorem.
Context `{Host}.

Lemma Forall2_map_eq {A B C : Type} (f : A → C) (g : B → C) (P : A → B → Prop)
    (l : list A) (k : list B) :
  (∀ a b, P a b → g b = f a) → Forall2 P l k → List.map g k = List.map f l.
Proof.
  intros HP. induction 1 as [| a b l k Hab _ IH]; [done |].
  cbn. by rewrite (HP _ _ Hab), IH.
Qed.

(** The level of [source] as it stands in the target after the round
    trip: the imported nodes and edges, in the order of the export. *)
Lemma roundtrip_level now level source target :
  let classification := normalizeLevel level in
  transferable classification source →
  let after := exportThenImport now level source target in
  List.map node_logical_id (nodesAt classification after)
  = List.map node_logical_id (nodesAt classification source) ∧
  List.map entity_type (nodesAt classification after)
  = List.map entity_type (nodesAt classification source) ∧
  List.map relation_type (edgesAt classification after)
  = List.map relation_type (edgesAt classification source).
Proof.
  intros classification [Hnodes Hedges] after. subst after.
  unfold exportThenImport.
  pose proof (exportLevelData_run level source) as Hexport.
  cbv zeta in Hexport. fold classification in Hexport. rewrite Hexport. cbn [fst].
  set (levelNodes := nodesAt classification source) in *.
  set (levelEdges := edgesAt classification source) in *.
  set (nodeIdMap :=
         js_map_of (List.map (fun node => (node_id node, node_logical_id node))
                             levelNodes)).
  set (payload := mkPayload _ _).
  assert (∀ node, node ∈ levelNodes →
            lid_of (exported_entity node) = node_logical_id node) as Hlid.
  { intros node Hin. unfold lid_of, exported_entity. cbn.
    apply str_or_Some. by apply Hnodes. }
  assert (Forall (fun entity => lid_of entity ≠ "") (entities payload)) as Hentities.
  { apply List.Forall_forall. intros entity Hin. cbn in Hin.
    apply in_map_iff in Hin as [node [<- Hin]]. apply list_elem_of_In in Hin.
    rewrite (Hlid _ Hin). by apply Hnodes. }
  assert (∀ id, (∃ node, node ∈ levelNodes ∧ node_id node = id) →
            str_or
              (Some (str_or (nodeIdMap !! id) id)
                 ≫= (fun k =>
                       foldl (fun acc entity =>
                                <[lid_of entity :=
                                    buildNodeId (lid_of entity) classification]> acc)
                             (∅ : gmap string string) (entities payload) !! k))
              "" ≠ "") as Hresolve.
  { intros id (node & Hin & Hid).
    destruct (js_map_of_lookup_in
                (List.map (fun node => (node_id node, node_logical_id node)) levelNodes)
                id) as (l & Hl & Hentry).
    { apply list_elem_of_fmap. exists (node_id node, node_logical_id node).
      split; [done |]. apply list_elem_of_In, in_map_iff. exists node.
      split; [done | by apply list_elem_of_In]. }
    apply list_elem_of_In, in_map_iff in Hentry as (node' & [= _ <-] & Hin').
    apply list_elem_of_In in Hin'.
    fold nodeIdMap in Hl. rewrite Hl.
    rewrite str_or_Some by (by apply Hnodes). cbn [mbind option_bind].
    rewrite (foldl_insert_by_key lid_of (fun k => buildNodeId k classification)).
    - rewrite str_or_Some by apply buildNodeId_nonempty. apply buildNodeId_nonempty.
    - left. cbn. apply list_elem_of_In, in_map_iff. exists (exported_entity node').
      split; [by apply Hlid |]. apply in_map. by apply list_elem_of_In. }
  assert (Forall
            (resolves
               (foldl (fun acc entity =>
                         <[lid_of entity :=
                             buildNodeId (lid_of entity) classification]> acc)
                      (∅ : gmap string string) (entities payload)))
            (relationships payload)) as Hrels.
  { apply List.Forall_forall. intros r Hin. cbn in Hin.
    apply in_map_iff in Hin as [edge [<- Hin]]. apply list_elem_of_In in Hin.
    destruct (Hedges _ Hin) as (_ & Hs & Ht).
    split; cbn [exported_relationship rel_source_id rel_target_id];
      by apply Hresolve. }
  destruct (importLevelData_run now level payload target Hentities Hrels)
    as (news & imported & Hrun & Hn & He & Hnews).
  fold classification in Hn, He, Hnews. rewrite Hrun. cbn [snd].
  unfold nodesAt at 1 2, edgesAt at 1. rewrite Hn, He, !List.filter_app.
  rewrite removeLevel_nodes, removeLevel_edges.
  cbn [app].
  rewrite !filter_all.
  - cbn [entities payload]. rewrite !List.map_map. repeat split.
    + apply map_ext_in. intros node Hin. cbn. apply Hlid. by apply list_elem_of_In.
    + apply map_ext_in. intros node Hin. cbn. apply str_or_Some.
      by apply Hnodes, list_elem_of_In.
    + rewrite (Forall2_map_eq
                 (fun r => str_or (rel_relation_type r) "RELATED_TO") relation_type
                 _ _ _ (fun r edge Hre => proj2 Hre) Hnews).
      cbn [relationships payload]. rewrite List.map_map.
      apply map_ext_in. intros edge Hin. cbn. apply str_or_Some.
      by apply Hedges, list_elem_of_In.
  - apply List.Forall_forall. intros edge Hin.
    apply (Forall2_Forall_r _ (fun edge => edge_classification_level edge = classification))
      in Hnews; [| apply List.Forall_forall; intros r _ edge' [? _]; done].
    rewrite (proj1 (List.Forall_forall _ _) Hnews _ Hin). apply String.eqb_refl.
  - apply List.Forall_forall. intros node Hin.
    apply in_map_iff in Hin as [entity [<- _]]. cbn. apply String.eqb_refl.
Qed.

End RoundTripTheorem.

(** C9 (amended).  For every classification level whose nodes all have
    a non-empty logical id and entity type and whose edges all have a
    non-empty relation type and join nodes of that level, exporting the
    level and importing the payload into a graph (empty at that level or
    not: the import clears the level first) reproduces the same set of
    logical ids among the level's nodes, the same multiset of entity
    types and the same multiset of relation types. *)
Theorem export_then_import_reproduces_the_level :
  ∀ (H : Host) (now : Z) (level : string) (source target : Store),
    let classification := normalizeLevel level in
    transferable classification source →
    let after := exportThenImport now level source target in
    (list_to_set (List.map node_logical_id (nodesAt classification after))
       : gset string)
    = list_to_set (List.map node_logical_id (nodesAt classification source)) ∧
    List.map entity_type (nodesAt classification after)
    ≡ₚ List.map entity_type (nodesAt classification source) ∧
    List.map relation_type (edgesAt classification after)
    ≡ₚ List.map relation_type (edgesAt classification source).
Proof.
  intros H now level source target classification Hsource after.
  destruct (roundtrip_level now level source target Hsource) as (Hids & Htypes & Hrels).
  subst after classification. rewrite Hids, Htypes, Hrels. done.
Qed.

(** * Example runs *)

Lemma budget_reset_on_read_witness :
  ∃ (returned : User) (st' : Store),
    findUserById (H := ExampleHost.example_host) PipelineExamples.eleven
                 "local-analyst_a" PipelineExamples.one_uav
    = (Some returned, st') ∧
    query_budget returned = 8 ∧
    budget_reset_at returned = "2024-05-12T12:00:00.000Z".
Proof.
  destruct (budget_reset_on_read ExampleHost.example_host PipelineExamples.eleven
              PolicyExamples.analyst_a PipelineExamples.eleven eq_refl)
    as (user' & Hreset & _ & (Hbudget & Hat') & Hread & _).
  destruct (Hread PipelineExamples.one_uav "local-analyst_a" eq_refl)
    as (st' & Hrun & _).
  exists (clone user'), st'. split; [exact Hrun |].
  destruct (Hreset ltac:(unfold PipelineExamples.eleven; lia)) as (_ & Hconf & _ & Hat).
  split.
  - rewrite Hbudget. apply Hconf. reflexivity.
  - rewrite Hat'. exact Hat.
Defined.

Lemma budget_exhausted_witness :
  let outcome :=
    executeNaturalLanguageQuery (H := ExampleHost.example_host) 0 0
      PipelineExamples.exhausted "uav" PipelineExamples.two_uavs in
  success outcome.1.1 = false ∧
  usersStore outcome.2 = PipelineExamples.users ∧
  length (auditLogStore outcome.2) = 1%nat.
Proof.
  intros outcome.
  destruct (budget_exhausted_is_denied_and_audited ExampleHost.example_host 0 0
              PipelineExamples.exhausted "uav" PipelineExamples.two_uavs
              ltac:(vm_compute; discriminate))
    as ((entry & Hlog & _) & Hsuccess & _ & _ & Husers & _).
  split; [exact Hsuccess |]. split; [exact Husers |].
  fold outcome in Hlog. by rewrite Hlog.
Defined.

Lemma k_anonymity_gate_witness :
  let lone :=
    executeNaturalLanguageQuery (H := ExampleHost.example_host) 0 0
      PolicyExamples.analyst_a "uav" PipelineExamples.one_uav in
  let pair :=
    executeNaturalLanguageQuery (H := ExampleHost.example_host) 0 0
      PolicyExamples.analyst_a "uav" PipelineExamples.two_uavs in
  (aggregated lone.1.1 = Some true ∧ denialReason lone.1.1 = Some "K_ANONYMITY") ∧
  data pair.1.1 = Some (DataNodes [PipelineExamples.uav "1"; PipelineExamples.uav "2"]).
Proof.
  intros lone pair. split.
  - destruct (k_anonymity_gate ExampleHost.example_host 0 0 PolicyExamples.analyst_a
                "uav" PipelineExamples.one_uav _ ltac:(vm_compute; reflexivity) eq_refl)
      as [Hlone _].
    destruct (Hlone ltac:(vm_compute; split; reflexivity))
      as (_ & _ & Hagg & Hreason & _).
    split; [exact Hagg | exact Hreason].
  - destruct (k_anonymity_gate ExampleHost.example_host 0 0 PolicyExamples.analyst_a
                "uav" PipelineExamples.two_uavs _ ltac:(vm_compute; reflexivity) eq_refl)
      as [_ Hpair].
    destruct (Hpair ltac:(vm_compute; discriminate)) as [_ Hdata].
    exact Hdata.
Defined.


Lemma export_then_import_witness :
  let after :=
    exportThenImport (H := ExampleHost.example_host) 0 "confidential"
      TransferExamples.small TransferExamples.empty in
  (list_to_set (List.map node_logical_id (nodesAt "CONFIDENTIAL" after)) : gset string)
  = list_to_set ["a"; "b"] ∧
  List.map entity_type (nodesAt "CONFIDENTIAL" after) ≡ₚ ["Target"; "Sensor"] ∧
  List.map relation_type (edgesAt "CONFIDENTIAL" after) ≡ₚ ["DETECTS"].
Proof.
  intros after.
  assert (transferable (normalizeLevel (H := ExampleHost.example_host) "confidential")
                       TransferExamples.small) as Hsmall.
  { change (normalizeLevel (H := ExampleHost.example_host) "confidential")
      with "CONFIDENTIAL".
    split.
    - intros node Hin.
      change (nodesAt "CONFIDENTIAL" TransferExamples.small)
        with [TransferExamples.node_a; TransferExamples.node_b] in Hin.
      set_unfold in Hin. destruct Hin as [-> | [-> | []]]; by cbn.
    - intros edge Hin.
      change (edgesAt "CONFIDENTIAL" TransferExamples.small)
        with [TransferExamples.edge_ab] in Hin.
      set_unfold in Hin. destruct Hin as [-> | []].
      change (nodesAt "CONFIDENTIAL" TransferExamples.small)
        with [TransferExamples.node_a; TransferExamples.node_b].
      split; [done |].
      split; [exists TransferExamples.node_b | exists TransferExamples.node_a];
        (split; [set_solver | reflexivity]). }
  exact (export_then_import_reproduces_the_level ExampleHost.example_host 0
           "confidential" TransferExamples.small TransferExamples.empty Hsmall).
Defined.

Lemma graph_view_witness :
  let view :=
    (getGraphData (H := ExampleHost.example_host) PolicyExamples.commander
                  (mkOptions mode_virtual None None) TransferExamples.small).1 in
  let repointed :=
    mkEdge "ab_CONFIDENTIAL" "ab" "CONFIDENTIAL" "b_CONFIDENTIAL" "a_SECRET"
           "DETECTS" ∅ "2024-05-12T10:00:00Z" in
  (∃ n, n ∈ nodes view ∧ source_node_id repointed = node_id n) ∧
  (∃ n, n ∈ nodes view ∧ target_node_id repointed = node_id n).
Proof.
  intros view repointed.
  apply (graph_view_referentially_closed ExampleHost.example_host
           PolicyExamples.commander
           (mkOptions mode_virtual None None) TransferExamples.small repointed).
  vm_compute. left.
Defined.

Lemma virtual_view_witness :
  let view :=
    (getGraphData (H := ExampleHost.example_host) PolicyExamples.commander
                  (mkOptions mode_virtual None None) TransferExamples.small).1 in
  ∃ best,
    List.filter (fun x => String.eqb (node_logical_id x) "a") (nodes view) = [best] ∧
    node_classification_level best = "SECRET".
Proof.
  intros view.
  destruct (proj1 (virtual_view_one_best_node_per_logical_id
                     ExampleHost.example_host PolicyExamples.commander
                     None None TransferExamples.small)
              TransferExamples.node_a ltac:(vm_compute; left))
    as (best & Hone & _ & Hmax).
  exists best. split; [exact Hone |].
  specialize (Hmax TransferExamples.node_a_secret
                ltac:(vm_compute; right; right; left) eq_refl).
  change (rank (node_classification_level TransferExamples.node_a_secret)) with 2
    in Hmax.
  unfold rank in Hmax.
  destruct (String.eqb_spec (node_classification_level best) "SECRET") as [-> | _];
    [reflexivity |].
  destruct (String.eqb (node_classification_level best) "CONFIDENTIAL"); lia.
Defined.

(* ================================================================== *)
(** * Part IV — further properties of the policy, the store and the views *)
(* ================================================================== *)

(** ** Access policy *)

Section PolicyMore.
Context `{Host}.

Lemma filter_sublist {A : Type} (p : A → bool) (items : list A) :
  sublist (List.filter p items) items.
Proof.
  induction items as [| x items IH]; simpl; [constructor |].
  destruct (p x); by constructor.
Qed.

(** What a SECRET commander is handed: everything but the items whose
    level names an inherited member. *)
Lemma secret_commander_filter `{Classified A} (user : User) (items : list A) :
  is_commander user →
  clearance_level user = "SECRET" →
  List.filter
    (fun item =>
       if negb (checkClearance (clearance_level user) (classification_level item))
       then false else checkSectorAccess user item)
    items
  = List.filter
      (fun item => negb (names_inherited_member (classification_level item)))
      items.
Proof.
  intros Hrole Hlevel. apply List.filter_ext. intros item.
  assert (names_inherited_member (clearance_level user) = false) as Hu
    by (by rewrite Hlevel).
  pose proof (access_test user item Hu) as Htest.
  assert (checkSectorAccess user item = true) as Hsector
    by (apply checkSectorAccess_cases; by left).
  assert (rank (clearance_level user) >= rank (classification_level item)) as Hrank.
  { rewrite Hlevel. change (rank "SECRET") with 2.
    pose proof (rank_range (classification_level item)). lia. }
  destruct (names_inherited_member (classification_level item)) eqn:Hd; simpl.
  - apply not_true_is_false. intros Hok. apply Htest in Hok as [? _]. done.
  - apply Htest. done.
Qed.

End PolicyMore.

(** X1.  The clearance check, for every pair of level texts.  When
    neither names a member objects inherit from [Object.prototype], it
    compares ranks, a text outside the table ranking as UNCLASSIFIED.
    When exactly one of the two names such a member, the check fails,
    whichever side it is on.  When both do, the check compares the texts
    of the two members. *)
Theorem checkClearance_by_kind_of_level :
  ∀ (H : Host) (userLevel dataLevel : string),
    (names_inherited_member userLevel = false →
     names_inherited_member dataLevel = false →
     (checkClearance userLevel dataLevel = true ↔ rank userLevel >= rank dataLevel) ∧
     (dataLevel ≠ "CONFIDENTIAL" → dataLevel ≠ "SECRET" →
      checkClearance userLevel dataLevel = true)) ∧
    (names_inherited_member userLevel ≠ names_inherited_member dataLevel →
     checkClearance userLevel dataLevel = false) ∧
    (∀ userText dataText,
       names_inherited_member userLevel = true →
       names_inherited_member dataLevel = true →
       Object_prototype userLevel = Some userText →
       Object_prototype dataLevel = Some dataText →
       checkClearance userLevel dataLevel = String.leb dataText userText).
Proof.
  intros H userLevel dataLevel. split; [| split].
  - intros Hu Hd. rewrite (checkClearance_numbers _ _ Hu Hd), Z.leb_le. split.
    + lia.
    + intros HC HS. rewrite (rank_unknown dataLevel HC HS).
      pose proof (rank_range userLevel). lia.
  - apply checkClearance_mixed.
  - intros userText dataText. apply checkClearance_members.
Qed.

(** X2.  Between two users whose clearance levels do not name an
    inherited member, raising the clearance, the attributes being the
    same, never hides a node or an edge: what the filters keep for the
    lower clearance they keep for the higher. *)
Theorem higher_clearance_sees_no_less :
  ∀ (H : Host) (low high : User) (nodes : list GraphNode) (edges : list GraphEdge),
    user_attributes low = user_attributes high →
    names_inherited_member (clearance_level low) = false →
    names_inherited_member (clearance_level high) = false →
    rank (clearance_level low) <= rank (clearance_level high) →
    (∀ n, n ∈ filterAccessibleNodes low nodes → n ∈ filterAccessibleNodes high nodes) ∧
    (∀ e, e ∈ filterAccessibleEdges low edges → e ∈ filterAccessibleEdges high edges).
Proof.
  intros H low high nodes edges Hattrs Hlow Hhigh Hrank.
  unfold filterAccessibleNodes, filterAccessibleEdges.
  split; intros x; rewrite !list_elem_of_In, !filter_In;
    rewrite (access_test low x Hlow), (access_test high x Hhigh);
    rewrite (checkSectorAccess_attributes low high _ Hattrs);
    intros (Hin & Hname & Hclear & Hsector);
    (split; [done |]); (split; [done |]); (split; [lia | done]).
Qed.

(** X3.  The edge filter keeps an edge E for a user U iff the clearance
    comparison holds and (U's role is "commander", or U has a sector
    attribute and E has no sector attribute or E's sector equals U's).
    The clearance comparison: when U's clearance level does not name an
    inherited member, E's level must not name one either and
    rank(U.clearance_level) >= rank(E.classification_level); when U's
    level names one, E's must name one too, and the text of E's member
    must not come after the text of U's.  The kept edges come in the
    order of the input. *)
Theorem filterAccessibleEdges_spec :
  ∀ (H : Host) (user : User) (edges : list GraphEdge),
    (names_inherited_member (clearance_level user) = false →
     ∀ edge,
       edge ∈ filterAccessibleEdges user edges ↔
       edge ∈ edges ∧
       names_inherited_member (classification_level edge) = false ∧
       rank (clearance_level user) >= rank (classification_level edge) ∧
       (is_commander user ∨
        (¬ no_sector (user_attributes user) ∧
         (no_sector (attributes edge) ∨
          same_sector (user_attributes user) (attributes edge))))) ∧
    (names_inherited_member (clearance_level user) = true →
     ∀ edge,
       edge ∈ filterAccessibleEdges user edges ↔
       edge ∈ edges ∧
       names_inherited_member (classification_level edge) = true ∧
       (∀ userText edgeText,
          Object_prototype (clearance_level user) = Some userText →
          Object_prototype (classification_level edge) = Some edgeText →
          String.leb edgeText userText = true) ∧
       (is_commander user ∨
        (¬ no_sector (user_attributes user) ∧
         (no_sector (attributes edge) ∨
          same_sector (user_attributes user) (attributes edge))))) ∧
    sublist (filterAccessibleEdges user edges) edges.
Proof.
  intros H user edges. split; [| split].
  - intros Hu edge. unfold filterAccessibleEdges.
    rewrite !list_elem_of_In, filter_In, (access_test user edge Hu).
    by rewrite (checkSectorAccess_cases user edge).
  - intros Hu edge. unfold filterAccessibleEdges.
    rewrite !list_elem_of_In, filter_In, (access_test_member user edge Hu).
    by rewrite (checkSectorAccess_cases user edge).
  - apply filter_sublist.
Qed.

(** X4.  A user whose role is "commander" and whose clearance is SECRET
    is refused only the nodes and edges whose level names an inherited
    member: both filters return their input without those, and return
    their input when there is none. *)
Theorem secret_commander_sees_everything :
  ∀ (H : Host) (user : User) (nodes : list GraphNode) (edges : list GraphEdge),
    is_commander user →
    clearance_level user = "SECRET" →
    filterAccessibleNodes user nodes
    = List.filter
        (fun node => negb (names_inherited_member (classification_level node)))
        nodes ∧
    filterAccessibleEdges user edges
    = List.filter
        (fun edge => negb (names_inherited_member (classification_level edge)))
        edges ∧
    ((∀ node, node ∈ nodes →
        names_inherited_member (classification_level node) = false) →
     filterAccessibleNodes user nodes = nodes) ∧
    ((∀ edge, edge ∈ edges →
        names_inherited_member (classification_level edge) = false) →
     filterAccessibleEdges user edges = edges).
Proof.
  intros H user nodes edges Hrole Hlevel.
  unfold filterAccessibleNodes, filterAccessibleEdges.
  rewrite !(secret_commander_filter user _ Hrole Hlevel).
  split; [done |]. split; [done |].
  split; intros Hall; apply List.forallb_filter_id, List.forallb_forall;
    intros x Hin%list_elem_of_In; by rewrite (Hall x Hin).
Qed.

(** ** The data store: users and budgets *)

Section UsersMore.
Context `{Host}.

Lemma elem_of_modify_first {A : Type} (p : A → bool) (f : A → A) (l : list A) (y : A) :
  y ∈ modify_first p f l → y ∈ l ∨ ∃ x, x ∈ l ∧ y = f x.
Proof.
  induction l as [| x l IH]; simpl; [by left |].
  destruct (p x); intros [-> | Hin]%elem_of_cons.
  - right. exists x. split; [by left | done].
  - left. by right.
  - left. by left.
  - destruct (IH Hin) as [? | (x' & ? & ->)]; [left; by right |].
    right. exists x'. split; [by right | done].
Qed.

Lemma length_modify_first {A : Type} (p : A → bool) (f : A → A) (l : list A) :
  length (modify_first p f l) = length l.
Proof. induction l as [| x l IH]; simpl; [done |]. destruct (p x); simpl; congruence. Qed.

Lemma modify_first_none {A : Type} (p : A → bool) (f : A → A) (l : list A) :
  List.find p l = None → modify_first p f l = l.
Proof.
  induction l as [| x l IH]; simpl; [done |].
  destruct (p x); [discriminate |]. intros Hnone. by rewrite IH.
Qed.

Lemma getMaxBudget_positive level : 5 <= getMaxBudget level.
Proof.
  unfold getMaxBudget. destruct (String.eqb level "SECRET"); [lia |].
  destruct (String.eqb level "CONFIDENTIAL"); lia.
Qed.

Lemma maybeResetBudget_in_range now user :
  in_range user → in_range (maybeResetBudget now user).
Proof.
  unfold in_range, maybeResetBudget. intros Hin.
  destruct (Date_parse _); [| done]. destruct (Z.geb _ _); [| done].
  simpl. pose proof (getMaxBudget_positive (clearance_level user)). lia.
Qed.

Lemma spend_in_range now user :
  in_range user →
  in_range (let user := maybeResetBudget now user in
            if Z.gtb (query_budget user) 0
            then set_query_budget (query_budget user - 1) user
            else user).
Proof.
  intros Hin%(maybeResetBudget_in_range now). cbv zeta.
  destruct (Z.gtb_spec (query_budget (maybeResetBudget now user)) 0); [| done].
  unfold in_range in *. simpl. lia.
Qed.

Lemma modify_first_in_range (p : User → bool) (f : User → User) (users : list User) :
  (∀ u, in_range u → in_range (f u)) →
  (∀ u, u ∈ users → in_range u) →
  ∀ u, u ∈ modify_first p f users → in_range u.
Proof.
  intros Hf Hall u [Hin | (x & Hin & ->)]%elem_of_modify_first; [by apply Hall |].
  by apply Hf, Hall.
Qed.

Lemma decrementBudget_users now id st :
  usersStore (decrementBudget now id st).2 =
  modify_first (fun u => String.eqb (user_id u) id)
    (fun user =>
       let user := maybeResetBudget now user in
       if Z.gtb (query_budget user) 0
       then set_query_budget (query_budget user - 1) user
       else user)
    (usersStore st).
Proof.
  unfold decrementBudget, mbind, async_bind, get_store; simpl.
  destruct (List.find _ (usersStore st)) eqn:Hfind; [done |].
  by rewrite (modify_first_none _ _ _ Hfind).
Qed.

Lemma findUserById_users now id st :
  usersStore (findUserById now id st).2 =
  modify_first (fun u => String.eqb (user_id u) id) (maybeResetBudget now)
               (usersStore st).
Proof.
  unfold findUserById, mbind, async_bind, get_store; simpl.
  destruct (List.find _ (usersStore st)) eqn:Hfind; [done |].
  by rewrite (modify_first_none _ _ _ Hfind).
Qed.

Lemma findUserByUsername_users now uname st :
  usersStore (findUserByUsername now uname st).2 =
  modify_first (fun u => String.eqb (toLowerCase (username u)) (toLowerCase uname))
               (maybeResetBudget now) (usersStore st).
Proof.
  unfold findUserByUsername, mbind, async_bind, get_store; simpl.
  destruct (List.find _ (usersStore st)) eqn:Hfind; [done |].
  by rewrite (modify_first_none _ _ _ Hfind).
Qed.

Lemma modify_first_split {A : Type} (p : A → bool) (f : A → A) (l : list A) (x : A) :
  List.find p l = Some x →
  ∃ before after,
    l = (before ++ x :: after)%list ∧
    (∀ y, y ∈ before → p y = false) ∧
    modify_first p f l = (before ++ f x :: after)%list.
Proof.
  induction l as [| y l IH]; simpl; [discriminate |].
  destruct (p y) eqn:Hy.
  - intros [= ->]. exists [], l. split; [done |]. split; [| done].
    by intros ? ?%elem_of_nil.
  - intros Hfind. destruct (IH Hfind) as (before & after & -> & Hbefore & ->).
    exists (y :: before), after. split; [done |]. split; [| done].
    intros z [-> | Hz]%elem_of_cons; [done | by apply Hbefore].
Qed.

Lemma decrementBudget_rest now id st :
  let st' := (decrementBudget now id st).2 in
  nodesStore st' = nodesStore st ∧ edgesStore st' = edgesStore st ∧
  auditLogStore st' = auditLogStore st ∧ draws st' = draws st.
Proof.
  unfold decrementBudget, mbind, async_bind, get_store; simpl.
  by destruct (List.find _ (usersStore st)).
Qed.

End UsersMore.

(** X5.  The stored budgets stay within bounds: if every stored user has
    0 <= query_budget <= the maximum of their clearance, the same holds
    after [decrementBudget], after [findUserById] and after
    [findUserByUsername], whatever the clock reads and whatever key is
    asked for. *)
Theorem stored_budgets_stay_in_range :
  ∀ (H : Host) (now : Z) (key : string) (st : Store),
    budgets_in_range st →
    budgets_in_range (decrementBudget now key st).2 ∧
    budgets_in_range (findUserById now key st).2 ∧
    budgets_in_range (findUserByUsername now key st).2.
Proof.
  intros H now key st Hrange. unfold budgets_in_range.
  rewrite decrementBudget_users, findUserById_users, findUserByUsername_users.
  repeat split; try (eapply (modify_first_in_range _ _ (usersStore st));
    [| exact Hrange | eassumption]; intros v Hv;
    first [exact (spend_in_range now v Hv) | exact (maybeResetBudget_in_range now v Hv)]).
Qed.

(** X6.  [decrementBudget] changes the first stored user with the id
    and nothing else: the users before and after that one, the nodes,
    the edges, the audit trail and the count of random draws are as
    before, and an unknown id changes nothing.  Of that user the id, the
    name, the clearance and the attributes stay.  When the reset is due
    ([now >= resetAt]) the stored budget becomes the clearance maximum
    less one and the reset instant one hour after [now]; otherwise the
    reset instant stays, a positive budget goes down by exactly one and
    a budget that is not positive stays. *)
Theorem decrementBudget_spends_one_unit :
  ∀ (H : Host) (now : Z) (id : string) (st : Store),
    let found := fun u => String.eqb (user_id u) id in
    let st' := (decrementBudget now id st).2 in
    (nodesStore st' = nodesStore st ∧ edgesStore st' = edgesStore st ∧
     auditLogStore st' = auditLogStore st ∧ draws st' = draws st ∧
     length (usersStore st') = length (usersStore st)) ∧
    (List.find found (usersStore st) = None → st' = st) ∧
    (∀ user, List.find found (usersStore st) = Some user →
       ∃ before after user',
         usersStore st = (before ++ user :: after)%list ∧
         (∀ u, u ∈ before → found u = false) ∧
         usersStore st' = (before ++ user' :: after)%list ∧
         List.find found (usersStore st') = Some user' ∧
         user_id user' = user_id user ∧
         username user' = username user ∧
         clearance_level user' = clearance_level user ∧
         user_attributes user' = user_attributes user ∧
         (∀ resetAt, Date_parse (budget_reset_at user) = Some resetAt →
            now >= resetAt →
            query_budget user' = getMaxBudget (clearance_level user) - 1 ∧
            budget_reset_at user' = Date_toISOString (now + 60 * 60 * 1000)) ∧
         ((Date_parse (budget_reset_at user) = None ∨
           ∃ resetAt, Date_parse (budget_reset_at user) = Some resetAt ∧ now < resetAt) →
          budget_reset_at user' = budget_reset_at user ∧
          (query_budget user > 0 → query_budget user' = query_budget user - 1) ∧
          (¬ query_budget user > 0 → user' = user))).
Proof.
  intros H now id st found st'. split; [| split].
  - destruct (decrementBudget_rest now id st) as (Hn & He & Ha & Hd).
    subst st'. rewrite decrementBudget_users, length_modify_first. done.
  - intros Hnone. subst st'. unfold decrementBudget, mbind, async_bind, get_store.
    simpl. fold found. by rewrite Hnone.
  - intros user Hfind.
    set (spend := fun user : User =>
                    let user := maybeResetBudget now user in
                    if Z.gtb (query_budget user) 0
                    then set_query_budget (query_budget user - 1) user
                    else user).
    destruct (modify_first_split found spend _ _ Hfind)
      as (before & after & Husers & Hbefore & Hafter).
    exists before, after, (spend user).
    split; [done |]. split; [done |].
    split; [subst st'; by rewrite decrementBudget_users |].
    split.
    { subst st'. rewrite decrementBudget_users.
      apply (find_modify_first found); [| exact Hfind].
      intros y. unfold found. cbv zeta.
      destruct (Z.gtb _ _); simpl; by rewrite maybeResetBudget_id. }
    subst spend. cbv beta zeta.
    split; [destruct (Z.gtb _ _); simpl; by rewrite maybeResetBudget_id |].
    split; [destruct (Z.gtb _ _); simpl; by rewrite maybeResetBudget_username |].
    split; [destruct (Z.gtb _ _); simpl; by rewrite maybeResetBudget_clearance |].
    split.
    { unfold maybeResetBudget.
      destruct (Date_parse _); [destruct (Z.geb _ _) |];
        by destruct (Z.gtb _ _). }
    unfold maybeResetBudget. split.
    + intros resetAt -> Hdue.
      assert (Z.geb now resetAt = true) as -> by (apply Z.geb_le; lia).
      simpl. pose proof (getMaxBudget_positive (clearance_level user)).
      destruct (Z.gtb_spec (getMaxBudget (clearance_level user)) 0); [done | lia].
    + intros Hnot.
      assert ((match Date_parse (budget_reset_at user) with
               | Some resetAt =>
                   if Z.geb now resetAt
                   then set_budget_reset_at (Date_toISOString (now + 60 * 60 * 1000))
                          (set_query_budget (getMaxBudget (clearance_level user)) user)
                   else user
               | None => user
               end) = user) as ->.
      { destruct Hnot as [-> | (resetAt & -> & Hlt)]; [done |].
        assert (Z.geb now resetAt = false) as ->; [| done].
        apply not_true_is_false. rewrite Z.geb_le. lia. }
      split; [by destruct (Z.gtb _ _) |].
      split; intros Hb; destruct (Z.gtb_spec (query_budget user) 0); (done || lia).
Qed.

Section UpdateAndTrail.
Context `{Host}.

Lemma modify_first_fixed {A : Type} (p : A → bool) (f : A → A) (l : list A) (x : A) :
  List.find p l = Some x → f x = x → modify_first p f l = l.
Proof.
  intros Hfind Hfix. induction l as [| y l IH]; simpl in *; [done |].
  destruct (p y); [| by rewrite IH]. injection Hfind as ->. by rewrite Hfix.
Qed.

Lemma with_users_same (st : Store) (users : list User) :
  users = usersStore st → with_users (fun _ => users) st = st.
Proof. intros ->. by destruct st. Qed.

Lemma maybeResetBudget_not_due now user resetAt :
  Date_parse (budget_reset_at user) = Some resetAt → now < resetAt →
  maybeResetBudget now user = user.
Proof.
  intros Hparse Hlt. unfold maybeResetBudget. rewrite Hparse.
  assert (Z.geb now resetAt = false) as ->; [| done].
  apply not_true_is_false. rewrite Z.geb_le. lia.
Qed.

Lemma clone_logs (logs : list AuditLog) : clone logs = logs.
Proof. unfold clone, clone_list. apply List.map_id. Qed.

Lemma slice0_cons {A : Type} (limit : Z) (x : A) (items : list A) :
  1 <= limit → slice0 limit (x :: items) = x :: slice0 (limit - 1) items.
Proof.
  intros Hlimit. unfold slice0.
  destruct (Z.ltb_spec limit 0); [lia |]. destruct (Z.ltb_spec (limit - 1) 0); [lia |].
  replace (Z.to_nat limit) with (S (Z.to_nat (limit - 1))) by lia. done.
Qed.

Lemma slice0_sublist {A : Type} (limit : Z) (items : list A) :
  sublist (slice0 limit items) items.
Proof. unfold slice0. destruct (Z.ltb limit 0); apply sublist_take. Qed.

Lemma slice0_length {A : Type} (limit : Z) (items : list A) :
  0 <= limit → Z.of_nat (length (slice0 limit items)) <= limit.
Proof.
  intros Hlimit. unfold slice0. destruct (Z.ltb_spec limit 0); [lia |].
  rewrite length_take. lia.
Qed.

End UpdateAndTrail.

(** X7.  [updateUser] writes through: when the updates leave the id
    alone and the updated record's reset is not yet due, a
    [findUserById] that follows returns the record that [updateUser]
    returned (the clone of the first user with that id, with the given
    fields replaced) and leaves the store as [updateUser] left it.  For
    an id that no stored user has, [updateUser] returns null and changes
    nothing. *)
Theorem updateUser_then_read :
  ∀ (H : Host) (now : Z) (id : string) (updates : UserUpdates) (st : Store),
    let found := fun u => String.eqb (user_id u) id in
    (List.find found (usersStore st) = None → updateUser id updates st = (None, st)) ∧
    (∀ user resetAt,
       List.find found (usersStore st) = Some user →
       new_id updates = None →
       Date_parse (budget_reset_at (assign updates user)) = Some resetAt →
       now < resetAt →
       ∃ st1,
         updateUser id updates st = (Some (clone (assign updates user)), st1) ∧
         findUserById now id st1 = (Some (clone (assign updates user)), st1) ∧
         nodesStore st1 = nodesStore st ∧ edgesStore st1 = edgesStore st ∧
         auditLogStore st1 = auditLogStore st).
Proof.
  intros H now id updates st found. split.
  - intros Hnone. unfold updateUser, mbind, async_bind, get_store; simpl.
    fold found. by rewrite Hnone.
  - intros user resetAt Hfind Hid Hparse Hlt. eexists. split; [| split].
    + unfold updateUser, mbind, async_bind, get_store; simpl.
      fold found. rewrite Hfind. reflexivity.
    + assert (List.find found
                (usersStore (with_users (modify_first found (assign updates)) st))
              = Some (assign updates user)) as Hfind'.
      { apply (find_modify_first found); [| exact Hfind].
        intros y. unfold found, assign. simpl. by rewrite Hid. }
      rewrite (findUserById_found now id _ _ Hfind').
      rewrite (maybeResetBudget_not_due now _ resetAt Hparse Hlt).
      f_equal. unfold with_users at 1. cbn [nodesStore edgesStore auditLogStore draws].
      fold found.
      rewrite (modify_first_fixed found _ _ _ Hfind'
                 (maybeResetBudget_not_due now _ resetAt Hparse Hlt)).
      done.
    + done.
Qed.

(** X8.  [getAuditLogsForUser] reads the trail without changing the
    store; every entry it returns is a stored entry of the user asked
    for, in the stored order (newest first); for a limit that is not
    negative (20 when none is given) it returns at most that many
    entries, and for a negative limit it leaves out that many of the
    oldest. *)
Theorem audit_trail_is_per_user_and_bounded :
  ∀ (userId : string) (limit : option Z) (st : Store),
    let outcome := getAuditLogsForUser userId limit st in
    let own :=
      List.filter (fun log => String.eqb (audit_user_id log) userId) (auditLogStore st) in
    outcome.2 = st ∧
    (∀ log, log ∈ outcome.1 → audit_user_id log = userId ∧ log ∈ auditLogStore st) ∧
    sublist outcome.1 (auditLogStore st) ∧
    (0 <= default 20 limit → Z.of_nat (length outcome.1) <= default 20 limit) ∧
    (default 20 limit < 0 →
     outcome.1 = take (length own - Z.to_nat (- default 20 limit)) own).
Proof.
  intros userId limit st outcome own.
  assert (outcome.1 = slice0 (default 20 limit) own) as Hlogs
    by (subst outcome; unfold getAuditLogsForUser, mbind, async_bind, get_store,
          mret, async_ret; simpl; apply clone_logs).
  assert (sublist outcome.1 own) as Hsub by (rewrite Hlogs; apply slice0_sublist).
  split; [done |]. split; [| split; [| split]].
  - intros log Hin. apply (elem_of_sublist _ _ _ Hin) in Hsub as Hown. clear Hin.
    rename Hown into Hin.
    apply list_elem_of_In, filter_In in Hin as [Hin Heq].
    apply String.eqb_eq in Heq. split; [done | by apply list_elem_of_In].
  - etrans; [exact Hsub | apply filter_sublist].
  - intros Hlimit. rewrite Hlogs. by apply slice0_length.
  - intros Hlimit. rewrite Hlogs. unfold slice0.
    destruct (Z.ltb_spec (default 20 limit) 0); [| lia].
    f_equal. lia.
Qed.

(** X9.  The trail is newest first: once [insertAuditLog] has logged an
    entry for a user, reading that user's trail with a limit of at
    least one (or the default) returns the new record at the head,
    carrying the entry's fields and the clock's ISO text, followed by
    what the same read with the limit less one returned before. *)
Theorem logged_entry_heads_the_trail :
  ∀ (H : Host) (now : Z) (entry : AuditEntry) (limit : option Z) (st : Store),
    1 <= default 20 limit →
    let st' := (insertAuditLog now entry st).2 in
    ∃ log,
      (getAuditLogsForUser (entry_user_id entry) limit st').1 =
        log :: (getAuditLogsForUser (entry_user_id entry)
                  (Some (default 20 limit - 1)) st).1 ∧
      audit_user_id log = entry_user_id entry ∧
      query_text log = entry_query_text entry ∧
      query_type log = entry_query_type entry ∧
      result_count log = entry_result_count entry ∧
      access_granted log = entry_access_granted entry ∧
      denial_reason log = entry_denial_reason entry ∧
      audit_created_at log = Date_toISOString now.
Proof.
  intros H now entry limit st Hlimit st'. eexists. split.
  { subst st'.
    unfold getAuditLogsForUser, insertAuditLog, generateId, mbind, async_bind,
      get_store, modify_store, mret, async_ret; simpl.
    rewrite !clone_logs, String.eqb_refl. by rewrite slice0_cons. }
  repeat split.
Qed.

(** ** The data store: editing the graph *)

Section ListEdits.
Context {A : Type}.
Implicit Types (p : A → bool) (items : list A).

Lemma spliceFrom_spec p n items :
  (n <= length items)%nat →
  spliceFrom p n items =
  (List.filter (fun x => negb (p x)) (take n items) ++ drop n items)%list.
Proof.
  revert items. induction n as [| n IH]; intros items Hn; [done |].
  destruct (lookup_lt_is_Some_2 items n) as [x Hx]; [lia |].
  cbn [spliceFrom]. rewrite Hx, (take_S_r _ _ _ Hx), List.filter_app. simpl.
  destruct (p x) eqn:Hp; simpl.
  - rewrite IH by (rewrite length_delete; [lia | eauto]).
    rewrite delete_take_drop, app_nil_r.
    rewrite take_app_length', drop_app_length'; by rewrite ?length_take_le by lia.
  - rewrite IH by lia. by rewrite (drop_S _ _ _ Hx), <- app_assoc.
Qed.

Lemma spliceWhere_as_filter p items :
  spliceWhere p items = List.filter (fun x => negb (p x)) items.
Proof.
  unfold spliceWhere. rewrite spliceFrom_spec by done.
  by rewrite firstn_all, drop_all, app_nil_r.
Qed.

Lemma findIndex_None p items : findIndex p items = None ↔ existsb p items = false.
Proof.
  induction items as [| x items IH]; simpl; [done |].
  destruct (p x); simpl; [split; discriminate |].
  rewrite <- IH. destruct (findIndex p items); simpl; split; congruence.
Qed.

Lemma findIndex_Some p items i :
  findIndex p items = Some i →
  ∃ before x after,
    items = (before ++ x :: after)%list ∧ length before = i ∧ p x = true ∧
    existsb p before = false.
Proof.
  revert i. induction items as [| y items IH]; intros i; simpl; [discriminate |].
  destruct (p y) eqn:Hy.
  - intros [= <-]. by exists [], y, items.
  - destruct (findIndex p items) as [j |]; simpl; [| discriminate].
    intros [= <-]. destruct (IH j eq_refl) as (before & x & after & -> & <- & Hx & Hb).
    exists (y :: before), x, after. simpl. by rewrite Hy.
Qed.

Lemma findIndex_app_last p items x :
  existsb p items = false → p x = true →
  findIndex p (items ++ [x]) = Some (length items).
Proof.
  intros Hnone Hx. induction items as [| y items IH]; simpl in *; [by rewrite Hx |].
  apply orb_false_elim in Hnone as [-> Hnone]. by rewrite IH.
Qed.

Lemma delete_last items x : delete (length items) (items ++ [x])%list = items.
Proof. by rewrite delete_middle, app_nil_r. Qed.

Lemma existsb_elem_of p items :
  existsb p items = true ↔ ∃ x, x ∈ items ∧ p x = true.
Proof.
  rewrite existsb_exists. split; intros (x & Hin & Hp); exists x;
    (split; [by apply list_elem_of_In | done]).
Qed.

End ListEdits.

Section GraphEdits.
Context `{Host}.

Lemma has_id_nodes (nodeId : string) (nodes : list GraphNode) :
  existsb (fun node => String.eqb (node_id node) nodeId) nodes = true ↔
  nodeId ∈ List.map node_id nodes.
Proof.
  rewrite existsb_elem_of, list_elem_of_In, in_map_iff.
  split; intros (n & H1 & H2); exists n.
  - apply String.eqb_eq in H2. split; [done | by apply list_elem_of_In].
  - split; [by apply list_elem_of_In | by apply String.eqb_eq].
Qed.

Lemma has_id_edges (edgeId : string) (edges : list GraphEdge) :
  existsb (fun edge => String.eqb (edge_id edge) edgeId) edges = true ↔
  edgeId ∈ List.map edge_id edges.
Proof.
  rewrite existsb_elem_of, list_elem_of_In, in_map_iff.
  split; intros (n & H1 & H2); exists n.
  - apply String.eqb_eq in H2. split; [done | by apply list_elem_of_In].
  - split; [by apply list_elem_of_In | by apply String.eqb_eq].
Qed.

Lemma createNode_run now input st :
  let logicalId := chosenLogicalId (ni_logical_id input) (ni_name input) (draws st) in
  let classification := normalizeLevel (ni_classification_level input) in
  let nodeId := buildNodeId logicalId classification in
  let timestamp := Date_toISOString now in
  let node :=
    mkNode nodeId logicalId classification (ni_entity_type input) (ni_name input)
           (default ∅ (ni_attributes input)) timestamp timestamp in
  let st0 := drawn_for (ni_logical_id input) st in
  createNode now input st =
  if existsb (fun node => String.eqb (node_id node) nodeId) (nodesStore st)
  then (Thrown "Вершина с таким идентификатором уже существует", st0)
  else (Returned (clone node), with_nodes (fun nodes => (nodes ++ [node])%list) st0).
Proof.
  unfold createNode, chosenLogicalId, drawn_for.
  destruct (String.eqb (str_or (trim <$> ni_logical_id input) "") "");
    unfold randomSuffix, mbind, async_bind, get_store, modify_store, mret, async_ret;
    cbn beta iota zeta; cbn [nodesStore with_draws];
    by destruct (existsb _ (nodesStore st)).
Qed.

Lemma deleteNode_run logicalId level st :
  let nodeId := buildNodeId logicalId (normalizeLevel level) in
  deleteNode logicalId level st =
  match findIndex (fun node => String.eqb (node_id node) nodeId) (nodesStore st) with
  | None => (Thrown "Вершина не найдена", st)
  | Some nodeIndex =>
      (Returned tt,
       with_edges (List.filter (fun edge => negb (touches nodeId edge)))
                  (with_nodes (delete nodeIndex) st))
  end.
Proof.
  unfold deleteNode, mbind, async_bind, get_store, modify_store, mret, async_ret.
  cbn beta iota zeta. destruct (findIndex _ (nodesStore st)); [| done].
  unfold with_edges at 1. cbn [edgesStore with_nodes].
  by rewrite spliceWhere_as_filter.
Qed.

Lemma createEdge_run now input st :
  let classification := normalizeLevel (ei_classification_level input) in
  let logicalId :=
    chosenLogicalId (ei_logical_id input) (ei_relation_type input) (draws st) in
  let edgeId := buildNodeId logicalId classification in
  let edge :=
    mkEdge edgeId logicalId classification
           (ei_source_node_id input) (ei_target_node_id input)
           (ei_relation_type input) (default ∅ (ei_attributes input))
           (Date_toISOString now) in
  let st0 := drawn_for (ei_logical_id input) st in
  createEdge now input st =
  match List.find (fun node => String.eqb (node_id node) (ei_source_node_id input))
                  (nodesStore st),
        List.find (fun node => String.eqb (node_id node) (ei_target_node_id input))
                  (nodesStore st) with
  | Some sourceNode, Some targetNode =>
      if negb (String.eqb (node_classification_level sourceNode) classification)
         || negb (String.eqb (node_classification_level targetNode) classification)
      then (Thrown "Связи можно создавать только между вершинами одного уровня", st)
      else if existsb (fun edge => String.eqb (edge_id edge) edgeId) (edgesStore st)
      then (Thrown "Связь с таким идентификатором уже существует", st0)
      else (Returned (clone edge),
            with_edges (fun edges => (edges ++ [edge])%list) st0)
  | _, _ => (Thrown "Указанные вершины не найдены", st)
  end.
Proof.
  unfold createEdge, chosenLogicalId, drawn_for.
  unfold mbind at 1, async_bind at 1, get_store at 1. cbn beta iota zeta.
  destruct (List.find _ (nodesStore st)) as [sourceNode |]; [| done].
  destruct (List.find _ (nodesStore st)) as [targetNode |]; [| done].
  destruct (negb _ || negb _); [done |].
  destruct (String.eqb (str_or (trim <$> ei_logical_id input) "") "");
    unfold randomSuffix, mbind, async_bind, get_store, modify_store, mret, async_ret;
    cbn beta iota zeta; cbn [edgesStore with_draws];
    by destruct (existsb _ (edgesStore st)).
Qed.

Lemma deleteEdge_run edgeId st :
  deleteEdge edgeId st =
  match findIndex (fun edge => String.eqb (edge_id edge) edgeId) (edgesStore st) with
  | None => (Thrown "Связь не найдена", st)
  | Some index => (Returned tt, with_edges (delete index) st)
  end.
Proof.
  unfold deleteEdge, mbind, async_bind, get_store, modify_store, mret, async_ret.
  cbn beta iota zeta. by destruct (findIndex _ (edgesStore st)).
Qed.

Lemma drawn_for_graph given st :
  nodesStore (drawn_for given st) = nodesStore st ∧
  edgesStore (drawn_for given st) = edgesStore st ∧
  usersStore (drawn_for given st) = usersStore st ∧
  auditLogStore (drawn_for given st) = auditLogStore st.
Proof. unfold drawn_for. by destruct (String.eqb _ _). Qed.

Lemma joins_more (nodes more : list GraphNode) (edge : GraphEdge) :
  joins nodes edge → joins (nodes ++ more) edge.
Proof.
  intros [(s & Hs & ?) (t & Ht & ?)].
  split; [exists s | exists t]; (split; [apply elem_of_app; by left | done]).
Qed.

Lemma find_node_id (nodeId : string) (nodes : list GraphNode) (node : GraphNode) :
  List.find (fun node => String.eqb (node_id node) nodeId) nodes = Some node →
  node ∈ nodes ∧ node_id node = nodeId.
Proof.
  intros [Hin Heq]%find_some. apply String.eqb_eq in Heq.
  split; [by apply list_elem_of_In | done].
Qed.

End GraphEdits.

(** X10.  The loop that walks an array from its last index down to 0
    and splices out each element that meets a test removes exactly the
    elements that meet it and keeps the others in their order; the level
    clearing of [importLevelData] is that loop for the test "is at the
    level". *)
Theorem backward_splice_removes_exactly_the_matching :
  (∀ (A : Type) (p : A → bool) (items : list A),
     spliceWhere p items = List.filter (fun x => negb (p x)) items) ∧
  (∀ (A : Type) (C : Classified A) (classification : string) (items : list A),
     spliceWhere (fun item => String.eqb (classification_level item) classification)
                 items
     = removeLevel classification items).
Proof.
  split.
  - intros A p items. apply spliceWhere_as_filter.
  - intros A C classification items. by rewrite spliceWhere_as_filter.
Qed.

(** X11.  [createNode] builds the id of the new node from the logical
    id (the trimmed one of the input or, when that is empty, the slug of
    the name with a random suffix) and the normalised level.  If a
    stored node has that id it throws and the stored nodes stay;
    otherwise it appends exactly one node, with that id, logical id and
    level, the entity type and name of the input and the clock's ISO
    text as both timestamps, and returns its clone.  Either way edges,
    users and audit trail are untouched, and node ids that were
    pairwise different stay so. *)
Theorem createNode_adds_one_fresh_node :
  ∀ (H : Host) (now : Z) (input : NodeInput) (st : Store),
    let logicalId := chosenLogicalId (ni_logical_id input) (ni_name input) (draws st) in
    let classification := normalizeLevel (ni_classification_level input) in
    let nodeId := buildNodeId logicalId classification in
    let outcome := createNode now input st in
    (edgesStore outcome.2 = edgesStore st ∧ usersStore outcome.2 = usersStore st ∧
     auditLogStore outcome.2 = auditLogStore st) ∧
    (nodeId ∈ node_ids st →
     outcome.1 = Thrown "Вершина с таким идентификатором уже существует" ∧
     nodesStore outcome.2 = nodesStore st) ∧
    (nodeId ∉ node_ids st →
     ∃ node,
       outcome.1 = Returned (clone node) ∧
       nodesStore outcome.2 = (nodesStore st ++ [node])%list ∧
       node_id node = nodeId ∧ node_logical_id node = logicalId ∧
       node_classification_level node = classification ∧
       entity_type node = ni_entity_type input ∧ name node = ni_name input ∧
       node_attributes node = default ∅ (ni_attributes input) ∧
       node_created_at node = Date_toISOString now ∧
       node_updated_at node = Date_toISOString now) ∧
    (NoDup (node_ids st) → NoDup (node_ids outcome.2)).
Proof.
  intros H now input st logicalId classification nodeId outcome.
  subst outcome. rewrite createNode_run.
  fold logicalId classification nodeId.
  destruct (drawn_for_graph (ni_logical_id input) st) as (Hn & He & Hu & Ha).
  pose proof (has_id_nodes nodeId (nodesStore st)) as Hhas.
  destruct (existsb _ (nodesStore st)); cbn [fst snd]; unfold node_ids.
  - split; [done |]. split; [done |]. split; [| by rewrite Hn].
    intros Hnot. exfalso. apply Hnot. by apply Hhas.
  - assert (nodeId ∉ List.map node_id (nodesStore st)) as Hfresh
      by (intros Hin; apply Hhas in Hin; discriminate).
    split; [done |]. split; [done |]. split.
    + intros _. eexists. cbn [nodesStore with_nodes]. rewrite Hn.
      split; [reflexivity |]. by repeat split.
    + intros Hnd. cbn [nodesStore with_nodes]. rewrite Hn, List.map_app.
      apply NoDup_app. split; [done |]. split; [| apply NoDup_singleton].
      intros x Hx Heq%list_elem_of_singleton. by subst x.
Qed.

(** X12.  [deleteNode] throws, changing nothing, when no stored node has
    the id built from the logical id and the normalised level.
    Otherwise it removes the first node with that id, and that node
    only, and every edge that has the id at one of its ends, keeping
    the other edges in order; users and audit trail are untouched. *)
Theorem deleteNode_removes_the_node_and_its_edges :
  ∀ (H : Host) (logicalId level : string) (st : Store),
    let nodeId := buildNodeId logicalId (normalizeLevel level) in
    let outcome := deleteNode logicalId level st in
    (nodeId ∉ node_ids st → outcome = (Thrown "Вершина не найдена", st)) ∧
    (nodeId ∈ node_ids st →
     outcome.1 = Returned tt ∧
     (∃ before node after,
        nodesStore st = (before ++ node :: after)%list ∧
        node_id node = nodeId ∧ (nodeId ∉ List.map node_id before) ∧
        nodesStore outcome.2 = (before ++ after)%list) ∧
     edgesStore outcome.2 =
       List.filter (fun edge => negb (touches nodeId edge)) (edgesStore st) ∧
     (∀ edge, edge ∈ edgesStore outcome.2 →
        source_node_id edge ≠ nodeId ∧ target_node_id edge ≠ nodeId) ∧
     usersStore outcome.2 = usersStore st ∧
     auditLogStore outcome.2 = auditLogStore st).
Proof.
  intros H logicalId level st nodeId outcome. subst outcome.
  rewrite deleteNode_run. fold nodeId.
  pose proof (has_id_nodes nodeId (nodesStore st)) as Hhas.
  destruct (findIndex _ (nodesStore st)) as [i |] eqn:Hfind.
  - split.
    + intros Hnot. exfalso. apply Hnot, Hhas.
      destruct (existsb _ (nodesStore st)) eqn:Hex; [done |].
      apply findIndex_None in Hex. congruence.
    + intros _. destruct (findIndex_Some _ _ _ Hfind)
        as (before & node & after & Hsplit & Hlen & Hid & Hbefore).
      apply String.eqb_eq in Hid.
      split; [done |]. split; [| split; [done | split; [| done]]].
      * exists before, node, after. split; [done |]. split; [done |]. split.
        -- intros Hin. apply has_id_nodes in Hin. congruence.
        -- cbn [snd nodesStore with_edges with_nodes].
           by rewrite Hsplit, <- Hlen, delete_middle.
      * intros edge Hin. cbn [snd edgesStore with_edges with_nodes] in Hin.
        apply list_elem_of_In, filter_In in Hin as [_ Hno].
        unfold touches in Hno. apply negb_true_iff, orb_false_elim in Hno as [Hs Ht].
        split; intros Heq; rewrite Heq, String.eqb_refl in *; discriminate.
  - split; [done |]. intros Hin. apply Hhas in Hin.
    apply findIndex_None in Hfind. congruence.
Qed.

(** X13.  Creating a node and then deleting it, by the logical id of
    the returned node and the level that was given, restores the graph:
    in a store whose edges all join stored nodes (of whatever level),
    the stored nodes and the stored edges are then exactly as before the
    creation. *)
Theorem createNode_then_deleteNode_restores_the_graph :
  ∀ (H : Host) (now : Z) (input : NodeInput) (st st1 : Store) (node : GraphNode),
    edges_closed st →
    createNode now input st = (Returned node, st1) →
    ∃ st2,
      deleteNode (node_logical_id node) (ni_classification_level input) st1
      = (Returned tt, st2) ∧
      nodesStore st2 = nodesStore st ∧ edgesStore st2 = edgesStore st.
Proof.
  intros H now input st st1 node Hjoined. rewrite createNode_run.
  set (logicalId := chosenLogicalId _ _ _).
  set (nodeId := buildNodeId logicalId _).
  destruct (drawn_for_graph (ni_logical_id input) st) as (Hn & He & _ & _).
  destruct (existsb _ (nodesStore st)) eqn:Hfresh; [discriminate |].
  intros [= <- <-]. rewrite deleteNode_run. cbn [clone clone_node node_logical_id].
  fold nodeId. cbn [nodesStore with_nodes]. rewrite Hn.
  rewrite findIndex_app_last; [| done | apply String.eqb_refl].
  eexists. split; [reflexivity |].
  cbn [nodesStore edgesStore with_edges with_nodes]. rewrite Hn, He, delete_last.
  split; [done |]. apply List.forallb_filter_id, List.forallb_forall.
  intros edge Hin%list_elem_of_In.
  destruct (Hjoined edge Hin) as [(s & Hs & Hsid) (t & Ht & Htid)].
  unfold touches. rewrite <- Hsid, <- Htid.
  assert (∀ n, n ∈ nodesStore st → String.eqb (node_id n) nodeId = false) as Hother.
  { intros n Hnin. apply not_true_is_false. intros Heq.
    assert (existsb (fun node => String.eqb (node_id node) nodeId) (nodesStore st)
            = true) as Hex by (apply existsb_elem_of; by exists n).
    congruence. }
  by rewrite (Hother s Hs), (Hother t Ht).
Qed.

(** X14.  An edge that [createEdge] returns was appended to the stored
    edges, under an id no stored edge had, and joins two stored nodes
    that both are at the edge's level, the normalised level of the
    input; the returned edge is the clone of the stored one and the
    stored nodes are untouched. *)
Theorem createEdge_joins_stored_nodes_of_its_level :
  ∀ (H : Host) (now : Z) (input : EdgeInput) (st st1 : Store) (edge : GraphEdge),
    createEdge now input st = (Returned edge, st1) →
    ∃ stored,
      edge = clone stored ∧
      edgesStore st1 = (edgesStore st ++ [stored])%list ∧
      nodesStore st1 = nodesStore st ∧
      joins (nodesStore st) stored ∧
      (edge_id stored ∉ edge_ids st) ∧
      edge_classification_level stored = normalizeLevel (ei_classification_level input) ∧
      edge_id stored =
        buildNodeId (edge_logical_id stored) (edge_classification_level stored) ∧
      source_node_id stored = ei_source_node_id input ∧
      target_node_id stored = ei_target_node_id input ∧
      relation_type stored = ei_relation_type input.
Proof.
  intros H now input st st1 edge. rewrite createEdge_run.
  destruct (drawn_for_graph (ei_logical_id input) st) as (Hn & He & _ & _).
  destruct (List.find (fun node => String.eqb (node_id node) (ei_source_node_id input))
                      (nodesStore st)) as [sourceNode |] eqn:Hs; [| discriminate].
  destruct (List.find (fun node => String.eqb (node_id node) (ei_target_node_id input))
                      (nodesStore st)) as [targetNode |] eqn:Ht; [| discriminate].
  destruct (negb _ || negb _) eqn:Hlevels; [discriminate |].
  destruct (existsb _ (edgesStore st)) eqn:Hfresh; [discriminate |].
  intros [= <- <-]. eexists. split; [reflexivity |].
  cbn [edgesStore nodesStore with_edges]. rewrite He, Hn.
  apply orb_false_elim in Hlevels as [Hls Hlt].
  apply negb_false_iff, String.eqb_eq in Hls, Hlt.
  apply find_node_id in Hs as [Hsin Hsid], Ht as [Htin Htid].
  split; [done |]. split; [done |]. split; [| split; [| done]].
  - split; [exists sourceNode | exists targetNode]; by cbn.
  - cbn. unfold edge_ids. intros Hin. apply has_id_edges in Hin. congruence.
Qed.

(** X15.  What [createEdge] refuses: an endpoint id that no stored node
    has ("Указанные вершины не найдены"), an endpoint whose level is
    not the normalised level of the input ("Связи можно создавать
    только между вершинами одного уровня"), an id that a stored edge
    has.  Whenever it throws, nodes, edges, users and audit trail are as
    before. *)
Theorem createEdge_refusals :
  ∀ (H : Host) (now : Z) (input : EdgeInput) (st : Store),
    let classification := normalizeLevel (ei_classification_level input) in
    let outcome := createEdge now input st in
    ((ei_source_node_id input ∉ node_ids st ∨ ei_target_node_id input ∉ node_ids st) →
     outcome = (Thrown "Указанные вершины не найдены", st)) ∧
    (∀ sourceNode targetNode,
       List.find (fun node => String.eqb (node_id node) (ei_source_node_id input))
                 (nodesStore st) = Some sourceNode →
       List.find (fun node => String.eqb (node_id node) (ei_target_node_id input))
                 (nodesStore st) = Some targetNode →
       node_classification_level sourceNode ≠ classification ∨
       node_classification_level targetNode ≠ classification →
       outcome =
         (Thrown "Связи можно создавать только между вершинами одного уровня", st)) ∧
    (∀ message, outcome.1 = Thrown message →
       nodesStore outcome.2 = nodesStore st ∧ edgesStore outcome.2 = edgesStore st ∧
       usersStore outcome.2 = usersStore st ∧
       auditLogStore outcome.2 = auditLogStore st).
Proof.
  intros H now input st classification outcome. subst outcome.
  rewrite createEdge_run. fold classification.
  destruct (drawn_for_graph (ei_logical_id input) st) as (Hn & He & Hu & Ha).
  assert (∀ nodeId, nodeId ∉ node_ids st →
            List.find (fun node => String.eqb (node_id node) nodeId) (nodesStore st)
            = None) as Habsent.
  { intros nodeId Hnot.
    destruct (List.find _ (nodesStore st)) as [n |] eqn:Hfind; [| done].
    apply find_node_id in Hfind as [Hin <-]. exfalso. apply Hnot.
    unfold node_ids. apply list_elem_of_In, in_map, list_elem_of_In, Hin. }
  split; [| split].
  - intros [Hs | Ht].
    + by rewrite (Habsent _ Hs).
    + rewrite (Habsent _ Ht). by destruct (List.find _ (nodesStore st)).
  - intros sourceNode targetNode -> -> Hlevels.
    assert (negb (String.eqb (node_classification_level sourceNode) classification)
            || negb (String.eqb (node_classification_level targetNode) classification)
            = true) as ->; [| done].
    apply orb_true_iff.
    destruct Hlevels as [Hl | Hl]; [left | right];
      apply negb_true_iff, not_true_is_false; by rewrite String.eqb_eq.
  - intros message.
    destruct (List.find _ (nodesStore st)); [| done].
    destruct (List.find _ (nodesStore st)); [| done].
    destruct (negb _ || negb _); [done |].
    destruct (existsb _ (edgesStore st)); [done | discriminate].
Qed.

(** X16.  Creating an edge and then deleting it by the id of the
    returned edge restores the stored edges (and leaves the nodes as
    they were); [deleteEdge] on an id that no stored edge has throws and
    changes nothing. *)
Theorem createEdge_then_deleteEdge_restores_the_edges :
  ∀ (H : Host) (now : Z) (input : EdgeInput) (st : Store),
    (∀ st1 edge,
       createEdge now input st = (Returned edge, st1) →
       ∃ st2,
         deleteEdge (edge_id edge) st1 = (Returned tt, st2) ∧
         edgesStore st2 = edgesStore st ∧ nodesStore st2 = nodesStore st) ∧
    (∀ edgeId, edgeId ∉ edge_ids st →
       deleteEdge edgeId st = (Thrown "Связь не найдена", st)).
Proof.
  intros H now input st. split.
  - intros st1 edge. rewrite createEdge_run.
    destruct (drawn_for_graph (ei_logical_id input) st) as (Hn & He & _ & _).
    destruct (List.find _ (nodesStore st)); [| discriminate].
    destruct (List.find _ (nodesStore st)); [| discriminate].
    destruct (negb _ || negb _); [discriminate |].
    destruct (existsb _ (edgesStore st)) eqn:Hfresh; [discriminate |].
    intros [= <- <-]. rewrite deleteEdge_run. cbn [clone clone_edge edge_id].
    cbn [edgesStore with_edges]. rewrite He.
    rewrite findIndex_app_last; [| done | apply String.eqb_refl].
    eexists. split; [reflexivity |].
    cbn [edgesStore nodesStore with_edges]. by rewrite He, Hn, delete_last.
  - intros edgeId Hnot. rewrite deleteEdge_run.
    destruct (findIndex _ (edgesStore st)) eqn:Hfind; [| done].
    exfalso. apply Hnot, has_id_edges.
    destruct (existsb _ (edgesStore st)) eqn:Hex; [done |].
    apply findIndex_None in Hex. congruence.
Qed.

(** ** The data store: importing a level *)

Section ImportAnyPayload.
Context `{Host}.

Lemma importedLogicalId_any item base fallback st :
  ∃ outcome st',
    importedLogicalId item base fallback st = (outcome, st') ∧
    nodesStore st' = nodesStore st ∧ edgesStore st' = edgesStore st ∧
    usersStore st' = usersStore st ∧ auditLogStore st' = auditLogStore st.
Proof.
  unfold importedLogicalId. destruct (truthy _); [by eexists _, _ |].
  destruct (or_else _ _);
    unfold randomSuffix, mbind, async_bind, get_store, modify_store, mret, async_ret;
    cbn beta iota zeta; by eexists _, _.
Qed.

(** One entity item, whatever it is: at most one node of the level is
    appended, and exactly one when the step completes. *)
Lemma importEntity_any classification now entity logicalToId st :
  ∃ outcome news st',
    importEntity classification now entity logicalToId st = (outcome, st') ∧
    nodesStore st' = (nodesStore st ++ news)%list ∧
    edgesStore st' = edgesStore st ∧ usersStore st' = usersStore st ∧
    auditLogStore st' = auditLogStore st ∧
    (length news <= 1)%nat ∧
    Forall (fun node => node_classification_level node = classification) news ∧
    (∀ table, outcome = Completed table →
       is_nullish entity = false ∧
       ∃ key node,
         news = [node] ∧
         table = <[key := buildNodeId key classification]> logicalToId ∧
         node_id node = buildNodeId key classification).
Proof.
  assert (∀ (outcome : Ending (gmap string string)) (st1 : Store),
            nodesStore st1 = nodesStore st → edgesStore st1 = edgesStore st →
            usersStore st1 = usersStore st → auditLogStore st1 = auditLogStore st →
            (∀ table, outcome ≠ Completed table) →
            ∃ outcome' news st',
              (outcome, st1) = (outcome', st') ∧
              nodesStore st' = (nodesStore st ++ news)%list ∧
              edgesStore st' = edgesStore st ∧ usersStore st' = usersStore st ∧
              auditLogStore st' = auditLogStore st ∧
              (length news <= 1)%nat ∧
              Forall (fun node => node_classification_level node = classification)
                     news ∧
              (∀ table, outcome' = Completed table →
                 is_nullish entity = false ∧
                 ∃ key node,
                   news = [node] ∧
                   table = <[key := buildNodeId key classification]> logicalToId ∧
                   node_id node = buildNodeId key classification)) as Hstops.
  { intros outcome st1 Hn He Hu Ha Hnot. exists outcome, [], st1.
    rewrite app_nil_r. repeat (split; [done || (cbn; lia) |]).
    intros table Heq. by destruct (Hnot table). }
  unfold importEntity. destruct (is_nullish entity) eqn:Hnull.
  { by apply Hstops. }
  unfold mbind, async_bind.
  destruct (importedLogicalId_any entity "name" "entity" st)
    as (outcome & st1 & -> & Hn & He & Hu & Ha).
  destruct outcome as [logicalId | |]; [| by apply Hstops ..].
  destruct logicalId as [| | | | logicalId | |]; try by apply Hstops.
  destruct (string_field (field entity "entity_type") "Unknown");
    [| by apply Hstops].
  destruct (string_field (field entity "name") logicalId); [| by apply Hstops].
  destruct (bag_field (field entity "attributes")); [| by apply Hstops].
  destruct (string_field (field entity "created_at") now); [| by apply Hstops].
  destruct (string_field (field entity "updated_at") now); [| by apply Hstops].
  unfold modify_store, mret, async_ret. cbn beta iota zeta.
  eexists _, [_], _. split; [reflexivity |].
  cbn [nodesStore edgesStore usersStore auditLogStore with_nodes].
  rewrite Hn, He, Hu, Ha.
  split; [done |]. split; [done |]. split; [done |]. split; [done |].
  split; [cbn; lia |]. split; [by repeat constructor |].
  intros table [= <-]. split; [done |]. by eexists _, _.
Qed.

Lemma forEachE_importEntity_any classification now items logicalToId st :
  ∃ outcome news st',
    forEachE (importEntity classification now) items logicalToId st = (outcome, st') ∧
    nodesStore st' = (nodesStore st ++ news)%list ∧
    (length news <= length items)%nat ∧
    Forall (fun node => node_classification_level node = classification) news ∧
    edgesStore st' = edgesStore st ∧ usersStore st' = usersStore st ∧
    auditLogStore st' = auditLogStore st ∧
    (∀ table, outcome = Completed table →
       length news = length items ∧
       Forall (fun item => is_nullish item = false) items ∧
       (table_points_to_level classification logicalToId st →
        table_points_to_level classification table st')).
Proof.
  revert logicalToId st. induction items as [| entity items IH]; intros logicalToId st.
  - exists (Completed logicalToId), [], st. cbn. rewrite app_nil_r.
    do 7 (split; [done |]). by intros table [= <-].
  - destruct (importEntity_any classification now entity logicalToId st)
      as (step & first & st1 & Hrun & Hn & He & Hu & Ha & Hlen & Hlevel & Hdone).
    cbn [forEachE]. unfold mbind, async_bind. rewrite Hrun.
    destruct step as [table1 | |].
    + destruct (Hdone table1 eq_refl) as (Hnull & key & node & -> & -> & Hid).
      destruct (IH (<[key := buildNodeId key classification]> logicalToId) st1)
        as (outcome & news & st2 & Hrun' & Hn' & Hlen' & Hlevels & He' & Hu' & Ha'
            & Hdone').
      exists outcome, (node :: news), st2.
      split; [exact Hrun' |].
      rewrite Hn', Hn, <- app_assoc, He', He, Hu', Hu, Ha', Ha.
      split; [done |]. split; [cbn; lia |].
      split; [constructor; [by apply Forall_inv in Hlevel | done] |].
      split; [done |]. split; [done |]. split; [done |].
      intros table Heq. destruct (Hdone' table Heq) as (Hlen'' & Hnulls & Htable).
      split; [cbn; lia |]. split; [by constructor |].
      intros Hold. apply Htable. intros k id.
      destruct (decide (k = key)) as [-> | Hne].
      * rewrite lookup_insert_eq. intros [= <-]. exists node. rewrite Hn.
        split; [apply elem_of_app; right; by left |].
        split; [done | by apply Forall_inv in Hlevel].
      * rewrite lookup_insert_ne by done. intros Hk.
        destruct (Hold k id Hk) as (n & Hin & ? & ?). exists n. rewrite Hn.
        split; [apply elem_of_app; by left | done].
    + exists TypeError, first, st1. unfold mret, async_ret.
      split; [done |]. split; [done |]. split; [cbn; lia |].
      do 4 (split; [done |]). discriminate.
    + exists OffType, first, st1. unfold mret, async_ret.
      split; [done |]. split; [done |]. split; [cbn; lia |].
      do 4 (split; [done |]). discriminate.
Qed.

Lemma table_get_lookup (logicalToId : gmap string string) (key : JsValue) :
  str_or (table_get logicalToId key) "" ≠ "" →
  ∃ k, logicalToId !! k = Some (str_or (table_get logicalToId key) "").
Proof.
  destruct key as [| | | | k | |]; simpl; try done.
  destruct (logicalToId !! k) as [id |] eqn:Hk; simpl; [| done].
  destruct (String.eqb id ""); [done |]. intros _. by exists k.
Qed.

(** One relationship item, whatever it is: at most one edge is appended,
    between two nodes of the id table. *)
Lemma importRelationship_any classification now logicalToId relationship st :
  ∃ outcome news st',
    importRelationship classification now logicalToId relationship tt st
    = (outcome, st') ∧
    edgesStore st' = (edgesStore st ++ news)%list ∧
    (length news <= 1)%nat ∧
    Forall (resolved_edge classification logicalToId) news ∧
    nodesStore st' = nodesStore st ∧ usersStore st' = usersStore st ∧
    auditLogStore st' = auditLogStore st ∧
    (outcome = Completed tt → is_nullish relationship = false).
Proof.
  assert (∀ (outcome : Ending unit) (st1 : Store),
            nodesStore st1 = nodesStore st → edgesStore st1 = edgesStore st →
            usersStore st1 = usersStore st → auditLogStore st1 = auditLogStore st →
            (outcome = Completed tt → is_nullish relationship = false) →
            ∃ outcome' news st',
              (outcome, st1) = (outcome', st') ∧
              edgesStore st' = (edgesStore st ++ news)%list ∧
              (length news <= 1)%nat ∧
              Forall (resolved_edge classification logicalToId) news ∧
              nodesStore st' = nodesStore st ∧ usersStore st' = usersStore st ∧
              auditLogStore st' = auditLogStore st ∧
              (outcome' = Completed tt → is_nullish relationship = false)) as Hnone.
  { intros outcome st1 Hn He Hu Ha Hnull. exists outcome, [], st1.
    rewrite app_nil_r. repeat (split; [done || (cbn; lia) |]). done. }
  unfold importRelationship. destruct (is_nullish relationship) eqn:Hnull.
  { by apply Hnone. }
  unfold mbind, async_bind.
  destruct (importedLogicalId_any relationship "relation_type" "relation" st)
    as (outcome & st1 & -> & Hn & He & Hu & Ha).
  destruct outcome as [logicalId | |]; [| by apply Hnone ..].
  destruct (String.eqb_spec
              (str_or (table_get logicalToId (field relationship "source_id")) "") "")
    as [Hs | Hs]; [by apply Hnone |].
  destruct (String.eqb_spec
              (str_or (table_get logicalToId (field relationship "target_id")) "") "")
    as [Ht | Ht]; [by apply Hnone |].
  apply table_get_lookup in Hs, Ht. cbn [orb].
  destruct logicalId as [| | | | logicalId | |]; try by apply Hnone.
  destruct (string_field (field relationship "relation_type") "RELATED_TO");
    [| by apply Hnone].
  destruct (bag_field (field relationship "attributes")); [| by apply Hnone].
  destruct (string_field (field relationship "created_at") now); [| by apply Hnone].
  unfold modify_store, mret, async_ret. cbn beta iota zeta.
  eexists _, [_], _. split; [reflexivity |].
  cbn [nodesStore edgesStore usersStore auditLogStore with_edges].
  rewrite Hn, He, Hu, Ha.
  split; [done |]. split; [cbn; lia |].
  split; [constructor; [by split | constructor] |]. done.
Qed.

Lemma forEachE_importRelationship_any classification now logicalToId items st :
  ∃ outcome news st',
    forEachE (importRelationship classification now logicalToId) items tt st
    = (outcome, st') ∧
    edgesStore st' = (edgesStore st ++ news)%list ∧
    (length news <= length items)%nat ∧
    Forall (resolved_edge classification logicalToId) news ∧
    nodesStore st' = nodesStore st ∧ usersStore st' = usersStore st ∧
    auditLogStore st' = auditLogStore st ∧
    (outcome = Completed tt → Forall (fun item => is_nullish item = false) items).
Proof.
  revert st. induction items as [| r items IH]; intros st.
  - exists (Completed tt), [], st. cbn. rewrite app_nil_r.
    do 7 (split; [done |]). done.
  - destruct (importRelationship_any classification now logicalToId r st)
      as (step & first & st1 & Hrun & He & Hlen & Hres & Hn & Hu & Ha & Hnull).
    cbn [forEachE]. unfold mbind, async_bind. rewrite Hrun.
    destruct step as [[] | |].
    + destruct (IH st1)
        as (outcome & news & st2 & Hrun' & He' & Hlen' & Hres' & Hn' & Hu' & Ha'
            & Hnulls).
      exists outcome, (first ++ news)%list, st2. split; [exact Hrun' |].
      rewrite He', He, <- app_assoc, Hn', Hn, Hu', Hu, Ha', Ha, length_app.
      split; [done |]. split; [cbn; lia |]. split; [by apply Forall_app |].
      do 3 (split; [done |]). intros Heq.
      constructor; [by apply Hnull | by apply Hnulls].
    + exists TypeError, first, st1. unfold mret, async_ret.
      split; [done |]. split; [done |]. split; [cbn; lia |].
      do 4 (split; [done |]). discriminate.
    + exists OffType, first, st1. unfold mret, async_ret.
      split; [done |]. split; [done |]. split; [cbn; lia |].
      do 4 (split; [done |]). discriminate.
Qed.

(** The store that [importLevelData] leaves, for a payload of any
    shape, whether the call returns or stops. *)
Lemma importLevelData_any now level payload st :
  let classification := normalizeLevel level in
  ∃ outcome newNodes newEdges after,
    importLevelData now level payload st = (outcome, after) ∧
    nodesStore after = (removeLevel classification (nodesStore st) ++ newNodes)%list ∧
    edgesStore after = (removeLevel classification (edgesStore st) ++ newEdges)%list ∧
    (length newNodes <= length (items_of (field payload "entities")))%nat ∧
    (length newEdges <= length (items_of (field payload "relationships")))%nat ∧
    Forall (fun node => node_classification_level node = classification) newNodes ∧
    Forall (fun edge => edge_classification_level edge = classification) newEdges ∧
    Forall (joins (nodesStore after)) newEdges ∧
    usersStore after = usersStore st ∧ auditLogStore after = auditLogStore st ∧
    (outcome = Completed tt →
       is_nullish payload = false ∧
       length newNodes = length (items_of (field payload "entities")) ∧
       Forall (fun item => is_nullish item = false)
              (items_of (field payload "entities")) ∧
       Forall (fun item => is_nullish item = false)
              (items_of (field payload "relationships"))).
Proof.
  intros classification.
  set (st0 := with_edges (removeLevel classification)
                (with_nodes (removeLevel classification) st)).
  unfold importLevelData. fold classification.
  unfold mbind at 1 2, async_bind at 1 2, modify_store. cbn beta iota zeta.
  fold st0.
  destruct (is_nullish payload) eqn:Hnull.
  { exists TypeError, [], [], st0. unfold mret, async_ret. cbn.
    rewrite !app_nil_r. do 10 (split; [done || lia |]). discriminate. }
  unfold mbind, async_bind.
  destruct (forEachE_importEntity_any classification (Date_toISOString now)
              (items_of (field payload "entities")) ∅ st0)
    as (step & newNodes & st1 & -> & Hn1 & Hlen1 & Hlevels & He1 & Hu1 & Ha1 & Hdone).
  destruct step as [table | |].
  - destruct (Hdone table eq_refl) as (Hlen & Hnulls & Htable).
    destruct (forEachE_importRelationship_any classification (Date_toISOString now)
                table (items_of (field payload "relationships")) st1)
      as (outcome & newEdges & st2 & -> & He2 & Hlen2 & Hres & Hn2 & Hu2 & Ha2 & Hnulls').
    exists outcome, newNodes, newEdges, st2.
    rewrite Hn2, Hn1, He2, He1, Hu2, Hu1, Ha2, Ha1.
    split; [done |]. split; [done |]. split; [done |]. split; [done |].
    split; [done |]. split; [done |].
    split; [eapply Forall_impl; [exact Hres |]; by intros e [? _] |].
    split.
    { eapply Forall_impl; [exact Hres |]. intros e (Hlevel & [ks Hks] & [kt Hkt]).
      assert (table_points_to_level classification table st1) as Hpoints
        by (apply Htable; by intros ? ? ?).
      destruct (Hpoints _ _ Hks) as (s & Hs & Hsid & Hsl).
      destruct (Hpoints _ _ Hkt) as (t & Ht & Htid & Htl).
      rewrite Hn1 in Hs, Ht.
      split; [exists s | exists t]; (split; [done |]); (split; [done | congruence]). }
    split; [done |]. split; [done |].
    intros Heq. split; [done |]. split; [done |]. split; [done | by apply Hnulls'].
  - exists TypeError, newNodes, [], st1. unfold mret, async_ret.
    rewrite Hn1, He1, Hu1, Ha1, app_nil_r.
    split; [done |]. split; [done |]. split; [done |]. split; [done |].
    split; [cbn; lia |]. do 5 (split; [done |]). discriminate.
  - exists OffType, newNodes, [], st1. unfold mret, async_ret.
    rewrite Hn1, He1, Hu1, Ha1, app_nil_r.
    split; [done |]. split; [done |]. split; [done |]. split; [done |].
    split; [cbn; lia |]. do 5 (split; [done |]). discriminate.
Qed.

(** A payload whose items are typed, as the exporter builds them, is
    imported to the end. *)
Lemma importEntity_typed classification now entity logicalToId st :
  ∃ table st',
    importEntity classification now (entity_value entity) logicalToId st
    = (Completed table, st').
Proof.
  unfold importEntity, importedLogicalId. cbn [is_nullish entity_value].
  change (field (entity_value entity) "logical_id")
    with (js_string (item_logical_id entity)).
  change (field (entity_value entity) "entity_type")
    with (js_string (item_entity_type entity)).
  change (field (entity_value entity) "name") with (js_string (item_name entity)).
  change (field (entity_value entity) "attributes")
    with (js_bag (item_attributes entity)).
  change (field (entity_value entity) "created_at")
    with (js_string (item_created_at entity)).
  change (field (entity_value entity) "updated_at")
    with (js_string (item_updated_at entity)).
  rewrite truthy_js_string, or_else_js_string.
  destruct (String.eqb_spec (str_or (item_logical_id entity) "") "") as [_ | Hgiven];
    cbv beta iota zeta delta
      [mbind async_bind randomSuffix get_store modify_store mret async_ret negb].
  - rewrite !string_field_js_string, bag_field_js_bag. by eexists _, _.
  - rewrite (js_string_given _ Hgiven), !string_field_js_string, bag_field_js_bag.
    by eexists _, _.
Qed.

Lemma importRelationship_typed classification now logicalToId relationship st :
  ∃ st',
    importRelationship classification now logicalToId
                       (relationship_value relationship) tt st
    = (Completed tt, st').
Proof.
  unfold importRelationship, importedLogicalId.
  cbn [is_nullish relationship_value].
  change (field (relationship_value relationship) "logical_id")
    with (js_string (rel_logical_id relationship)).
  change (field (relationship_value relationship) "relation_type")
    with (js_string (rel_relation_type relationship)).
  change (field (relationship_value relationship) "attributes")
    with (js_bag (rel_attributes relationship)).
  change (field (relationship_value relationship) "created_at")
    with (js_string (rel_created_at relationship)).
  rewrite truthy_js_string, or_else_js_string, !string_field_js_string,
    bag_field_js_bag.
  destruct (String.eqb_spec (str_or (rel_logical_id relationship) "") "")
    as [_ | Hgiven];
    cbv beta iota zeta delta
      [mbind async_bind randomSuffix get_store modify_store mret async_ret negb].
  - destruct (_ || _); by eexists.
  - rewrite (js_string_given _ Hgiven). destruct (_ || _); by eexists.
Qed.

Lemma importLevelData_typed now level (payload : Payload) st :
  (importLevelData now level (payload_value payload) st).1 = Completed tt.
Proof.
  unfold importLevelData. cbn [is_nullish payload_value].
  change (items_of (field (payload_value payload) "entities"))
    with (List.map entity_value (entities payload)).
  change (items_of (field (payload_value payload) "relationships"))
    with (List.map relationship_value (relationships payload)).
  unfold mbind, async_bind, modify_store. cbn beta iota zeta.
  set (st0 := with_edges _ _). set (now' := Date_toISOString now).
  set (classification := normalizeLevel level).
  assert (∀ items table st1,
            ∃ table' st2,
              forEachE (importEntity classification now') (List.map entity_value items)
                       table st1 = (Completed table', st2)) as Hentities.
  { induction items as [| entity items IH]; intros table st1; [by eexists _, _ |].
    cbn [forEachE List.map]. unfold mbind, async_bind.
    destruct (importEntity_typed classification now' entity table st1)
      as (table1 & st2 & ->). apply IH. }
  assert (∀ table items st1,
            ∃ st2,
              forEachE (importRelationship classification now' table)
                       (List.map relationship_value items) tt st1
              = (Completed tt, st2)) as Hrelationships.
  { intros table. induction items as [| r items IH]; intros st1; [by eexists |].
    cbn [forEachE List.map]. unfold mbind, async_bind.
    destruct (importRelationship_typed classification now' table r st1) as (st2 & ->).
    apply IH. }
  destruct (Hentities (entities payload) ∅ st0) as (table & st1 & ->).
  by destruct (Hrelationships table (relationships payload) st1) as (st2 & ->).
Qed.

Lemma filter_other_level `{Classified A} (other classification : string)
    (items news : list A) :
  other ≠ classification →
  Forall (fun item => classification_level item = classification) news →
  List.filter (fun item => String.eqb (classification_level item) other)
              (removeLevel classification items ++ news)
  = List.filter (fun item => String.eqb (classification_level item) other) items.
Proof.
  intros Hne Hnews. rewrite List.filter_app.
  rewrite (filter_none _ news), app_nil_r.
  - unfold removeLevel. induction items as [| x items IH]; simpl; [done |].
    destruct (String.eqb_spec (classification_level x) classification) as [Heq | Hneq];
      simpl.
    + destruct (String.eqb_spec (classification_level x) other); [congruence | done].
    + by rewrite IH.
  - eapply Forall_impl; [exact Hnews |]. intros x Hx. simpl in Hx.
    rewrite Hx. apply not_true_is_false. rewrite String.eqb_eq. congruence.
Qed.

End ImportAnyPayload.

(** X17.  [importLevelData] on a payload of any shape, whether it
    returns or throws a TypeError, as long as what it stores has the
    declared types.  It replaces one level and nothing else: afterwards
    the stored nodes are the nodes that were at other levels, in order,
    followed by at most one new node of the level per entity item, and
    the stored edges are the edges that were at other levels followed by
    at most one new edge of the level per relationship item; the nodes
    and edges of every other level, the users and the audit trail are as
    before.  When the call returns, there is exactly one new node per
    entity item, and neither the payload nor any item is null: a null
    payload or item makes the call throw after the level was cleared.
    On a payload whose items are typed, as the exporter builds them, the
    call returns. *)
Theorem importLevelData_replaces_one_level :
  ∀ (H : Host) (now : Z) (level : string) (payload : JsValue) (st : Store),
    let classification := normalizeLevel level in
    let entityItems := items_of (field payload "entities") in
    let relationshipItems := items_of (field payload "relationships") in
    let outcome := (importLevelData now level payload st).1 in
    let after := (importLevelData now level payload st).2 in
    outcome ≠ OffType →
    (∃ newNodes newEdges,
       nodesStore after = (removeLevel classification (nodesStore st) ++ newNodes)%list ∧
       edgesStore after = (removeLevel classification (edgesStore st) ++ newEdges)%list ∧
       (length newNodes <= length entityItems)%nat ∧
       (length newEdges <= length relationshipItems)%nat ∧
       nodesAt classification after = newNodes ∧
       edgesAt classification after = newEdges) ∧
    (outcome = Completed tt →
       is_nullish payload = false ∧
       length (nodesAt classification after) = length entityItems ∧
       Forall (fun item => is_nullish item = false) entityItems ∧
       Forall (fun item => is_nullish item = false) relationshipItems) ∧
    (∀ typed : Payload, payload = payload_value typed → outcome = Completed tt) ∧
    (∀ other, other ≠ classification →
       nodesAt other after = nodesAt other st ∧
       edgesAt other after = edgesAt other st) ∧
    usersStore after = usersStore st ∧ auditLogStore after = auditLogStore st.
Proof.
  intros H now level payload st classification entityItems relationshipItems
    outcome after _.
  destruct (importLevelData_any now level payload st)
    as (outcome' & newNodes & newEdges & st' & Hrun & Hn & He & Hlen & Hlen' & Hlevels
        & Hlevels' & _ & Hu & Ha & Hdone).
  fold classification in Hn, He, Hlevels, Hlevels'.
  assert (nodesAt classification st' = newNodes ∧ edgesAt classification st' = newEdges)
    as [Hnodes Hedges].
  { unfold nodesAt, edgesAt. rewrite Hn, He, !List.filter_app.
    rewrite (filter_none _ (removeLevel classification (nodesStore st))),
            (filter_none _ (removeLevel classification (edgesStore st))).
    + split; apply filter_all; (eapply Forall_impl; [eassumption |]);
        intros x Hx; simpl in Hx; rewrite Hx; apply String.eqb_refl.
    + apply List.Forall_forall. intros e [_ Hin]%filter_In.
      by apply negb_true_iff in Hin.
    + apply List.Forall_forall. intros n [_ Hin]%filter_In.
      by apply negb_true_iff in Hin. }
  split; [| split; [| split; [| split; [| split]]]].
  - subst after. rewrite Hrun. cbn [snd]. by exists newNodes, newEdges.
  - subst outcome after. rewrite Hrun. cbn [fst snd]. intros Heq.
    destruct (Hdone Heq) as (? & ? & ? & ?). by rewrite Hnodes.
  - intros typed ->. apply importLevelData_typed.
  - subst after. rewrite Hrun. cbn [snd].
    intros other Hne. unfold nodesAt, edgesAt. rewrite Hn, He.
    split.
    + exact (filter_other_level other classification (nodesStore st) newNodes
               Hne Hlevels).
    + exact (filter_other_level other classification (edgesStore st) newEdges
               Hne Hlevels').
  - subst after. by rewrite Hrun.
  - subst after. by rewrite Hrun.
Qed.

Section Integrity.
Context `{Host}.

Lemma edges_joined_same (st st' : Store) :
  nodesStore st' = nodesStore st → edgesStore st' = edgesStore st →
  edges_joined st → edges_joined st'.
Proof. unfold edges_joined. intros -> ->. done. Qed.

Lemma joins_other_nodes (nodes nodes' : list GraphNode) (edge : GraphEdge) :
  (∀ n, n ∈ nodes → node_id n = source_node_id edge ∨ node_id n = target_node_id edge →
        node_classification_level n = edge_classification_level edge → n ∈ nodes') →
  joins nodes edge → joins nodes' edge.
Proof.
  intros Hkeep [(s & Hs & Hsid & Hsl) (t & Ht & Htid & Htl)].
  split; [exists s | exists t]; (split; [apply Hkeep; auto | done]).
Qed.

Lemma createNode_joined now input st :
  edges_joined st → edges_joined (createNode now input st).2.
Proof.
  intros Hjoined. rewrite createNode_run.
  destruct (drawn_for_graph (ni_logical_id input) st) as (Hn & He & _ & _).
  destruct (existsb _ (nodesStore st)); cbn [snd].
  - by apply (edges_joined_same st).
  - intros edge Hin. cbn [edgesStore nodesStore with_nodes] in *.
    rewrite He in Hin. rewrite Hn. by apply joins_more, Hjoined.
Qed.

Lemma createEdge_joined now input st :
  edges_joined st → edges_joined (createEdge now input st).2.
Proof.
  intros Hjoined. rewrite createEdge_run.
  destruct (drawn_for_graph (ei_logical_id input) st) as (Hn & He & _ & _).
  destruct (List.find (fun node => String.eqb (node_id node) (ei_source_node_id input))
                      (nodesStore st)) as [sourceNode |] eqn:Hs; [| done].
  destruct (List.find (fun node => String.eqb (node_id node) (ei_target_node_id input))
                      (nodesStore st)) as [targetNode |] eqn:Ht; [| done].
  destruct (negb _ || negb _) eqn:Hlevels; [done |].
  destruct (existsb _ (edgesStore st)); cbn [snd].
  - by apply (edges_joined_same st).
  - apply orb_false_elim in Hlevels as [Hls Hlt].
    apply negb_false_iff, String.eqb_eq in Hls, Hlt.
    apply find_node_id in Hs as [Hsin Hsid], Ht as [Htin Htid].
    intros edge. cbn [edgesStore nodesStore with_edges]. rewrite He, Hn.
    intros [Hin | ->%list_elem_of_singleton]%elem_of_app; [by apply Hjoined |].
    split; [exists sourceNode | exists targetNode]; by cbn.
Qed.

Lemma deleteNode_joined logicalId level st :
  edges_joined st → edges_joined (deleteNode logicalId level st).2.
Proof.
  intros Hjoined. rewrite deleteNode_run.
  set (nodeId := buildNodeId logicalId (normalizeLevel level)).
  destruct (findIndex _ (nodesStore st)) as [i |] eqn:Hfind; [| done].
  destruct (findIndex_Some _ _ _ Hfind)
    as (before & node & after & Hsplit & Hlen & Hid & _).
  apply String.eqb_eq in Hid.
  intros edge. cbn [snd edgesStore nodesStore with_edges with_nodes].
  rewrite Hsplit, <- Hlen, delete_middle.
  intros [Hin Hno]%list_elem_of_In%filter_In. apply list_elem_of_In in Hin.
  unfold touches in Hno. apply negb_true_iff, orb_false_elim in Hno as [Hs Ht].
  apply (joins_other_nodes (nodesStore st)); [| by apply Hjoined].
  rewrite Hsplit. intros n Hn Hend _.
  apply elem_of_app in Hn as [Hn | [-> | Hn]%elem_of_cons];
    [apply elem_of_app; by left | | apply elem_of_app; by right].
  exfalso. rewrite Hid in Hend.
  destruct Hend as [Heq | Heq]; rewrite <- Heq, String.eqb_refl in *; discriminate.
Qed.

Lemma deleteEdge_joined edgeId st :
  edges_joined st → edges_joined (deleteEdge edgeId st).2.
Proof.
  intros Hjoined. rewrite deleteEdge_run.
  destruct (findIndex _ (edgesStore st)) as [i |]; [| done].
  intros edge Hin. cbn [snd edgesStore nodesStore with_edges] in *.
  apply Hjoined. eapply elem_of_sublist; [exact Hin | apply sublist_delete].
Qed.

Lemma importLevelData_joined now level payload st :
  edges_joined st → edges_joined (importLevelData now level payload st).2.
Proof.
  intros Hjoined.
  destruct (importLevelData_any now level payload st)
    as (outcome & newNodes & newEdges & after & Hrun & Hn & He & _ & _ & _ & _
        & Hnew & _).
  rewrite Hrun. cbn [snd]. intros edge. rewrite He.
  intros [Hin | Hin]%elem_of_app.
  - apply list_elem_of_In, filter_In in Hin as [Hin Hother].
    apply list_elem_of_In in Hin.
    apply (joins_other_nodes (nodesStore st)); [| by apply Hjoined].
    intros n Hnin _ Hlevel. rewrite Hn. apply elem_of_app. left.
    apply list_elem_of_In, filter_In. split; [by apply list_elem_of_In |].
    cbn in Hother |- *. by rewrite Hlevel.
  - apply list_elem_of_In in Hin. by apply (proj1 (List.Forall_forall _ _) Hnew).
Qed.

Lemma edges_closed_same (st st' : Store) :
  nodesStore st' = nodesStore st → edgesStore st' = edgesStore st →
  edges_closed st → edges_closed st'.
Proof. unfold edges_closed. intros -> ->. done. Qed.

Lemma createNode_closed now input st :
  edges_closed st → edges_closed (createNode now input st).2.
Proof.
  intros Hclosed. rewrite createNode_run.
  destruct (drawn_for_graph (ni_logical_id input) st) as (Hn & He & _ & _).
  destruct (existsb _ (nodesStore st)); cbn [snd].
  - by apply (edges_closed_same st).
  - intros edge Hin. cbn [edgesStore nodesStore with_nodes] in *.
    rewrite He in Hin. rewrite Hn.
    destruct (Hclosed edge Hin) as [(s & Hs & ?) (t & Ht & ?)].
    split; [exists s | exists t]; (split; [apply elem_of_app; by left | done]).
Qed.

Lemma createEdge_closed now input st :
  edges_closed st → edges_closed (createEdge now input st).2.
Proof.
  intros Hclosed. rewrite createEdge_run.
  destruct (drawn_for_graph (ei_logical_id input) st) as (Hn & He & _ & _).
  destruct (List.find (fun node => String.eqb (node_id node) (ei_source_node_id input))
                      (nodesStore st)) as [sourceNode |] eqn:Hs; [| done].
  destruct (List.find (fun node => String.eqb (node_id node) (ei_target_node_id input))
                      (nodesStore st)) as [targetNode |] eqn:Ht; [| done].
  destruct (negb _ || negb _); [done |].
  destruct (existsb _ (edgesStore st)); cbn [snd].
  - by apply (edges_closed_same st).
  - apply find_node_id in Hs as [Hsin Hsid], Ht as [Htin Htid].
    intros edge. cbn [edgesStore nodesStore with_edges]. rewrite He, Hn.
    intros [Hin | ->%list_elem_of_singleton]%elem_of_app; [by apply Hclosed |].
    split; [exists sourceNode | exists targetNode]; by cbn.
Qed.

Lemma deleteNode_closed logicalId level st :
  edges_closed st → edges_closed (deleteNode logicalId level st).2.
Proof.
  intros Hclosed. rewrite deleteNode_run.
  set (nodeId := buildNodeId logicalId (normalizeLevel level)).
  destruct (findIndex _ (nodesStore st)) as [i |] eqn:Hfind; [| done].
  destruct (findIndex_Some _ _ _ Hfind)
    as (before & node & after & Hsplit & Hlen & Hid & _).
  apply String.eqb_eq in Hid.
  intros edge. cbn [snd edgesStore nodesStore with_edges with_nodes].
  rewrite Hsplit, <- Hlen, delete_middle.
  intros [Hin Hno]%list_elem_of_In%filter_In. apply list_elem_of_In in Hin.
  unfold touches in Hno. apply negb_true_iff, orb_false_elim in Hno as [Hs Ht].
  assert (∀ n, n ∈ nodesStore st →
               node_id n = source_node_id edge ∨ node_id n = target_node_id edge →
               n ∈ (before ++ after)%list) as Hkept.
  { rewrite Hsplit. intros n Hn Hend.
    apply elem_of_app in Hn as [Hn | [-> | Hn]%elem_of_cons];
      [apply elem_of_app; by left | | apply elem_of_app; by right].
    exfalso. rewrite Hid in Hend.
    destruct Hend as [Heq | Heq]; rewrite <- Heq, String.eqb_refl in *; discriminate. }
  destruct (Hclosed edge Hin) as [(s & Hsin & Hsid) (t & Htin & Htid)].
  split; [exists s | exists t]; (split; [apply Hkept; auto | done]).
Qed.

Lemma deleteEdge_closed edgeId st :
  edges_closed st → edges_closed (deleteEdge edgeId st).2.
Proof.
  intros Hclosed. rewrite deleteEdge_run.
  destruct (findIndex _ (edgesStore st)) as [i |]; [| done].
  intros edge Hin. cbn [snd edgesStore nodesStore with_edges] in *.
  apply Hclosed. eapply elem_of_sublist; [exact Hin | apply sublist_delete].
Qed.

End Integrity.

(** X18.  Referential integrity is kept by every operation that edits
    the graph.  If every stored edge joins two stored nodes of the
    edge's own level, the same is true after [createNode], [createEdge],
    [deleteNode] and [deleteEdge], whatever their arguments and whether
    they return or throw, and after [importLevelData] on a payload of
    any shape, whether it returns or throws a TypeError, as long as what
    it stores has the declared types.  The weaker integrity that does
    not look at levels (both ends of every stored edge are ids of stored
    nodes) is kept by [createNode], [createEdge], [deleteNode] and
    [deleteEdge]. *)
Theorem graph_edits_keep_edges_joined :
  ∀ (H : Host) (now : Z) (st : Store),
    (edges_joined st →
     (∀ input, edges_joined (createNode now input st).2) ∧
     (∀ input, edges_joined (createEdge now input st).2) ∧
     (∀ logicalId level, edges_joined (deleteNode logicalId level st).2) ∧
     (∀ edgeId, edges_joined (deleteEdge edgeId st).2) ∧
     (∀ level payload,
        (importLevelData now level payload st).1 ≠ OffType →
        edges_joined (importLevelData now level payload st).2)) ∧
    (edges_closed st →
     (∀ input, edges_closed (createNode now input st).2) ∧
     (∀ input, edges_closed (createEdge now input st).2) ∧
     (∀ logicalId level, edges_closed (deleteNode logicalId level st).2) ∧
     (∀ edgeId, edges_closed (deleteEdge edgeId st).2)).
Proof.
  intros H now st. split.
  - intros Hjoined. split; [| split; [| split; [| split]]].
    + intros input. by apply createNode_joined.
    + intros input. by apply createEdge_joined.
    + intros logicalId level. by apply deleteNode_joined.
    + intros edgeId. by apply deleteEdge_joined.
    + intros level payload _. by apply importLevelData_joined.
  - intros Hclosed. split; [| split; [| split]].
    + intros input. by apply createNode_closed.
    + intros input. by apply createEdge_closed.
    + intros logicalId level. by apply deleteNode_closed.
    + intros edgeId. by apply deleteEdge_closed.
Qed.

(** ** The data store: ids *)

Section Ids.
Context `{Host}.

Lemma list_ascii_of_string_app (s t : string) :
  list_ascii_of_string (s ++ t) = (list_ascii_of_string s ++ list_ascii_of_string t)%list.
Proof. induction s as [| c s IH]; simpl; [done |]. by rewrite IH. Qed.

Lemma list_ascii_of_string_inj (s t : string) :
  list_ascii_of_string s = list_ascii_of_string t → s = t.
Proof.
  intros Heq. rewrite <- (string_of_list_ascii_of_string s),
    <- (string_of_list_ascii_of_string t). by rewrite Heq.
Qed.

Lemma string_app_inv_tail (s t u : string) : s ++ u = t ++ u → s = t.
Proof.
  intros Heq%(f_equal list_ascii_of_string).
  rewrite !list_ascii_of_string_app in Heq.
  by apply app_inv_tail, list_ascii_of_string_inj in Heq.
Qed.

(** The last character of [s ++ t] is that of [t], when [t] has one. *)
Lemma last_of_app (s t : string) (c : ascii) :
  last (list_ascii_of_string t) = Some c →
  last (list_ascii_of_string (s ++ t)) = Some c.
Proof. intros Hlast. by rewrite list_ascii_of_string_app, last_app, Hlast. Qed.

Lemma normalizeLevel_cases level :
  normalizeLevel level = "SECRET" ∨ normalizeLevel level = "CONFIDENTIAL" ∨
  normalizeLevel level = "UNCLASSIFIED".
Proof.
  unfold normalizeLevel. destruct (_ || _ || _); [by left |].
  destruct (_ || _ || _); [right; by left | right; by right].
Qed.

Lemma buildNodeId_levels_differ (l1 l2 c1 c2 : string) (x1 x2 : ascii) :
  last (list_ascii_of_string c1) = Some x1 →
  last (list_ascii_of_string c2) = Some x2 →
  x1 ≠ x2 →
  buildNodeId l1 c1 ≠ buildNodeId l2 c2.
Proof.
  intros H1 H2 Hne Heq. unfold buildNodeId in Heq.
  apply (f_equal (fun s => last (list_ascii_of_string s))) in Heq.
  rewrite (last_of_app l1 ("_" ++ c1) x1), (last_of_app l2 ("_" ++ c2) x2) in Heq.
  - congruence.
  - by apply (last_of_app "_").
  - by apply (last_of_app "_").
Qed.

End Ids.

(** X19.  [normalizeLevel] always yields one of the three level names,
    and over those names an id determines what it was built from: if
    [buildNodeId] gives the same id for two logical ids at two
    normalised levels, the logical ids are equal and so are the
    levels. *)
Theorem node_id_determines_logical_id_and_level :
  ∀ (H : Host) (logical1 logical2 level1 level2 : string),
    (normalizeLevel level1 = "SECRET" ∨ normalizeLevel level1 = "CONFIDENTIAL" ∨
     normalizeLevel level1 = "UNCLASSIFIED") ∧
    (buildNodeId logical1 (normalizeLevel level1)
     = buildNodeId logical2 (normalizeLevel level2) →
     logical1 = logical2 ∧ normalizeLevel level1 = normalizeLevel level2).
Proof.
  intros H logical1 logical2 level1 level2.
  split; [apply normalizeLevel_cases |]. intros Heq.
  assert (normalizeLevel level1 = normalizeLevel level2) as Hlevels.
  { destruct (normalizeLevel_cases level1) as [H1 | [H1 | H1]],
             (normalizeLevel_cases level2) as [H2 | [H2 | H2]];
      rewrite H1, H2 in Heq |- *; try done; exfalso;
      revert Heq; eapply buildNodeId_levels_differ; try reflexivity; discriminate. }
  split; [| done]. rewrite Hlevels in Heq. unfold buildNodeId in Heq.
  by apply (string_app_inv_tail logical1 logical2
              ("_" ++ normalizeLevel level2)).
Qed.

Section Slugs.
Context `{Host}.

Lemma replace_other_runs_chars s in_run :
  all_chars slug_or_underscore (replace_other_runs s in_run) = true.
Proof.
  revert in_run. induction s as [| c s IH]; intros in_run; simpl; [done |].
  destruct (is_slug_char c) eqn:Hc; simpl.
  - unfold slug_or_underscore at 1. rewrite Hc. apply IH.
  - destruct in_run; [apply IH |]. cbn [all_chars]. rewrite IH. reflexivity.
Qed.

Lemma drop_leading_chars p s :
  all_chars p s = true → all_chars p (drop_leading_underscores s) = true.
Proof.
  induction s as [| c s IH]; simpl; [done |].
  intros [Hc Hs]%andb_prop. destruct (is_underscore c); [by apply IH |].
  simpl. by rewrite Hc, Hs.
Qed.

Lemma drop_leading_start s :
  starts_with_underscore (drop_leading_underscores s) = false.
Proof.
  induction s as [| c s IH]; simpl; [done |].
  destruct (is_underscore c) eqn:Hc; [done |]. simpl. exact Hc.
Qed.

Lemma drop_trailing_chars p s :
  all_chars p s = true → all_chars p (drop_trailing_underscores s) = true.
Proof.
  induction s as [| c s IH]; [done |].
  intros [Hc Hs]%andb_prop. cbn [drop_trailing_underscores].
  destruct (all_underscores (String c s)); [done |]. simpl. by rewrite Hc, IH.
Qed.

Lemma drop_trailing_start s :
  starts_with_underscore s = false →
  starts_with_underscore (drop_trailing_underscores s) = false.
Proof.
  destruct s as [| c s]; [done |]. cbn [drop_trailing_underscores].
  by destruct (all_underscores (String c s)).
Qed.

Lemma drop_trailing_empty s :
  drop_trailing_underscores s = "" → all_underscores s = true.
Proof.
  destruct s as [| c s]; [done |]. cbn [drop_trailing_underscores].
  by destruct (all_underscores (String c s)).
Qed.

Lemma drop_trailing_end s :
  ends_with_underscore (drop_trailing_underscores s) = false.
Proof.
  induction s as [| c s IH]; [done |]. cbn [drop_trailing_underscores].
  destruct (all_underscores (String c s)) eqn:Hall; [done |].
  cbn [ends_with_underscore].
  destruct (drop_trailing_underscores s) eqn:Hrest; [| exact IH].
  apply drop_trailing_empty in Hrest. simpl in Hall. rewrite Hrest in Hall.
  by destruct (is_underscore c).
Qed.

Lemma collapse_chars p s in_run :
  all_chars p s = true → all_chars p (collapse_underscores s in_run) = true.
Proof.
  revert in_run. induction s as [| c s IH]; intros in_run; simpl; [done |].
  intros [Hc Hs]%andb_prop.
  destruct (is_underscore c); [destruct in_run |]; simpl; rewrite ?Hc; by apply IH.
Qed.

Lemma collapse_start_in_run s :
  starts_with_underscore (collapse_underscores s true) = false.
Proof.
  induction s as [| c s IH]; simpl; [done |].
  destruct (is_underscore c) eqn:Hc; [done |]. simpl. exact Hc.
Qed.

Lemma collapse_start s :
  starts_with_underscore s = false →
  starts_with_underscore (collapse_underscores s false) = false.
Proof. destruct s as [| c s]; simpl; [done |]. intros Hc. rewrite Hc. exact Hc. Qed.

Lemma collapse_no_double s in_run :
  has_double_underscore (collapse_underscores s in_run) = false.
Proof.
  revert in_run. induction s as [| c s IH]; intros in_run; simpl; [done |].
  destruct (is_underscore c) eqn:Hc; [destruct in_run |]; simpl; rewrite ?Hc, ?IH;
    try done.
  by rewrite collapse_start_in_run.
Qed.

Lemma ends_with_underscore_cons c s :
  s ≠ "" → ends_with_underscore (String c s) = ends_with_underscore s.
Proof. by destruct s. Qed.

Lemma collapse_nonempty s in_run :
  ends_with_underscore s = false → s ≠ "" → collapse_underscores s in_run ≠ "".
Proof.
  revert in_run. induction s as [| c s IH]; intros in_run Hend Hne; [done |].
  simpl. destruct (is_underscore c) eqn:Hc; [destruct in_run |]; try done.
  destruct s as [| d s]; [simpl in Hend; congruence |]. by apply IH.
Qed.

Lemma collapse_cons c s in_run :
  collapse_underscores (String c s) in_run =
  if is_underscore c
  then if in_run then collapse_underscores s true
       else String c (collapse_underscores s true)
  else String c (collapse_underscores s false).
Proof. reflexivity. Qed.

Lemma collapse_end s in_run :
  ends_with_underscore s = false →
  ends_with_underscore (collapse_underscores s in_run) = false.
Proof.
  revert in_run. induction s as [| c s IH]; intros in_run Hend; [done |].
  destruct s as [| d s].
  - simpl in *. rewrite Hend. simpl. exact Hend.
  - rewrite ends_with_underscore_cons in Hend by done.
    rewrite collapse_cons.
    destruct (is_underscore c); [destruct in_run |];
      rewrite ?ends_with_underscore_cons by (by apply collapse_nonempty);
      by apply IH.
Qed.

End Slugs.

(** X20.  A slug is never empty, holds only the characters a to z, 0 to
    9 and the underscore, neither starts nor ends with an underscore and
    has no two underscores in a row — whatever text it is made from and
    whatever the platform's lower-casing does to that text. *)
Theorem slugify_yields_a_clean_slug :
  ∀ (H : Host) (value : string),
    let slug := slugify value in
    slug ≠ "" ∧
    all_chars slug_or_underscore slug = true ∧
    starts_with_underscore slug = false ∧
    ends_with_underscore slug = false ∧
    has_double_underscore slug = false.
Proof.
  intros H value slug. subst slug. unfold slugify.
  set (replaced := replace_other_runs (toLowerCase value) false).
  set (trimmed := drop_trailing_underscores (drop_leading_underscores replaced)).
  destruct (String.eqb_spec (collapse_underscores trimmed false) "") as [_ | Hne];
    [by vm_compute |].
  split; [done |]. split; [| split; [| split]].
  - apply collapse_chars, drop_trailing_chars, drop_leading_chars,
      replace_other_runs_chars.
  - apply collapse_start, drop_trailing_start, drop_leading_start.
  - apply collapse_end, drop_trailing_end.
  - apply collapse_no_double.
Qed.

(** ** The query pipeline: what an answer depends on and discloses *)

Section Disclosure.
Context `{Host}.

Lemma passesEveryFilter_accessible user parsed node :
  passesEveryFilter user parsed node = true →
  (if negb (checkClearance (clearance_level user) (classification_level node))
   then false else checkSectorAccess user node) = true ∧
  (present (entityType parsed) = true →
   entity_type node = str_or (entityType parsed) "").
Proof.
  unfold passesEveryFilter. rewrite !andb_true_iff.
  intros Hall. do 8 (destruct Hall as [Hall _]).
  destruct Hall as [Htype [Hclear Hsector]].
  cbn [classification_level node_classified]. rewrite Hclear. split; [done |].
  intros Hpresent. rewrite Hpresent in Htype. by apply String.eqb_eq.
Qed.

(** The filters see the nodes only through the accessible ones. *)
Lemma filterNodes_of_accessible user parsed allNodes :
  filterNodes user parsed allNodes
  = limited parsed
      (List.filter (passesEveryFilter user parsed)
                   (filterAccessibleNodes user allNodes)).
Proof.
  rewrite filterNodes_flat_and. f_equal. unfold filterAccessibleNodes.
  rewrite filter_fuse. apply List.filter_ext. intros node.
  destruct (passesEveryFilter user parsed node) eqn:Hpass.
  - apply passesEveryFilter_accessible in Hpass as [-> _]. done.
  - by rewrite andb_false_r.
Qed.

Lemma sliceTo_subset {A : Type} (limit : float) (items : list A) (x : A) :
  x ∈ sliceTo limit items → x ∈ items.
Proof. unfold sliceTo. intros Hin. eapply elem_of_sublist; [exact Hin | apply sublist_take]. Qed.

Lemma limited_subset (parsed : ParsedQuery) (passed : list GraphNode) (n : GraphNode) :
  sort_rearranges H → n ∈ limited parsed passed → n ∈ passed.
Proof.
  intros Hsort. unfold limited.
  destruct (limit parsed) as [k |]; [| done].
  destruct (truthy (JsNumber k) && (0 <? k)%float); [| done].
  unfold takeWithPreferredOrder. destruct (_ <=? _)%float; [done |].
  intros Hin%sliceTo_subset. by rewrite (Hsort _ _ _) in Hin.
Qed.

End Disclosure.

(** X21.  The answer to a query is a function of the nodes the user
    may access: run against two stores whose accessible nodes (for this
    user) are the same, at whatever clock readings, the pipeline returns
    the same result and leaves the caller's user object in the same
    state — nodes the user may not access never show, not even in a
    count. *)
Theorem query_answer_depends_only_on_accessible_nodes :
  ∀ (H : Host) (nowBudget nowAudit nowBudget' nowAudit' : Z) (user : User)
    (queryText : string) (st1 st2 : Store),
    filterAccessibleNodes user (getAllNodes st1).1
    = filterAccessibleNodes user (getAllNodes st2).1 →
    (executeNaturalLanguageQuery nowBudget nowAudit user queryText st1).1
    = (executeNaturalLanguageQuery nowBudget' nowAudit' user queryText st2).1.
Proof.
  intros H nowBudget nowAudit nowBudget' nowAudit' user queryText st1 st2 Hsame.
  destruct (checkQueryBudget user) eqn:Hbudget.
  - destruct (parseNaturalLanguage queryText) as [parsed |] eqn:Hparse.
    + rewrite !(executeNaturalLanguageQuery_parsed _ _ _ _ _ _ Hbudget Hparse).
      destruct (executeParsed_run nowBudget nowAudit user queryText parsed st1)
        as [users1 ->].
      destruct (executeParsed_run nowBudget' nowAudit' user queryText parsed st2)
        as [users2 ->].
      cbv zeta. rewrite !filterNodes_of_accessible, Hsame.
      destruct (Z.eqb _ 0); [done |]. by destruct (negb _).
    + by rewrite !(executeNaturalLanguageQuery_unrecognized _ _ _ _ _ Hbudget Hparse).
  - by rewrite !(executeNaturalLanguageQuery_denied _ _ _ _ _ Hbudget).
Qed.

(** X22.  On a platform whose sort rearranges its input, the node
    records of an answer are all accessible to the user, all pass every
    filter of the parsed query, in particular all are of the entity type
    asked for, and they are never exactly one. *)
Theorem query_discloses_only_accessible_matching_nodes :
  ∀ (H : Host) (nowBudget nowAudit : Z) (user : User) (queryText : string)
    (st : Store) (parsed : ParsedQuery) (records : list GraphNode),
    sort_rearranges H →
    parseNaturalLanguage queryText = Some parsed →
    data (executeNaturalLanguageQuery nowBudget nowAudit user queryText st).1.1
    = Some (DataNodes records) →
    (∀ n, n ∈ records →
       n ∈ filterAccessibleNodes user (getAllNodes st).1 ∧
       passesEveryFilter user parsed n = true ∧
       (present (entityType parsed) = true →
        entity_type n = str_or (entityType parsed) "")) ∧
    length records ≠ 1%nat.
Proof.
  intros H nowBudget nowAudit user queryText st parsed records Hsort Hparse.
  destruct (checkQueryBudget user) eqn:Hbudget;
    [| by rewrite (executeNaturalLanguageQuery_denied _ _ _ _ _ Hbudget)].
  rewrite (executeNaturalLanguageQuery_parsed _ _ _ _ _ _ Hbudget Hparse).
  destruct (executeParsed_run nowBudget nowAudit user queryText parsed st)
    as [users' ->].
  cbv zeta.
  set (filtered := filterNodes user parsed (getAllNodes st).1).
  destruct (Z.eqb_spec (Z.of_nat (length filtered)) 0) as [_ | Hnonzero].
  { cbn. intros [= <-]. split; [| done]. by intros n ?%elem_of_nil. }
  unfold checkKAnonymity. cbn [default].
  destruct (Z.geb_spec (Z.of_nat (length filtered)) 2) as [Hmany | _]; [| done].
  cbn. intros [= <-]. split; [| lia].
  intros n Hin. subst filtered. rewrite filterNodes_of_accessible in Hin.
  apply (limited_subset _ _ _ Hsort), list_elem_of_In, filter_In in Hin as [Hin Hpass].
  split; [by apply list_elem_of_In |]. split; [done |].
  exact (proj2 (passesEveryFilter_accessible _ _ _ Hpass)).
Qed.

(** ** Graph views: what they show *)

Section ViewsMore.
Context `{Host}.

Lemma stands_for_itself (e : GraphEdge) : stands_for e e.
Proof. unfold stands_for. by destruct e. Qed.

Lemma stands_for_repointed (s t : string) (e : GraphEdge) :
  stands_for (set_endpoints s t e) e.
Proof. reflexivity. Qed.

Lemma accessible_node_rank user (nodes : list GraphNode) n :
  n ∈ filterAccessibleNodes user nodes →
  rank (node_classification_level n) <= rank (clearance_level user).
Proof.
  intros Hin%accessible_node_cleared. by apply checkClearance_rank_le.
Qed.

Lemma accessible_edge_rank user (edges : list GraphEdge) e :
  e ∈ filterAccessibleEdges user edges →
  rank (edge_classification_level e) <= rank (clearance_level user).
Proof.
  unfold filterAccessibleEdges. intros [_ Hok]%list_elem_of_In%filter_In.
  apply access_test_cleared in Hok as [Hok _]. by apply checkClearance_rank_le in Hok.
Qed.

Lemma chooseEdge_stands_for nodeById logicalToNode (all : list GraphEdge) edgesMap edge :
  edge ∈ all →
  (∀ k e, (k, e) ∈ edgesMap → ∃ original, original ∈ all ∧ stands_for e original) →
  ∀ k e, (k, e) ∈ chooseEdge nodeById logicalToNode edgesMap edge →
         ∃ original, original ∈ all ∧ stands_for e original.
Proof.
  intros Hedge Hold k e. unfold chooseEdge.
  destruct (nodeById !! source_node_id edge); [| by apply Hold].
  destruct (nodeById !! target_node_id edge); [| by apply Hold].
  destruct (logicalToNode !! _) as [bestSource |]; [| by apply Hold].
  destruct (logicalToNode !! _) as [bestTarget |]; [| by apply Hold].
  set (key := if String.eqb (edge_logical_id edge) "" then _ else _).
  set (candidate := set_endpoints _ _ edge).
  assert (∀ k e, (k, e) ∈ jsmap_set key candidate edgesMap →
                 ∃ original, original ∈ all ∧ stands_for e original) as Hnew.
  { intros k' e' [[_ ->] | Hin]%jsmap_set_entries; [| by eapply Hold].
    exists edge. split; [done | apply stands_for_repointed]. }
  destruct (jsmap_get key edgesMap); [| by apply Hnew].
  destruct (greater _ _); [by apply Hnew | by apply Hold].
Qed.

Lemma foldl_chooseEdge_stands_for nodeById logicalToNode (all todo : list GraphEdge)
    edgesMap :
  (∀ edge, edge ∈ todo → edge ∈ all) →
  (∀ k e, (k, e) ∈ edgesMap → ∃ original, original ∈ all ∧ stands_for e original) →
  ∀ k e, (k, e) ∈ foldl (chooseEdge nodeById logicalToNode) edgesMap todo →
         ∃ original, original ∈ all ∧ stands_for e original.
Proof.
  revert edgesMap. induction todo as [| edge todo IH]; intros edgesMap Hall Hold; [done |].
  simpl. apply IH; [intros e He; apply Hall; by right |].
  apply chooseEdge_stands_for; [apply Hall; by left | done].
Qed.

Lemma chosen_nodes_processed userLevel (processed : list GraphNode) (x : GraphNode) :
  (∀ n, n ∈ processed →
     checkClearance userLevel (node_classification_level n) = true) →
  x ∈ jsmap_values (foldl chooseNode [] processed) → x ∈ processed.
Proof.
  intros Hcleared.
  pose proof (choice_inv_foldl userLevel processed [] [] Hcleared choice_inv_nil)
    as (Hnd & Hbest & _).
  simpl in Hnd, Hbest. unfold jsmap_values.
  intros [[k v] [<- Hentry]]%list_elem_of_In%in_map_iff.
  apply list_elem_of_In, (jsmap_entry_get _ _ _ Hnd) in Hentry.
  by destruct (Hbest _ _ Hentry) as (_ & ? & _).
Qed.

End ViewsMore.

(** X23.  No view reads up.  In every mode, each node that
    [getGraphData] returns is one of the nodes the access filter keeps
    for the user, and each edge it returns stands for an edge the filter
    keeps (it is that edge, in virtual mode with its ends re-pointed);
    so the level of every returned node and edge ranks no higher than
    the user's clearance.  The store is left as it was. *)
Theorem graph_view_shows_only_accessible_items :
  ∀ (H : Host) (user : User) (options : GraphDataOptions) (st : Store),
    let view := (getGraphData user options st).1 in
    let accessibleNodes := filterAccessibleNodes user (getAllNodes st).1 in
    let accessibleEdges := filterAccessibleEdges user (getAllEdges st).1 in
    (∀ n, n ∈ nodes view →
       n ∈ accessibleNodes ∧
       rank (node_classification_level n) <= rank (clearance_level user)) ∧
    (∀ e, e ∈ edges view →
       (∃ original, original ∈ accessibleEdges ∧ stands_for e original) ∧
       rank (edge_classification_level e) <= rank (clearance_level user)) ∧
    (getGraphData user options st).2 = st.
Proof.
  intros H user [m lvl ovl] st view accessibleNodes accessibleEdges.
  assert (∀ n, n ∈ nodes view → n ∈ accessibleNodes) as Hnodes.
  { subst view. destruct m;
      unfold getGraphData, mbind, async_bind, getAllNodes, getAllEdges, get_store,
        mret, async_ret; cbn [fst mode nodes]; fold accessibleNodes.
    - intros n. apply (chosen_nodes_processed (clearance_level user)).
      intros n' Hin'. by eapply accessible_node_cleared.
    - intros n [Hin _]%list_elem_of_In%filter_In. by apply list_elem_of_In.
    - intros n [Hin _]%list_elem_of_In%filter_In. by apply list_elem_of_In. }
  assert (∀ e, e ∈ edges view →
               ∃ original, original ∈ accessibleEdges ∧ stands_for e original)
    as Hedges.
  { subst view. destruct m;
      unfold getGraphData, mbind, async_bind, getAllNodes, getAllEdges, get_store,
        mret, async_ret; cbn [fst mode edges]; fold accessibleEdges.
    - unfold jsmap_values. intros e [[k e'] [<- Hentry]]%list_elem_of_In%in_map_iff.
      apply list_elem_of_In in Hentry.
      eapply foldl_chooseEdge_stands_for; [| | exact Hentry]; [done |].
      by intros ? ? ?%elem_of_nil.
    - intros e [Hin _]%list_elem_of_In%filter_In. exists e.
      split; [by apply list_elem_of_In | apply stands_for_itself].
    - intros e [Hin _]%list_elem_of_In%filter_In. exists e.
      split; [by apply list_elem_of_In | apply stands_for_itself]. }
  split; [| split].
  - intros n Hin. split; [by apply Hnodes |].
    eapply accessible_node_rank, Hnodes, Hin.
  - intros e Hin. split; [by apply Hedges |].
    destruct (Hedges e Hin) as (original & Horig & Hstands).
    rewrite Hstands. cbn. by eapply accessible_edge_rank.
  - by destruct (getGraphData_run user (mkOptions m lvl ovl) st) as [v ->].
Qed.

Section LevelView.
Context `{Host}.

Lemma levels_within_includes (r : Z) (l : string) :
  includes (List.filter (fun level => rank level <=? r) LEVEL_SEQUENCE) l = true
  ↔ l ∈ LEVEL_SEQUENCE ∧ rank l <= r.
Proof.
  unfold includes. rewrite existsb_exists. split.
  - intros (x & [Hin Hle]%filter_In & ->%String.eqb_eq).
    split; [by apply list_elem_of_In | by apply Z.leb_le].
  - intros [Hin Hle]. exists l. split; [| apply String.eqb_refl].
    apply filter_In. split; [by apply list_elem_of_In | by apply Z.leb_le].
Qed.

Lemma levels_within_top (r : Z) :
  0 <= r <= 2 →
  let accessibleLevels :=
    List.filter (fun level => rank level <=? r) LEVEL_SEQUENCE in
  str_or (last accessibleLevels) (str_or (head accessibleLevels) "UNCLASSIFIED")
  = level_of_rank r.
Proof.
  intros Hrange.
  assert (r = 0 ∨ r = 1 ∨ r = 2) as [-> | [-> | ->]] by lia; reflexivity.
Qed.

(** The levels [getGraphData] takes for accessible: those of the
    sequence up to the user's rank; none at all for a user whose level
    names an inherited member, since every [CLEARANCE_ORDER[level] <=
    userMaxRank] then compares a number with that member. *)
Lemma accessibleLevels_spec (user : User) :
  let accessibleLevels :=
    List.filter
      (fun level => less_eq (read_table CLEARANCE_ORDER level)
                            (order_of (clearance_level user)))
      LEVEL_SEQUENCE in
  str_or (last accessibleLevels) (str_or (head accessibleLevels) "UNCLASSIFIED")
  = level_of_rank (rank (clearance_level user)) ∧
  (∀ l, includes accessibleLevels l = true →
        l ∈ LEVEL_SEQUENCE ∧ rank l <= rank (clearance_level user)) ∧
  (∀ l, l ∈ LEVEL_SEQUENCE → rank l <= rank (clearance_level user) →
        includes accessibleLevels l = true
        ∨ l = level_of_rank (rank (clearance_level user))).
Proof.
  cbv zeta. destruct (names_inherited_member (clearance_level user)) eqn:Hu.
  - apply level_member in Hu as (Hrank & text & _ & _ & ->). rewrite Hrank.
    split; [reflexivity |]. split; [discriminate |].
    intros l Hl Hle. right. apply list_elem_of_In in Hl. simpl in Hl.
    destruct Hl as [<- | [<- | [<- | []]]]; [reflexivity | |]; by compute in Hle.
  - apply level_number in Hu as [_ ->].
    change (List.filter _ LEVEL_SEQUENCE)
      with (List.filter (fun level => rank level <=? rank (clearance_level user))
                        LEVEL_SEQUENCE).
    split; [apply levels_within_top, rank_range |].
    split; intros l.
    + by intros ?%levels_within_includes.
    + intros Hl Hle. left. by apply levels_within_includes.
Qed.

Lemma level_of_rank_spec (r : Z) :
  0 <= r <= 2 → level_of_rank r ∈ LEVEL_SEQUENCE ∧ rank (level_of_rank r) = r.
Proof.
  intros Hr. assert (r = 0 ∨ r = 1 ∨ r = 2) as [-> | [-> | ->]] by lia;
    (split; [| reflexivity]); apply list_elem_of_In; simpl; auto.
Qed.

End LevelView.

(** X24.  A level view shows one level that the user may read: all its
    nodes and edges are at one level of the sequence UNCLASSIFIED,
    CONFIDENTIAL, SECRET whose rank does not exceed the user's; that
    level is the requested one when it belongs to the sequence and is
    within the user's clearance, and otherwise (no level requested, an
    unknown name, or a level above the clearance) the level of the
    user's own rank. *)
Theorem level_view_shows_one_accessible_level :
  ∀ (H : Host) (user : User) (lvl : option string) (ovl : option (list string))
    (st : Store),
    let view := (getGraphData user (mkOptions mode_level lvl ovl) st).1 in
    ∃ target,
      (∀ n, n ∈ nodes view → node_classification_level n = target) ∧
      (∀ e, e ∈ edges view → edge_classification_level e = target) ∧
      target ∈ LEVEL_SEQUENCE ∧
      rank target <= rank (clearance_level user) ∧
      (∀ l, lvl = Some l → l ∈ LEVEL_SEQUENCE →
            rank l <= rank (clearance_level user) → target = l) ∧
      ((∀ l, lvl = Some l →
             l ∉ LEVEL_SEQUENCE ∨ rank (clearance_level user) < rank l) →
       target = level_of_rank (rank (clearance_level user))).
Proof.
  intros H user lvl ovl st view. subst view.
  unfold getGraphData, mbind, async_bind, getAllNodes, getAllEdges, get_store,
    mret, async_ret; cbn [fst mode nodes edges opt_level].
  set (accessibleLevels := List.filter _ LEVEL_SEQUENCE).
  pose proof (accessibleLevels_spec user) as (Htop & Hincluded & Hwithin).
  cbv zeta in Htop, Hincluded, Hwithin.
  fold accessibleLevels in Htop, Hincluded, Hwithin. rewrite Htop.
  set (target := match lvl with Some l => _ | None => _ end).
  pose proof (level_of_rank_spec _ (rank_range (clearance_level user))) as [Hin Hrank].
  exists target. split; [| split; [| split; [| split; [| split]]]].
  - intros n [_ Heq]%list_elem_of_In%filter_In. by apply String.eqb_eq.
  - intros e [_ Heq]%list_elem_of_In%filter_In.
    apply andb_prop in Heq as [Heq _]. apply andb_prop in Heq as [Heq _].
    by apply String.eqb_eq.
  - subst target. destruct lvl as [l |]; [| done].
    destruct (negb _ && includes accessibleLevels l) eqn:Hok; [| done].
    apply andb_prop in Hok as [_ Hok].
    by apply Hincluded in Hok as [? _].
  - subst target. destruct lvl as [l |]; [| lia].
    destruct (negb _ && includes accessibleLevels l) eqn:Hok; [| lia].
    apply andb_prop in Hok as [_ Hok].
    by apply Hincluded in Hok as [_ ?].
  - intros l -> Hl Hle. subst target.
    destruct (negb _ && includes accessibleLevels l) eqn:Hok; [done |].
    destruct (Hwithin l Hl Hle) as [Hyes | Hsame]; [| done].
    rewrite Hyes in Hok.
    assert (l ≠ "") as Hne.
    { intros ->. apply list_elem_of_In in Hl. simpl in Hl.
      destruct Hl as [? | [? | [? | []]]]; discriminate. }
    by destruct (String.eqb_spec l "").
  - intros Hnot. subst target. destruct lvl as [l |]; [| done].
    destruct (negb _ && includes accessibleLevels l) eqn:Hok; [| done].
    apply andb_prop in Hok as [_ Hok].
    apply Hincluded in Hok as [Hl Hle].
    destruct (Hnot l eq_refl) as [? | ?]; [done | lia].
Qed.

Section VirtualEdges.
Context `{Host}.

Lemma chooseEdge_keys nodeById logicalToNode edgesMap edge :
  edge_keys_inv edgesMap →
  edge_keys_inv (chooseEdge nodeById logicalToNode edgesMap edge).
Proof.
  intros [Hnd Hkeys]. unfold chooseEdge.
  destruct (nodeById !! source_node_id edge); [| done].
  destruct (nodeById !! target_node_id edge); [| done].
  destruct (logicalToNode !! _) as [bestSource |]; [| done].
  destruct (logicalToNode !! _) as [bestTarget |]; [| done].
  set (key := if String.eqb (edge_logical_id edge) "" then _ else _).
  set (candidate := set_endpoints _ _ edge).
  assert (edge_keys_inv (jsmap_set key candidate edgesMap)) as Hnew.
  { split; [by apply jsmap_set_NoDup |].
    intros k e [[-> ->] | Hin]%jsmap_set_entries; [| by apply Hkeys].
    cbn. intros Hne. subst key. by destruct (String.eqb_spec (edge_logical_id edge) ""). }
  destruct (jsmap_get key edgesMap); [| done].
  by destruct (greater _ _).
Qed.

Lemma foldl_chooseEdge_keys nodeById logicalToNode todo edgesMap :
  edge_keys_inv edgesMap →
  edge_keys_inv (foldl (chooseEdge nodeById logicalToNode) edgesMap todo).
Proof.
  revert edgesMap. induction todo as [| edge todo IH]; intros edgesMap Hinv; [done |].
  simpl. by apply IH, chooseEdge_keys.
Qed.

Lemma identified_values_distinct (m : JsMap GraphEdge) :
  edge_keys_inv m →
  NoDup (List.map edge_logical_id (identified (jsmap_values m))).
Proof.
  unfold identified, jsmap_values.
  induction m as [| [k0 e0] m IH]; intros [Hnd Hkeys]; simpl; [constructor |].
  apply NoDup_cons in Hnd as [Hk0 Hnd].
  assert (edge_keys_inv m) as Hinv.
  { split; [done |]. intros k e Hin. apply Hkeys. by right. }
  destruct (String.eqb_spec (edge_logical_id e0) "") as [_ | Hne]; simpl;
    [by apply IH |].
  apply NoDup_cons. split; [| by apply IH].
  intros Hin. apply Hk0.
  apply list_elem_of_In, in_map_iff in Hin as (e & Heq & [Hin He]%filter_In).
  apply in_map_iff in Hin as ([k e'] & Hsnd & Hin). simpl in Hsnd. subst e'.
  apply negb_true_iff in He.
  assert (edge_logical_id e = k) as Hk.
  { apply Hkeys; [right; by apply list_elem_of_In |].
    intros Hempty. by rewrite Hempty in He. }
  assert (edge_logical_id e0 = k0) as Hk0' by (apply Hkeys; [by left | done]).
  apply list_elem_of_fmap. exists (k, e). split; [| by apply list_elem_of_In].
  simpl. congruence.
Qed.

End VirtualEdges.

(** X25.  In virtual mode the returned edges that carry a logical id
    have pairwise different logical ids: the view holds at most one edge
    per logical id. *)
Theorem virtual_view_has_one_edge_per_logical_id :
  ∀ (H : Host) (user : User) (lvl : option string) (ovl : option (list string)) (st : Store),
    let view := (getGraphData user (mkOptions mode_virtual lvl ovl) st).1 in
    NoDup (List.map edge_logical_id (identified (edges view))).
Proof.
  intros H user lvl ovl st view. subst view.
  unfold getGraphData, mbind, async_bind, getAllNodes, getAllEdges, get_store,
    mret, async_ret; cbn [fst mode edges].
  apply identified_values_distinct, foldl_chooseEdge_keys.
  split; [constructor | by intros ? ? ?%elem_of_nil].
Qed.

(** ** The query pipeline: comparisons, the trail, the explanation *)

Section PipelineMore.
Context `{Host}.

Lemma compareValues_nullish lhs rhs operator :
  nullish lhs → compareValues lhs rhs operator = false.
Proof. by intros [-> | ->]. Qed.

Lemma set_add_NoDup (x : string) (s : list string) : NoDup s → NoDup (set_add x s).
Proof.
  intros Hnd. unfold set_add. destruct (existsb (String.eqb x) s) eqn:Hex; [done |].
  apply NoDup_app. split; [done |]. split; [| apply NoDup_singleton].
  intros y Hy ->%list_elem_of_singleton.
  assert (existsb (String.eqb x) s = true) as Htrue; [| congruence].
  apply existsb_exists. exists x. split; [by apply list_elem_of_In | apply String.eqb_refl].
Qed.

Lemma set_add_elem_of (x y : string) (s : list string) :
  y ∈ set_add x s ↔ y = x ∨ y ∈ s.
Proof.
  unfold set_add. destruct (existsb (String.eqb x) s) eqn:Hex.
  - apply existsb_exists in Hex as (z & Hz & <-%String.eqb_eq).
    apply list_elem_of_In in Hz. split; [by right | by intros [-> | ?]].
  - rewrite elem_of_app, list_elem_of_singleton. tauto.
Qed.

Lemma dedupe_from (seen items : list string) :
  NoDup seen →
  NoDup (foldl (fun seen item => set_add item seen) seen items) ∧
  ∀ y, y ∈ foldl (fun seen item => set_add item seen) seen items ↔ y ∈ seen ∨ y ∈ items.
Proof.
  revert seen. induction items as [| item items IH]; intros seen Hnd; simpl.
  - split; [done |]. intros y. rewrite elem_of_nil. tauto.
  - destruct (IH (set_add item seen) (set_add_NoDup item seen Hnd)) as [Hnd' Hmem].
    split; [done |]. intros y. rewrite Hmem, set_add_elem_of, elem_of_cons. tauto.
Qed.

End PipelineMore.

(** X26.  A node that lacks the compared attribute fails the
    comparison, whatever the operator ([!=] included): when the value
    under the attribute's name, under its upper-case and under its
    lower-case spelling is absent or null for one comparison of the
    list, [checkComparisons] is false. *)
Theorem comparison_on_absent_attribute_fails :
  ∀ (H : Host) (node : GraphNode) (comparisons : list ComparisonFilter)
    (comparison : ComparisonFilter),
    comparison ∈ comparisons →
    nullish (Js.get (node_attributes node) (cmp_attribute comparison)) →
    nullish (Js.get (node_attributes node) (toUpperCase (cmp_attribute comparison))) →
    nullish (Js.get (node_attributes node) (toLowerCase (cmp_attribute comparison))) →
    checkComparisons node comparisons = false.
Proof.
  intros H node comparisons comparison Hin Ha Hu Hl.
  unfold checkComparisons. apply not_true_is_false. intros Hall.
  rewrite forallb_forall in Hall. specialize (Hall comparison).
  rewrite compareValues_nullish in Hall.
  - apply list_elem_of_In in Hin. by specialize (Hall Hin).
  - destruct Ha as [-> | ->], Hu as [-> | ->]; exact Hl.
Qed.

(** X27.  A query never edits the graph and only ever adds to the
    trail: after [executeNaturalLanguageQuery], whatever its outcome,
    the stored nodes and edges are as before, and the audit trail is
    either as before or has one new entry in front, for this user and
    this text. *)
Theorem query_leaves_graph_and_extends_trail :
  ∀ (H : Host) (nowBudget nowAudit : Z) (user : User) (queryText : string)
    (st : Store),
    let st' := (executeNaturalLanguageQuery nowBudget nowAudit user queryText st).2 in
    nodesStore st' = nodesStore st ∧
    edgesStore st' = edgesStore st ∧
    (auditLogStore st' = auditLogStore st ∨
     ∃ entry,
       auditLogStore st' = entry :: auditLogStore st ∧
       audit_user_id entry = user_id user ∧ query_text entry = queryText ∧
       query_type entry = "NL_QUERY" ∧
       audit_created_at entry = Date_toISOString nowAudit).
Proof.
  intros H nowBudget nowAudit user queryText st st'. subst st'.
  destruct (checkQueryBudget user) eqn:Hbudget.
  - destruct (parseNaturalLanguage queryText) as [parsed |] eqn:Hparse.
    + rewrite (executeNaturalLanguageQuery_parsed _ _ _ _ _ _ Hbudget Hparse).
      destruct (executeParsed_run nowBudget nowAudit user queryText parsed st)
        as [users' ->].
      cbv zeta. destruct (Z.eqb _ 0); [| destruct (negb _)];
        (split; [done |]); (split; [done |]); right; eexists;
        (split; [reflexivity |]); unfold spent; by destruct (Z.gtb _ _).
    + rewrite (executeNaturalLanguageQuery_unrecognized _ _ _ _ _ Hbudget Hparse).
      split; [done |]. split; [done |]. by left.
  - rewrite (executeNaturalLanguageQuery_denied _ _ _ _ _ Hbudget).
    split; [done |]. split; [done |]. right. eexists. by split.
Qed.

(** X28.  A query that is understood but matches nothing still counts:
    with budget left and an empty filtered set, the pipeline returns
    success with an empty list (not aggregated, no denial reason),
    prepends an audit entry with result_count = 0 and granted = true and
    no reason, and takes one unit off the caller's budget. *)
Theorem empty_answer_is_audited_and_charged :
  ∀ (H : Host) (nowBudget nowAudit : Z) (user : User) (queryText : string)
    (st : Store) (parsed : ParsedQuery),
    query_budget user > 0 →
    parseNaturalLanguage queryText = Some parsed →
    filterNodes user parsed (getAllNodes st).1 = [] →
    let outcome := executeNaturalLanguageQuery nowBudget nowAudit user queryText st in
    let result := outcome.1.1 in
    success result = true ∧
    data result = Some (DataNodes []) ∧
    aggregated result = Some false ∧
    denialReason result = None ∧ error result = None ∧
    (∃ entry,
       auditLogStore outcome.2 = entry :: auditLogStore st ∧
       audit_user_id entry = user_id user ∧
       result_count entry = 0 ∧ access_granted entry = true ∧
       denial_reason entry = None) ∧
    query_budget outcome.1.2 = query_budget user - 1.
Proof.
  intros H nowBudget nowAudit user queryText st parsed Hbudget Hparse Hnone
         outcome result.
  assert (checkQueryBudget user = true) as Hcheck
    by (unfold checkQueryBudget; apply Z.gtb_gt; lia).
  subst result outcome.
  rewrite (executeNaturalLanguageQuery_parsed _ _ _ _ _ _ Hcheck Hparse).
  destruct (executeParsed_run nowBudget nowAudit user queryText parsed st)
    as [users' ->].
  cbv zeta. rewrite Hnone. cbn [length Z.of_nat Z.eqb fst snd].
  unfold spent. unfold checkQueryBudget in Hcheck. rewrite Hcheck.
  repeat (split; [done |]). split; [| done].
  eexists. by split.
Qed.

(** X29.  An explanation never repeats a tip: the tips of
    [buildExplanation] are pairwise different, and they are exactly the
    tips of the parsed query. *)
Theorem explanation_tips_are_distinct :
  ∀ (H : Host) (parsed : ParsedQuery) (rawQuery : string),
    let shown := exp_tips (buildExplanation parsed rawQuery) in
    NoDup shown ∧ ∀ tip, tip ∈ shown ↔ tip ∈ tips parsed.
Proof.
  intros H parsed rawQuery shown. subst shown. cbn [exp_tips buildExplanation].
  unfold dedupe. destruct (dedupe_from [] (tips parsed) (NoDup_nil_2 (A := string))) as [Hnd Hmem].
  split; [done |]. intros tip. rewrite Hmem, elem_of_nil. tauto.
Qed.

Section ParserVocabulary.
Context `{Host}.

Lemma extractKeywords_values (table : list (string * string)) (lowerQuery : string) :
  NoDup (values (extractKeywords table lowerQuery)) ∧
  ∀ v, v ∈ values (extractKeywords table lowerQuery) → v ∈ table.*2.
Proof.
  unfold extractKeywords.
  assert (∀ acc,
            NoDup (values acc) →
            NoDup (values (foldl
              (fun acc kv =>
                 if str_includes (fst kv) lowerQuery
                 then mkExtracted (set_add (snd kv) (values acc))
                                  (ext_recognized acc ++ [fst kv])%list
                 else acc) acc table)) ∧
            ∀ v, v ∈ values (foldl
              (fun acc kv =>
                 if str_includes (fst kv) lowerQuery
                 then mkExtracted (set_add (snd kv) (values acc))
                                  (ext_recognized acc ++ [fst kv])%list
                 else acc) acc table) → v ∈ values acc ∨ v ∈ table.*2) as Hgen.
  { induction table as [| [k w] table IH]; intros acc Hnd; simpl; [by split; auto |].
    destruct (str_includes k lowerQuery).
    - destruct (IH (mkExtracted (set_add w (values acc)) (ext_recognized acc ++ [k]))
                  (set_add_NoDup w _ Hnd)) as [Hnd' Hmem].
      split; [done |]. intros v Hv. destruct (Hmem v Hv) as [Hin | Hin].
      + cbn in Hin. apply set_add_elem_of in Hin as [-> | Hin]; [right; by left | by left].
      + right. by right.
    - destruct (IH acc Hnd) as [Hnd' Hmem]. split; [done |].
      intros v Hv. destruct (Hmem v Hv) as [? | ?]; [by left | right; by right]. }
  destruct (Hgen (mkExtracted [] []) (NoDup_nil_2 (A := string))) as [Hnd Hmem].
  split; [done |]. intros v Hv. destruct (Hmem v Hv) as [Hin | Hin]; [| done].
  by apply elem_of_nil in Hin.
Qed.

Lemma parseNaturalLanguage_level queryText parsed :
  parseNaturalLanguage queryText = Some parsed →
  levelFilter parsed = extractLevel (toLowerCase queryText).
Proof.
  unfold parseNaturalLanguage. cbv zeta. destruct (_ && _)%bool; [discriminate |].
  by intros [= <-].
Qed.

Lemma detectEntity_types lowerQuery :
  det_entityType (detectEntity lowerQuery) = None ∨
  det_entityType (detectEntity lowerQuery) = Some "Target" ∨
  det_entityType (detectEntity lowerQuery) = Some "Sensor" ∨
  det_entityType (detectEntity lowerQuery) = Some "Event" ∨
  det_entityType (detectEntity lowerQuery) = Some "Sector".
Proof.
  unfold detectEntity, ENTITY_KEYWORDS. cbn [detectEntityIn keywords ek_entityType].
  repeat (destruct (existsb _ _); [cbn; tauto |]). cbn. tauto.
Qed.

End ParserVocabulary.

(** X30.  What a parsed query can hold: its entity type, when it has
    one, is Target, Sensor, Event or Sector; its status filters are
    pairwise different and each is "offline" or "online"; its level
    filter, when it has one, is SECRET, CONFIDENTIAL or UNCLASSIFIED. *)
Theorem parsed_query_vocabulary :
  ∀ (H : Host) (queryText : string) (parsed : ParsedQuery),
    parseNaturalLanguage queryText = Some parsed →
    (entityType parsed = None ∨ entityType parsed = Some "Target" ∨
     entityType parsed = Some "Sensor" ∨ entityType parsed = Some "Event" ∨
     entityType parsed = Some "Sector") ∧
    NoDup (statusFilters parsed) ∧
    (∀ status, status ∈ statusFilters parsed → status = "offline" ∨ status = "online") ∧
    (levelFilter parsed = None ∨ levelFilter parsed = Some "SECRET" ∨
     levelFilter parsed = Some "CONFIDENTIAL" ∨ levelFilter parsed = Some "UNCLASSIFIED").
Proof.
  intros H queryText parsed Hparse.
  destruct (parseNaturalLanguage_Some _ _ Hparse) as (Htype & _ & Hstatus & _).
  rewrite Htype, Hstatus, (parseNaturalLanguage_level _ _ Hparse).
  unfold extractedEntityType, extractedStatusFilters, extractStatusFilters.
  destruct (extractKeywords_values STATUS_KEYWORDS (toLowerCase queryText))
    as [Hnd Hmem].
  split; [apply detectEntity_types |]. split; [done |]. split.
  - intros status Hin%Hmem. apply list_elem_of_In in Hin. simpl in Hin.
    repeat (destruct Hin as [<- | Hin]; [tauto |]). done.
  - unfold extractLevel.
    destruct (List.find _ LEVEL_KEYWORDS) as [[k v] |] eqn:Hfind; [| by left].
    apply find_some in Hfind as [Hin _]. simpl in Hin |- *.
    repeat (destruct Hin as [[= <- <-] | Hin]; [tauto |]). done.
Qed.

(** ** Example runs of the further properties *)

Lemma example_sort_rearranges : sort_rearranges ExampleHost.example_host.
Proof.
  intros A compare items. cbn. unfold ExampleHost.sort_by.
  induction items as [| x items IH]; simpl; [done |].
  rewrite <- IH at 2. generalize (foldr (ExampleHost.insert_sorted compare) [] items).
  intros sorted. induction sorted as [| y sorted IHs]; simpl; [done |].
  destruct (0 <? compare x y)%float; [| done].
  rewrite IHs. apply Permutation_swap.
Qed.

(** The CONFIDENTIAL edge of [crossing] ends at a SECRET node: its ends
    are stored, not at its level. *)
Lemma crossing_edges_closed : edges_closed TransferExamples.crossing.
Proof.
  intros edge Hin. apply list_elem_of_In in Hin. simpl in Hin.
  destruct Hin as [<- | []].
  split; [exists TransferExamples.node_b | exists TransferExamples.node_a_secret];
    (split; [apply list_elem_of_In; simpl; auto | done]).
Qed.

Lemma small_edges_joined : edges_joined TransferExamples.small.
Proof.
  intros edge Hin. apply list_elem_of_In in Hin. simpl in Hin.
  destruct Hin as [<- | []].
  split; [exists TransferExamples.node_b | exists TransferExamples.node_a];
    (split; [apply list_elem_of_In; simpl; auto | by split]).
Qed.

Lemma checkClearance_witness :
  checkClearance (H := ExampleHost.example_host) "SECRET" "constructor" = false ∧
  checkClearance (H := ExampleHost.example_host) "toString" "UNCLASSIFIED" = false ∧
  checkClearance (H := ExampleHost.example_host) "toString" "constructor" = true ∧
  checkClearance (H := ExampleHost.example_host) "constructor" "toString" = false ∧
  checkClearance (H := ExampleHost.example_host) "SECRET" "PUBLIC" = true.
Proof.
  split; [| split; [| split; [| split]]].
  - apply (proj1 (proj2 (checkClearance_by_kind_of_level ExampleHost.example_host
                           "SECRET" "constructor"))).
    vm_compute. discriminate.
  - apply (proj1 (proj2 (checkClearance_by_kind_of_level ExampleHost.example_host
                           "toString" "UNCLASSIFIED"))).
    vm_compute. discriminate.
  - rewrite (proj2 (proj2 (checkClearance_by_kind_of_level ExampleHost.example_host
                             "toString" "constructor"))
               "function toString() { [native code] }"
               "function Object() { [native code] }" eq_refl eq_refl eq_refl eq_refl).
    reflexivity.
  - rewrite (proj2 (proj2 (checkClearance_by_kind_of_level ExampleHost.example_host
                             "constructor" "toString"))
               "function Object() { [native code] }"
               "function toString() { [native code] }" eq_refl eq_refl eq_refl eq_refl).
    reflexivity.
  - apply (proj2 (proj1 (checkClearance_by_kind_of_level ExampleHost.example_host
                           "SECRET" "PUBLIC") eq_refl eq_refl));
      discriminate.
Defined.

Lemma higher_clearance_witness :
  PolicyExamples.node_in (Some "A") "CONFIDENTIAL"
  ∈ filterAccessibleNodes (H := ExampleHost.example_host) EditExamples.promoted
      [PolicyExamples.node_in (Some "A") "CONFIDENTIAL"].
Proof.
  apply (proj1 (higher_clearance_sees_no_less ExampleHost.example_host
                  PolicyExamples.analyst_a EditExamples.promoted
                  [PolicyExamples.node_in (Some "A") "CONFIDENTIAL"] []
                  eq_refl eq_refl eq_refl ltac:(vm_compute; discriminate))).
  vm_compute. left.
Defined.

Lemma secret_commander_witness :
  let odd := PolicyExamples.node_in (Some "B") "constructor" in
  filterAccessibleNodes (H := ExampleHost.example_host) PolicyExamples.commander
    [TransferExamples.node_a; odd; TransferExamples.node_a_secret]
  = [TransferExamples.node_a; TransferExamples.node_a_secret] ∧
  filterAccessibleEdges (H := ExampleHost.example_host) PolicyExamples.commander
    [TransferExamples.edge_ab]
  = [TransferExamples.edge_ab].
Proof.
  intros odd.
  destruct (secret_commander_sees_everything ExampleHost.example_host
              PolicyExamples.commander
              [TransferExamples.node_a; odd; TransferExamples.node_a_secret]
              [TransferExamples.edge_ab] eq_refl eq_refl)
    as (Hnodes & Hedges & _).
  rewrite Hnodes, Hedges. split; reflexivity.
Defined.

Lemma stored_budgets_witness :
  budgets_in_range
    (decrementBudget (H := ExampleHost.example_host) 0 "local-analyst_a"
                     PipelineExamples.one_uav).2.
Proof.
  apply (stored_budgets_stay_in_range ExampleHost.example_host 0 "local-analyst_a"
           PipelineExamples.one_uav).
  intros u Hin. apply list_elem_of_In in Hin. simpl in Hin.
  destruct Hin as [<- | [<- | []]]; vm_compute; split; discriminate.
Defined.

Lemma logged_entry_witness :
  ∃ log,
    (getAuditLogsForUser "local-analyst_a" None
       (insertAuditLog (H := ExampleHost.example_host) 0 AnswerExamples.entry
                       PipelineExamples.one_uav).2).1
    = [log] ∧
    result_count log = 2.
Proof.
  destruct (logged_entry_heads_the_trail ExampleHost.example_host 0
              AnswerExamples.entry None PipelineExamples.one_uav
              ltac:(vm_compute; discriminate))
    as (log & Hhead & _ & _ & _ & Hcount & _).
  exists log. split; [exact Hhead | exact Hcount].
Defined.

Lemma createNode_then_deleteNode_witness :
  ∃ st2,
    deleteNode (H := ExampleHost.example_host) "radar" "m"
      (createNode (H := ExampleHost.example_host) 0
                  (EditExamples.new_node (Some " radar ")) TransferExamples.crossing).2
    = (Returned tt, st2) ∧
    nodesStore st2 = nodesStore TransferExamples.crossing ∧
    edgesStore st2 = edgesStore TransferExamples.crossing.
Proof.
  exact (createNode_then_deleteNode_restores_the_graph ExampleHost.example_host 0
           (EditExamples.new_node (Some " radar ")) TransferExamples.crossing
           (createNode (H := ExampleHost.example_host) 0
                       (EditExamples.new_node (Some " radar "))
                       TransferExamples.crossing).2
           (AnswerExamples.returned_or TransferExamples.node_a
              (createNode (H := ExampleHost.example_host) 0
                          (EditExamples.new_node (Some " radar "))
                          TransferExamples.crossing).1)
           crossing_edges_closed ltac:(vm_compute; reflexivity)).
Defined.

Lemma createEdge_witness :
  ∃ stored,
    edgesStore (createEdge (H := ExampleHost.example_host) 0 EditExamples.new_edge
                           TransferExamples.small).2
    = [TransferExamples.edge_ab; stored] ∧
    joins (nodesStore TransferExamples.small) stored ∧
    edge_id stored = "track_CONFIDENTIAL".
Proof.
  destruct (createEdge_joins_stored_nodes_of_its_level ExampleHost.example_host 0
              EditExamples.new_edge TransferExamples.small
              (createEdge (H := ExampleHost.example_host) 0 EditExamples.new_edge
                          TransferExamples.small).2
              (AnswerExamples.returned_or TransferExamples.edge_ab
                 (createEdge (H := ExampleHost.example_host) 0 EditExamples.new_edge
                             TransferExamples.small).1)
              ltac:(vm_compute; reflexivity))
    as (stored & Hclone & Hedges & _ & Hjoins & _).
  exists stored. split; [exact Hedges |]. split; [exact Hjoins |].
  apply (f_equal edge_id) in Hclone. exact (eq_sym Hclone).
Defined.

Lemma importLevelData_witness :
  let run :=
    importLevelData (H := ExampleHost.example_host) 0 "S" TransferExamples.broken
                    TransferExamples.small in
  let run' :=
    importLevelData (H := ExampleHost.example_host) 0 "S" TransferExamples.numbered
                    TransferExamples.small in
  run.1 = TypeError ∧
  List.map node_logical_id (nodesAt "SECRET" run.2) = ["c"] ∧
  nodesAt "CONFIDENTIAL" run.2 = [TransferExamples.node_a; TransferExamples.node_b] ∧
  edgesAt "CONFIDENTIAL" run.2 = [TransferExamples.edge_ab] ∧
  run'.1 = TypeError ∧
  nodesAt "SECRET" run'.2 = [] ∧
  nodesAt "CONFIDENTIAL" run'.2 = [TransferExamples.node_a; TransferExamples.node_b].
Proof.
  intros run run'.
  destruct (importLevelData_replaces_one_level ExampleHost.example_host 0 "S"
              TransferExamples.broken TransferExamples.small
              ltac:(vm_compute; discriminate))
    as (_ & _ & _ & Hother & _).
  destruct (importLevelData_replaces_one_level ExampleHost.example_host 0 "S"
              TransferExamples.numbered TransferExamples.small
              ltac:(vm_compute; discriminate))
    as (_ & _ & _ & Hother' & _).
  split; [vm_compute; reflexivity |]. split; [vm_compute; reflexivity |].
  destruct (Hother "CONFIDENTIAL" ltac:(vm_compute; discriminate)) as [Hnodes Hedges].
  destruct (Hother' "CONFIDENTIAL" ltac:(vm_compute; discriminate)) as [Hnodes' _].
  split; [exact Hnodes |]. split; [exact Hedges |].
  split; [vm_compute; reflexivity |]. split; [vm_compute; reflexivity |].
  exact Hnodes'.
Defined.

Lemma edges_joined_witness :
  let after :=
    (importLevelData (H := ExampleHost.example_host) 0 "S" TransferExamples.broken
                     TransferExamples.small).2 in
  edges_joined after ∧ edgesStore after = [TransferExamples.edge_ab].
Proof.
  intros after. split; [| vm_compute; reflexivity].
  exact (proj2 (proj2 (proj2 (proj2
           (proj1 (graph_edits_keep_edges_joined ExampleHost.example_host 0
                     TransferExamples.small)
                  small_edges_joined))))
           "S" TransferExamples.broken ltac:(vm_compute; discriminate)).
Defined.

Lemma query_answer_witness :
  (executeNaturalLanguageQuery (H := ExampleHost.example_host) 0 0
     PolicyExamples.analyst_a "uav" PipelineExamples.one_uav).1
  = (executeNaturalLanguageQuery (H := ExampleHost.example_host) 5 7
       PolicyExamples.analyst_a "uav" AnswerExamples.with_hidden).1.
Proof.
  exact (query_answer_depends_only_on_accessible_nodes ExampleHost.example_host
           0 0 5 7 PolicyExamples.analyst_a "uav" PipelineExamples.one_uav
           AnswerExamples.with_hidden ltac:(vm_compute; reflexivity)).
Defined.

Lemma query_discloses_witness :
  PipelineExamples.uav "1"
  ∈ filterAccessibleNodes (H := ExampleHost.example_host) PolicyExamples.analyst_a
      (getAllNodes PipelineExamples.two_uavs).1.
Proof.
  destruct (parseNaturalLanguage (H := ExampleHost.example_host) "uav")
    as [parsed |] eqn:Hparse; [| vm_compute in Hparse; discriminate].
  destruct (query_discloses_only_accessible_matching_nodes ExampleHost.example_host
              0 0 PolicyExamples.analyst_a "uav" PipelineExamples.two_uavs parsed
              [PipelineExamples.uav "1"; PipelineExamples.uav "2"]
              example_sort_rearranges Hparse ltac:(vm_compute; reflexivity))
    as [Hall _].
  exact (proj1 (Hall (PipelineExamples.uav "1") ltac:(left))).
Defined.

Lemma comparison_witness :
  checkComparisons (H := ExampleHost.example_host) (PipelineExamples.uav "1")
                   [AnswerExamples.faster] = false.
Proof.
  apply (comparison_on_absent_attribute_fails ExampleHost.example_host
           (PipelineExamples.uav "1") [AnswerExamples.faster] AnswerExamples.faster);
    [left | left; vm_compute; reflexivity ..].
Defined.

Lemma empty_answer_witness :
  let outcome :=
    executeNaturalLanguageQuery (H := ExampleHost.example_host) 0 0
      PolicyExamples.analyst_a "uav" AnswerExamples.no_nodes in
  data outcome.1.1 = Some (DataNodes []) ∧ query_budget outcome.1.2 = 7.
Proof.
  intros outcome.
  destruct (parseNaturalLanguage (H := ExampleHost.example_host) "uav")
    as [parsed |] eqn:Hparse; [| vm_compute in Hparse; discriminate].
  assert (filterNodes (H := ExampleHost.example_host) PolicyExamples.analyst_a parsed
                      (getAllNodes AnswerExamples.no_nodes).1 = []) as Hnone.
  { rewrite filterNodes_flat_and. unfold limited, takeWithPreferredOrder.
    change (getAllNodes AnswerExamples.no_nodes).1 with (@nil GraphNode).
    cbn [List.filter].
    destruct (limit parsed) as [n |]; [| reflexivity].
    destruct (truthy (JsNumber n) && (0 <? n)%float); [| reflexivity].
    destruct (_ <=? n)%float; reflexivity. }
  destruct (empty_answer_is_audited_and_charged ExampleHost.example_host 0 0
              PolicyExamples.analyst_a "uav" AnswerExamples.no_nodes parsed
              ltac:(vm_compute; reflexivity) Hparse Hnone)
    as (_ & Hdata & _ & _ & _ & _ & Hbudget).
  split; [exact Hdata | exact Hbudget].
Defined.

Lemma parsed_query_witness :
  ∃ parsed,
    parseNaturalLanguage (H := ExampleHost.example_host) "uav offline" = Some parsed ∧
    NoDup (statusFilters parsed) ∧
    (levelFilter parsed = None ∨ levelFilter parsed = Some "SECRET" ∨
     levelFilter parsed = Some "CONFIDENTIAL" ∨ levelFilter parsed = Some "UNCLASSIFIED").
Proof.
  destruct (parseNaturalLanguage (H := ExampleHost.example_host) "uav offline")
    as [parsed |] eqn:Hparse; [| vm_compute in Hparse; discriminate].
  exists parsed. split; [reflexivity |].
  destruct (parsed_query_vocabulary ExampleHost.example_host "uav offline" parsed Hparse)
    as (_ & Hdistinct & _ & Hlevel).
  split; [exact Hdistinct | exact Hlevel].
Defined.
